(** * The unmanic worker pool ([lib/worker.py])

    A shallow embedding of the two classes of [lib/worker.py]:
    [WorkerThread] (an execution unit) and [Worker] (the monitor thread that
    sizes the pool, hands tasks to the units and reports finished tasks to
    the job queue).

    - Python objects are records; the dictionary [worker_threads] is a
      [gmap nat WorkerThread]; the dictionary returned by [getJobProgress]
      is a [gmap string string].
    - Exceptions are values of [Exn]; code that can raise lives in the
      [Result] monad. [except Exception] catches every exception but those
      that are not of class [Exception] ([SystemExit], [KeyboardInterrupt]);
      [except queue.Empty], which comes first at lines 125 and 207, catches
      [queue.Empty], whoever raised it.
    - The two [queue.Queue] objects are shared by the monitor and by every
      unit. They are stored once, in the [Worker] record, and every unit
      step reads and writes them there. A task is owned by one holder at a
      time (a queue, a unit, the monitor), so it travels as a value.
    - Threads are interleaved at statement granularity: a program counter
      per thread, and a step function that runs one statement of one thread.
      The nondeterminism of the environment (what the conversion engine
      returns, which thread runs next, configuration changes) is carried by
      the label of the step. A call of [initWorkerThreads] is one step of
      the monitor: it reads the configured number of workers once, and no
      unit runs while it runs.
    - [time.sleep] changes no state and is not modelled. *)

From stdpp Require Import gmap strings list fin_maps.
From Stdlib Require Import ZArith DecimalString DecimalNat Lia.

Local Open Scope Z_scope.
Local Open Scope nat_scope.

(** ** Exceptions and results *)

Inductive Exn : Type :=
| QueueEmpty                 (* queue.Empty *)
| KeyError (k : nat)         (* a missing key of [worker_threads] *)
| AttributeError             (* attribute access on [None] or on a dict *)
| Exception (msg : string)   (* any other exception of class [Exception] *)
| BaseException (msg : string).
    (* an exception that is not of class [Exception]: [SystemExit], ... *)

Inductive Result (A : Type) : Type :=
| Ok (a : A)
| Raise (e : Exn).
Arguments Ok {A} a.
Arguments Raise {A} e.

Global Instance Result_ret : MRet Result := fun A a => Ok a.

Global Instance Result_bind : MBind Result := fun A B k r =>
  match r with
  | Ok a => k a
  | Raise e => Raise e
  end.

(** [str(e)] *)
Definition str_exn (e : Exn) : string :=
  match e with
  | QueueEmpty => EmptyString
  | KeyError k => NilEmpty.string_of_uint (Nat.to_uint k)
  | AttributeError => "AttributeError"
  | Exception msg => msg
  | BaseException msg => msg
  end.

(** [except queue.Empty] does not catch [e], and the [except Exception]
    that follows it does: the handlers of lines 127 and 209 run. *)
Definition caught_and_logged (e : Exn) : Prop :=
  match e with
  | QueueEmpty | BaseException _ => False
  | _ => True
  end.

Global Instance caught_and_logged_dec e : Decision (caught_and_logged e).
Proof. destruct e; simpl; apply _. Defined.

(** [str(n)] for a non-negative integer *)
Definition str (n : nat) : string := NilEmpty.string_of_uint (Nat.to_uint n).

(** ** Tasks

    The task class is not part of [lib/worker.py]; the record lists what
    the worker reads or writes of a task. [task_id] stands for the identity
    of the Python object. The fields of [ffmpeg] hold the [str(...)]
    rendering that [getJobProgress] reports. *)

Record FFmpeg : Type := {
  duration : string;
  src_fps : string;
  elapsed : string;
  time : string;
  percent : string;
  frame : string;
  fps : string;
  speed : string;
  bitrate : string;
  file_size : string
}.

Record Task : Type := {
  task_id : nat;
  source_abspath : string;     (* get_source_abspath() *)
  source_basename : string;    (* get_source_basename() *)
  cache_path : string;
  ffmpeg : FFmpeg;
  success : option bool        (* unset until processed *)
}.

Definition set_success (b : bool) (t : Task) : Task :=
  {| task_id := task_id t; source_abspath := source_abspath t;
     source_basename := source_basename t; cache_path := cache_path t;
     ffmpeg := ffmpeg t; success := Some b |}.

Definition set_ffmpeg (p : FFmpeg) (t : Task) : Task :=
  {| task_id := task_id t; source_abspath := source_abspath t;
     source_basename := source_basename t; cache_path := cache_path t;
     ffmpeg := p; success := success t |}.

(** ** [queue.Queue]

    A FIFO queue; [maxsize = 0] means unbounded. *)

Record Queue : Type := {
  maxsize : nat;
  items : list Task
}.

Definition Queue_new (maxsize : nat) : Queue :=
  {| maxsize := maxsize; items := [] |}.

Definition empty (q : Queue) : bool :=
  match items q with [] => true | _ => false end.

Definition full (q : Queue) : bool :=
  (0 <? maxsize q) && (maxsize q <=? length (items q)).

(** [get_nowait()] raises [queue.Empty] on an empty queue. *)
Definition get_nowait (q : Queue) : Result (Task * Queue) :=
  match items q with
  | [] => Raise QueueEmpty
  | t :: rest => Ok (t, {| maxsize := maxsize q; items := rest |})
  end.

(** [put(item)] blocks while the queue is full: [None] is "not enabled". *)
Definition put (item : Task) (q : Queue) : option Queue :=
  if full q then None
  else Some {| maxsize := maxsize q; items := items q ++ [item] |}.

(** ** Logging

    [_log(message, message2, level)] hands [format_message(message,
    message2)] to the logger method named [level]; a record keeps the
    three arguments. *)

Record LogRecord : Type := {
  log_level : string;
  log_message : string;
  log_message2 : string
}.

Definition log_record (message message2 level : string) : LogRecord :=
  {| log_level := level; log_message := message; log_message2 := message2 |}.

(** ** [WorkerThread] *)

(** The value of [self.current_task]: [None] after [__init__], a task while
    one is owned, the empty dict after the reset of line 124. Only a task
    is true in [if self.current_task:]. *)
Inductive CurrentTask : Type :=
| CT_None
| CT_dict
| CT_task (t : Task).

(** Where a unit is in [WorkerThread.run]. *)
Inductive WorkerThreadPC : Type :=
| W_start      (* line 106 *)
| W_outer      (* line 107: the test of the outer [while] *)
| W_set_idle   (* line 108 *)
| W_inner      (* line 109: the test of the flag *)
| W_inner_empty  (* line 109: the test of the queue *)
| W_set_busy   (* line 111 *)
| W_get        (* lines 112-114 *)
| W_process    (* lines 117-120 *)
| W_put        (* line 121 *)
| W_reset      (* line 124 *)
| W_sleep      (* line 129 *)
| W_stopped.   (* the thread has ended: line 130 is done, or [run] was
                  left by an exception that no handler catches *)

Global Instance WorkerThreadPC_eq_dec : EqDecision WorkerThreadPC.
Proof. solve_decision. Defined.

Record WorkerThread : Type := {
  threadID : nat;
  name : string;
  ident : nat;                    (* the thread identifier, [self.ident] *)
  idle : bool;
  current_task : CurrentTask;
  redundant_flag : bool;          (* threading.Event *)
  logger : list LogRecord;
  pc : WorkerThreadPC;
  (* history variable: a test of [redundant_flag.is_set()] returned True *)
  observed_redundant : bool
}.

Definition WorkerThread_init (threadID : nat) (name : string) : WorkerThread :=
  {| threadID := threadID; name := name; ident := 0; idle := true;
     current_task := CT_None; redundant_flag := false; logger := [];
     pc := W_start; observed_redundant := false |}.

(** [thread.start()]: the thread gets its identifier and begins [run]. *)
Definition start (tid : nat) (w : WorkerThread) : WorkerThread :=
  {| threadID := threadID w; name := name w; ident := tid; idle := idle w;
     current_task := current_task w; redundant_flag := redundant_flag w;
     logger := logger w; pc := pc w;
     observed_redundant := observed_redundant w |}.

Definition isAlive (w : WorkerThread) : bool :=
  bool_decide (pc w ≠ W_stopped).

Definition redundant_flag_set (w : WorkerThread) : WorkerThread :=
  {| threadID := threadID w; name := name w; ident := ident w; idle := idle w;
     current_task := current_task w; redundant_flag := true;
     logger := logger w; pc := pc w;
     observed_redundant := observed_redundant w |}.

Definition WorkerThread_log (message message2 level : string)
    (w : WorkerThread) : WorkerThread :=
  {| threadID := threadID w; name := name w; ident := ident w; idle := idle w;
     current_task := current_task w; redundant_flag := redundant_flag w;
     logger := logger w ++ [log_record message message2 level]; pc := pc w;
     observed_redundant := observed_redundant w |}.

Definition set_idle (b : bool) (w : WorkerThread) : WorkerThread :=
  {| threadID := threadID w; name := name w; ident := ident w; idle := b;
     current_task := current_task w; redundant_flag := redundant_flag w;
     logger := logger w; pc := pc w;
     observed_redundant := observed_redundant w |}.

Definition set_current_task (c : CurrentTask) (w : WorkerThread) : WorkerThread :=
  {| threadID := threadID w; name := name w; ident := ident w; idle := idle w;
     current_task := c; redundant_flag := redundant_flag w;
     logger := logger w; pc := pc w;
     observed_redundant := observed_redundant w |}.

Definition goto (p : WorkerThreadPC) (w : WorkerThread) : WorkerThread :=
  {| threadID := threadID w; name := name w; ident := ident w; idle := idle w;
     current_task := current_task w; redundant_flag := redundant_flag w;
     logger := logger w; pc := p;
     observed_redundant := observed_redundant w |}.

Definition observe (w : WorkerThread) : WorkerThread :=
  {| threadID := threadID w; name := name w; ident := ident w; idle := idle w;
     current_task := current_task w; redundant_flag := redundant_flag w;
     logger := logger w; pc := pc w;
     observed_redundant := true |}.

(** *** [getJobProgress] and [get_status] *)

Definition getJobProgress (self : WorkerThread) : gmap string string :=
  match current_task self with
  | CT_task t =>
      <["file_size" := file_size (ffmpeg t)]>
      (<["bitrate" := bitrate (ffmpeg t)]>
      (<["speed" := speed (ffmpeg t)]>
      (<["fps" := fps (ffmpeg t)]>
      (<["frame" := frame (ffmpeg t)]>
      (<["percent" := percent (ffmpeg t)]>
      (<["time" := time (ffmpeg t)]>
      (<["elapsed" := elapsed (ffmpeg t)]>
      (<["src_fps" := src_fps (ffmpeg t)]>
      (<["duration" := duration (ffmpeg t)]> ∅)))))))))
  | _ => ∅
  end.

Record Status : Type := {
  status_id : string;
  status_name : string;
  status_idle : bool;
  status_pid : nat;
  status_progress : gmap string string;
  status_current_file : string
}.

Definition get_status (self : WorkerThread) : Status :=
  {| status_id := str (threadID self);
     status_name := name self;
     status_idle := idle self;
     status_pid := ident self;
     status_progress := getJobProgress self;
     status_current_file :=
       match current_task self with
       | CT_task t => source_basename t
       | _ => EmptyString
       end |}.

(** *** [process_item]

    The conversion engine is a collaborator: one call of [process_item]
    sees one outcome of [ensureDir], of [generate_ffmpeg_args] and of
    [convert_file_and_fetch_progress]. A collaborator may raise any
    exception, [queue.Empty] and exceptions outside [Exception]
    included. *)

Inductive Outcome (A : Type) : Type :=
| Returns (a : A)
| Raises (e : Exn).
Arguments Returns {A} a.
Arguments Raises {A} e.

Record Engine : Type := {
  ensureDir : Outcome unit;
  generate_ffmpeg_args : Outcome (list string);
  convert_file_and_fetch_progress : Outcome bool
}.

Definition process_item (eng : Engine) (self : WorkerThread)
    : WorkerThread * Result bool :=
  match current_task self with
  | CT_task t =>
      let abspath := source_abspath t in
      let self := WorkerThread_log (name self +:+ " running job - " +:+ abspath)
                    EmptyString "info" self in
      match ensureDir eng with
      | Raises e => (self, Raise e)
      | Returns _ =>
          match generate_ffmpeg_args eng with
          | Raises e => (self, Raise e)
          | Returns ffmpeg_args =>
              let converted :=
                match ffmpeg_args with
                | [] => Returns false
                | _ => convert_file_and_fetch_progress eng
                end in
              match converted with
              | Raises e => (self, Raise e)
              | Returns true =>
                  (WorkerThread_log
                     ("Successfully converted file '" +:+ abspath +:+ "'")
                     EmptyString "info" self, Ok true)
              | Returns false =>
                  (WorkerThread_log
                     ("Failed to convert file '" +:+ abspath +:+ "'")
                     EmptyString "warning" self, Ok false)
              end
          end
      end
  | _ => (self, Raise AttributeError)
  end.

(** ** [Worker]: the monitor thread *)

(** The settings object: the configured number of workers (it may change
    between two reads), and the history log it can read. *)
Record Settings : Type := {
  NUMBER_OF_WORKERS : Z;
  history_log : list (gmap string string)
}.

Definition read_history_log (s : Settings) : list (gmap string string) :=
  history_log s.

(** Modelled from the spec: the job queue is a collaborator whose class is
    not in [lib/worker.py]. It "supplies pending items, reports emptiness,
    and records processed results"; the spec also lists a
    [read_history_log()] among its operations. [processed] records the
    argument of every call of [mark_item_as_processed]. *)
Record JobQueue : Type := {
  incoming : list Task;
  processed : list Task;
  job_history : list (gmap string string)
}.

Definition incoming_is_empty (jq : JobQueue) : bool :=
  match incoming jq with [] => true | _ => false end.

Definition get_next_incoming_item (jq : JobQueue) : option Task * JobQueue :=
  match incoming jq with
  | [] => (None, jq)
  | t :: rest =>
      (Some t, {| incoming := rest; processed := processed jq;
                  job_history := job_history jq |})
  end.

Definition mark_item_as_processed (t : Task) (jq : JobQueue) : JobQueue :=
  {| incoming := incoming jq; processed := processed jq ++ [t];
     job_history := job_history jq |}.

Definition job_queue_read_history_log (jq : JobQueue)
    : list (gmap string string) :=
  job_history jq.

Definition add_incoming (t : Task) (jq : JobQueue) : JobQueue :=
  {| incoming := incoming jq ++ [t]; processed := processed jq;
     job_history := job_history jq |}.

Record Worker : Type := {
  settings : Settings;
  job_queue : JobQueue;
  task_queue : Queue;
  complete_queue : Queue;
  worker_threads : gmap nat WorkerThread;
  remove_list : list nat;
  abort_flag : bool;
  worker_logger : list LogRecord
}.

Definition Worker_init (settings : Settings) (job_queue : JobQueue) : Worker :=
  {| settings := settings; job_queue := job_queue;
     task_queue := Queue_new 1; complete_queue := Queue_new 0;
     worker_threads := ∅; remove_list := []; abort_flag := false;
     worker_logger := [] |}.

Definition set_worker_threads (m : gmap nat WorkerThread) (self : Worker) : Worker :=
  {| settings := settings self; job_queue := job_queue self;
     task_queue := task_queue self; complete_queue := complete_queue self;
     worker_threads := m; remove_list := remove_list self;
     abort_flag := abort_flag self; worker_logger := worker_logger self |}.

Definition set_remove_list (l : list nat) (self : Worker) : Worker :=
  {| settings := settings self; job_queue := job_queue self;
     task_queue := task_queue self; complete_queue := complete_queue self;
     worker_threads := worker_threads self; remove_list := l;
     abort_flag := abort_flag self; worker_logger := worker_logger self |}.

Definition set_settings (s : Settings) (self : Worker) : Worker :=
  {| settings := s; job_queue := job_queue self;
     task_queue := task_queue self; complete_queue := complete_queue self;
     worker_threads := worker_threads self; remove_list := remove_list self;
     abort_flag := abort_flag self; worker_logger := worker_logger self |}.

Definition set_job_queue (jq : JobQueue) (self : Worker) : Worker :=
  {| settings := settings self; job_queue := jq;
     task_queue := task_queue self; complete_queue := complete_queue self;
     worker_threads := worker_threads self; remove_list := remove_list self;
     abort_flag := abort_flag self; worker_logger := worker_logger self |}.

Definition set_task_queue (q : Queue) (self : Worker) : Worker :=
  {| settings := settings self; job_queue := job_queue self;
     task_queue := q; complete_queue := complete_queue self;
     worker_threads := worker_threads self; remove_list := remove_list self;
     abort_flag := abort_flag self; worker_logger := worker_logger self |}.

Definition set_complete_queue (q : Queue) (self : Worker) : Worker :=
  {| settings := settings self; job_queue := job_queue self;
     task_queue := task_queue self; complete_queue := q;
     worker_threads := worker_threads self; remove_list := remove_list self;
     abort_flag := abort_flag self; worker_logger := worker_logger self |}.

Definition set_abort_flag (self : Worker) : Worker :=
  {| settings := settings self; job_queue := job_queue self;
     task_queue := task_queue self; complete_queue := complete_queue self;
     worker_threads := worker_threads self; remove_list := remove_list self;
     abort_flag := true; worker_logger := worker_logger self |}.

Definition Worker_log (message message2 level : string) (self : Worker) : Worker :=
  {| settings := settings self; job_queue := job_queue self;
     task_queue := task_queue self; complete_queue := complete_queue self;
     worker_threads := worker_threads self; remove_list := remove_list self;
     abort_flag := abort_flag self;
     worker_logger := worker_logger self ++ [log_record message message2 level] |}.

(** *** [initWorkerThreads]

    [for_range body l self] is [for i in l: body(i)], stopping at the first
    exception. The list is computed before the loop starts, as
    [range(len(self.worker_threads))] is. *)

Fixpoint for_range (body : nat → Worker → Result Worker) (l : list nat)
    (self : Worker) : Result Worker :=
  match l with
  | [] => Ok self
  | i :: l' => self' ← body i self; for_range body l' self'
  end.

(** Lines 154-155: the body of the loop that drops dead workers. *)
Definition remove_dead_body (thread : nat) (self : Worker) : Result Worker :=
  match worker_threads self !! thread with
  | None => Raise (KeyError thread)
  | Some w =>
      if isAlive w then Ok self
      else Ok (set_worker_threads (delete thread (worker_threads self)) self)
  end.

(** Lines 153-155. *)
Definition remove_dead_workers (self : Worker) : Result Worker :=
  for_range remove_dead_body (seq 0 (size (worker_threads self))) self.

(** Lines 174-177. [idents] gives the identifier the started thread gets. *)
Definition startWorkerThread (idents : nat → nat) (worker_id : nat)
    (self : Worker) : Worker :=
  let thread := WorkerThread_init worker_id ("Worker-" +:+ str worker_id) in
  let thread := start (idents worker_id) thread in
  set_worker_threads (<[worker_id := thread]> (worker_threads self)) self.

(** Lines 160-162. *)
Definition spawn_body (idents : nat → nat) (self : Worker) (i : nat) : Worker :=
  match worker_threads self !! i with
  | None => startWorkerThread idents i self
  | Some _ => self
  end.

(** Lines 156-162. *)
Definition spawn_missing_workers (idents : nat → nat) (self : Worker) : Worker :=
  let N := NUMBER_OF_WORKERS (settings self) in
  if (Z.of_nat (size (worker_threads self)) <? N)%Z then
    let self := Worker_log
      "Worker Threads under the configured limit. Spawning more..."
      EmptyString "info" self in
    foldl (spawn_body idents) self (seq 0 (Z.to_nat N))
  else self.

(** Lines 168-171: the body of the loop that marks workers redundant. *)
Definition mark_redundant_body (thread : nat) (self : Worker) : Result Worker :=
  match worker_threads self !! thread with
  | None => Raise (KeyError thread)
  | Some w =>
      if (NUMBER_OF_WORKERS (settings self) <=? Z.of_nat (threadID w))%Z then
        let self :=
          set_worker_threads
            (<[thread := redundant_flag_set w]> (worker_threads self)) self in
        Ok (set_remove_list (remove_list self ++ [thread]) self)
      else Ok self
  end.

(** Lines 164-172 (the [time.sleep(2)] changes no state). *)
Definition mark_redundant_workers (self : Worker) : Result Worker :=
  let N := NUMBER_OF_WORKERS (settings self) in
  if (N <? Z.of_nat (size (worker_threads self)))%Z then
    let self := Worker_log
      "Worker Threads exceed the configured limit. Marking some for removal..."
      EmptyString "info" self in
    for_range mark_redundant_body (seq 0 (size (worker_threads self))) self
  else Ok self.

Definition initWorkerThreads (idents : nat → nat) (self : Worker)
    : Result Worker :=
  self ← remove_dead_workers self;
  mark_redundant_workers (spawn_missing_workers idents self).

(** The monitor object when the loop is left, at its end or by an
    exception: what the iterations before have done to it stays done. *)
Fixpoint for_range_left (body : nat → Worker → Result Worker) (l : list nat)
    (self : Worker) : Worker :=
  match l with
  | [] => self
  | i :: l' =>
      match body i self with
      | Ok self' => for_range_left body l' self'
      | Raise _ => self
      end
  end.

(** The monitor object when [initWorkerThreads] is left, by its [return]
    or by the exception of one of the two loops. *)
Definition initWorkerThreads_left (idents : nat → nat) (self : Worker)
    : Worker :=
  let self1 :=
    for_range_left remove_dead_body (seq 0 (size (worker_threads self))) self in
  match remove_dead_workers self with
  | Raise _ => self1
  | Ok _ =>
      let self2 := spawn_missing_workers idents self1 in
      let N := NUMBER_OF_WORKERS (settings self2) in
      if (N <? Z.of_nat (size (worker_threads self2)))%Z then
        for_range_left mark_redundant_body
          (seq 0 (size (worker_threads self2)))
          (Worker_log
             "Worker Threads exceed the configured limit. Marking some for removal..."
             EmptyString "info" self2)
      else self2
  end.

(** Lines 179-183. *)
Definition checkForIdleWorkers (self : Worker) : bool :=
  existsb (fun kw => idle kw.2) (map_to_list (worker_threads self)).

(** Lines 185-186. *)
Definition add_to_task_queue (item : Task) (self : Worker) : option Worker :=
  q ← put item (task_queue self); Some (set_task_queue q self).

(** Lines 229-233. The statuses come in the order in which the finite map
    lists its entries, which is neither the insertion order of the Python
    dictionary nor the order of the keys: only what does not depend on the
    order of the list (its length, its members) is stated about it. *)
Definition getAllWorkerStatus (self : Worker) : list Status :=
  (fun kw => get_status kw.2) <$> map_to_list (worker_threads self).

(** Lines 235-236. *)
Definition getAllHistoricalTasks (self : Worker) : list (gmap string string) :=
  read_history_log (settings self).

(** ** Predicates and functions used to state the properties of [initWorkerThreads] *)

(** The key set of the registry is exactly [{0, ..., len - 1}]. *)
Definition dense_keys (m : gmap nat WorkerThread) : Prop :=
  dom m = set_seq 0 (size m).

Global Instance dense_keys_dec m : Decision (dense_keys m).
Proof. unfold dense_keys. apply _. Defined.

(** What the loop of lines 153-155 leaves at key [i], having run over
    the keys [a, ..., a + n - 1] of the registry [m]. *)
Definition after_remove_dead (a n : nat) (m : gmap nat WorkerThread)
    (i : nat) : option WorkerThread :=
  w ← m !! i;
  if bool_decide (a ≤ i < a + n) && negb (isAlive w) then None else Some w.

(** What the loop of lines 167-171 leaves at key [i]. *)
Definition after_mark_redundant (N : Z) (a n : nat)
    (m : gmap nat WorkerThread) (i : nat) : option WorkerThread :=
  w ← m !! i;
  if bool_decide (a ≤ i < a + n) && (N <=? Z.of_nat (threadID w))%Z
  then Some (redundant_flag_set w) else Some w.

(** The keys that loop appends to [remove_list]. *)
Definition is_marked (N : Z) (m : gmap nat WorkerThread) (i : nat) : bool :=
  match m !! i with
  | Some w => (N <=? Z.of_nat (threadID w))%Z
  | None => false
  end.

Definition marked_keys (N : Z) (m : gmap nat WorkerThread) (l : list nat)
    : list nat :=
  filter (fun i => is_marked N m i = true) l.

(** The registry once its dead workers are dropped. *)
Definition live_workers (m : gmap nat WorkerThread) : gmap nat WorkerThread :=
  filter (fun kw => isAlive kw.2 = true) m.



(** ** Concrete inputs *)

Definition example_idents (worker_id : nat) : nat := 1000 + worker_id.

Definition example_settings (N : Z) : Settings :=
  {| NUMBER_OF_WORKERS := N; history_log := [] |}.

Definition example_job_queue (pending : list Task) : JobQueue :=
  {| incoming := pending; processed := []; job_history := [] |}.

(** Two started workers, 0 and 1, and a configured limit of 1. *)
Definition pool_of_two : Worker :=
  set_settings (example_settings 1)
    (startWorkerThread example_idents 1
       (startWorkerThread example_idents 0
          (Worker_init (example_settings 2) (example_job_queue [])))).

(** [pool_of_two] after one call of [initWorkerThreads]: worker 1 is marked
    redundant and recorded once. *)
Definition pool_of_two_marked : Worker :=
  match initWorkerThreads example_idents pool_of_two with
  | Ok self => self
  | Raise _ => pool_of_two
  end.

(** A monitor whose settings object and job queue hold different history
    logs. *)
Definition history_entry : gmap string string :=
  <["description" := "a.mkv"]> ∅.

Definition worker_with_history : Worker :=
  Worker_init
    {| NUMBER_OF_WORKERS := 1; history_log := [history_entry] |}
    {| incoming := []; processed := []; job_history := [] |}.

(** ** The two threads, one statement at a time *)

(** Where each task goes is recorded in a history of events; the history is
    not read by the program. Units are named by their registry key, tasks
    by their [task_id]. *)
Inductive Event : Type :=
| Ev_pull (tid : nat)                   (* line 220 returned the task *)
| Ev_handoff (tid : nat)                (* line 186: task_queue.put *)
| Ev_claim (k tid : nat)                (* line 112: get_nowait returned it *)
| Ev_success (k tid : nat) (b : bool)   (* line 117: the assignment *)
| Ev_push (k tid : nat)                 (* line 121: complete_queue.put *)
| Ev_raise (k tid : nat)                (* line 117 was left by an exception *)
| Ev_take (tid : nat)                   (* line 205: get_nowait returned it *)
| Ev_mark (tid : nat).                  (* line 206: mark_item_as_processed *)

(** *** [WorkerThread.run]

    [unit_step eng k w tq cq] runs the statement at [pc w] of the unit
    registered at key [k]; [tq] and [cq] are the shared queues. [None]: no
    statement to run. *)
Definition unit_step (eng : Engine) (k : nat) (w : WorkerThread)
    (tq cq : Queue) : option (WorkerThread * Queue * Queue * list Event) :=
  match pc w with
  | W_start =>
      Some (goto W_outer
              (WorkerThread_log ("Starting " +:+ name w) EmptyString "info" w),
            tq, cq, [])
  | W_outer =>
      if redundant_flag w then
        Some (goto W_stopped
                (WorkerThread_log ("Stopping " +:+ name w) EmptyString "info"
                   (observe w)),
              tq, cq, [])
      else Some (goto W_set_idle w, tq, cq, [])
  | W_set_idle => Some (goto W_inner (set_idle true w), tq, cq, [])
  | W_inner =>
      if redundant_flag w then Some (goto W_sleep (observe w), tq, cq, [])
      else Some (goto W_inner_empty w, tq, cq, [])
  | W_inner_empty =>
      if empty tq then Some (goto W_sleep w, tq, cq, [])
      else Some (goto W_set_busy w, tq, cq, [])
  | W_set_busy => Some (goto W_get (set_idle false w), tq, cq, [])
  | W_get =>
      match get_nowait tq with
      | Raise _ => Some (goto W_inner w, tq, cq, [])          (* line 126 *)
      | Ok (t, tq') =>
          let w := set_current_task (CT_task t) w in
          let w := WorkerThread_log
                     (name w +:+ " picked up job - " +:+ source_abspath t)
                     EmptyString "info" w in
          Some (goto W_process w, tq', cq, [Ev_claim k (task_id t)])
      end
  | W_process =>
      match process_item eng w with
      | (w, Ok b) =>
          match current_task w with
          | CT_task t =>
              let w := set_current_task (CT_task (set_success b t)) w in
              let w := WorkerThread_log
                         (name w +:+ " finished job - " +:+ source_abspath t)
                         EmptyString "info" w in
              Some (goto W_put w, tq, cq, [Ev_success k (task_id t) b])
          | _ => None
          end
      | (w, Raise e) =>
          let evs :=
            match current_task w with
            | CT_task t => [Ev_raise k (task_id t)]
            | _ => []
            end in
          match e with
          | QueueEmpty =>                                     (* line 126 *)
              Some (goto W_inner w, tq, cq, evs)
          | BaseException _ =>          (* not caught: the thread ends *)
              Some (goto W_stopped w, tq, cq, evs)
          | _ =>                                              (* line 128 *)
              Some (goto W_inner
                      (WorkerThread_log
                         ("Exception in processing job with " +:+ name w +:+ ":")
                         (str_exn e) "exception" w),
                    tq, cq, evs)
          end
      end
  | W_put =>
      match current_task w with
      | CT_task t =>
          cq' ← put t cq;
          Some (goto W_reset w, tq, cq', [Ev_push k (task_id t)])
      | _ => None
      end
  | W_reset => Some (goto W_inner (set_current_task CT_dict w), tq, cq, [])
  | W_sleep => Some (goto W_outer w, tq, cq, [])
  | W_stopped => None
  end.

(** While [process_item] runs, the engine updates the progress of the task. *)
Definition progress_step (p : FFmpeg) (w : WorkerThread) : option WorkerThread :=
  match pc w, current_task w with
  | W_process, CT_task t => Some (set_current_task (CT_task (set_ffmpeg p t)) w)
  | _, _ => None
  end.

(** *** [Worker.run] *)

Inductive WorkerPC : Type :=
| S_start                 (* line 189 *)
| S_loop                  (* lines 190-191 *)
| S_init                  (* line 194 *)
| S_check_idle            (* lines 197-200 *)
| S_drain                 (* line 202: the test of the abort flag *)
| S_drain_empty           (* line 202: the test of the queue *)
| S_drain_get             (* lines 203-205 *)
| S_mark (task_item : Task)   (* line 206 *)
| S_dispatch              (* line 213: the test of the abort flag *)
| S_dispatch_empty        (* line 213: the test of the incoming items *)
| S_dispatch_init         (* lines 214-216 *)
| S_full                  (* lines 218-219 *)
| S_next                  (* lines 220-221 *)
| S_add (next_item_to_process : Task)   (* lines 222-223 *)
| S_leave                 (* line 227 *)
| S_done                  (* [run] has returned *)
| S_crashed (e : Exn).    (* [run] was left by an exception *)

(** [monitor_step idents raises self pc] runs the statement at [pc];
    [raises] is the exception [mark_item_as_processed] raises, if it does.
    When [initWorkerThreads] raises, [run] is left with the monitor object
    as the call has left it. *)
Definition monitor_step (idents : nat → nat) (raises : option Exn)
    (self : Worker) (pc : WorkerPC) : option (Worker * WorkerPC * list Event) :=
  match pc with
  | S_start =>
      Some (Worker_log "Starting Worker Monitor loop..." EmptyString "info" self,
            S_loop, [])
  | S_loop =>
      if abort_flag self then Some (self, S_leave, [])
      else Some (self, S_init, [])
  | S_init =>
      match initWorkerThreads idents self with
      | Ok self => Some (self, S_check_idle, [])
      | Raise e => Some (initWorkerThreads_left idents self, S_crashed e, [])
      end
  | S_check_idle =>
      if checkForIdleWorkers self then Some (self, S_drain, [])
      else Some (self, S_loop, [])
  | S_drain =>
      if abort_flag self then Some (self, S_dispatch, [])
      else Some (self, S_drain_empty, [])
  | S_drain_empty =>
      if empty (complete_queue self) then Some (self, S_dispatch, [])
      else Some (self, S_drain_get, [])
  | S_drain_get =>
      match get_nowait (complete_queue self) with
      | Raise _ => Some (self, S_drain, [])                   (* line 208 *)
      | Ok (task_item, cq') =>
          Some (set_complete_queue cq' self, S_mark task_item,
                [Ev_take (task_id task_item)])
      end
  | S_mark task_item =>
      let self :=
        set_job_queue (mark_item_as_processed task_item (job_queue self)) self in
      match raises with
      | None | Some QueueEmpty =>                             (* line 208 *)
          Some (self, S_drain, [Ev_mark (task_id task_item)])
      | Some (BaseException msg) =>             (* not caught: [run] ends *)
          Some (self, S_crashed (BaseException msg),
                [Ev_mark (task_id task_item)])
      | Some e =>                                             (* line 210 *)
          Some (Worker_log
                  "Exception when fetching completed task report from worker"
                  (str_exn e) "exception" self,
                S_drain, [Ev_mark (task_id task_item)])
      end
  | S_dispatch =>
      if abort_flag self then Some (self, S_loop, [])
      else Some (self, S_dispatch_empty, [])
  | S_dispatch_empty =>
      if incoming_is_empty (job_queue self) then Some (self, S_loop, [])
      else Some (self, S_dispatch_init, [])
  | S_dispatch_init =>
      match initWorkerThreads idents self with
      | Ok self => Some (self, S_full, [])
      | Raise e => Some (initWorkerThreads_left idents self, S_crashed e, [])
      end
  | S_full =>
      if full (task_queue self) then Some (self, S_loop, [])
      else Some (self, S_next, [])
  | S_next =>
      match get_next_incoming_item (job_queue self) with
      | (Some t, jq) => Some (set_job_queue jq self, S_add t, [Ev_pull (task_id t)])
      | (None, jq) => Some (set_job_queue jq self, S_dispatch, [])
      end
  | S_add t =>
      let self := Worker_log ("Processing item - " +:+ source_abspath t)
                    EmptyString "info" self in
      self ← add_to_task_queue t self;
      Some (self, S_dispatch, [Ev_handoff (task_id t)])
  | S_leave =>
      Some (Worker_log "Leaving Worker Monitor loop..." EmptyString "info" self,
            S_done, [])
  | S_done => None
  | S_crashed _ => None
  end.

(** *** The pool as one state machine *)

Record System : Type := {
  monitor : Worker;
  monitor_pc : WorkerPC;
  trace : list Event          (* newest event first *)
}.

Inductive Label : Type :=
| L_unit (k : nat) (eng : Engine)    (* unit [k] runs one statement *)
| L_progress (k : nat) (p : FFmpeg)  (* the engine reports progress to unit [k] *)
| L_monitor (raises : option Exn)    (* the monitor runs one statement *)
| L_set_number_of_workers (N : Z)    (* the configuration is changed *)
| L_abort                            (* [abort_flag.set()] *)
| L_incoming (t : Task).             (* the job queue gets a pending item *)

Definition step (idents : nat → nat) (l : Label) (s : System) : option System :=
  let self := monitor s in
  match l with
  | L_unit k eng =>
      w ← worker_threads self !! k;
      '(w', tq, cq, evs) ← unit_step eng k w (task_queue self) (complete_queue self);
      Some {| monitor :=
                set_worker_threads (<[k := w']> (worker_threads self))
                  (set_task_queue tq (set_complete_queue cq self));
              monitor_pc := monitor_pc s;
              trace := evs ++ trace s |}
  | L_progress k p =>
      w ← worker_threads self !! k;
      w' ← progress_step p w;
      Some {| monitor := set_worker_threads (<[k := w']> (worker_threads self)) self;
              monitor_pc := monitor_pc s;
              trace := trace s |}
  | L_monitor raises =>
      '(self', pc', evs) ← monitor_step idents raises self (monitor_pc s);
      Some {| monitor := self'; monitor_pc := pc'; trace := evs ++ trace s |}
  | L_set_number_of_workers N =>
      Some {| monitor :=
                set_settings {| NUMBER_OF_WORKERS := N;
                                history_log := history_log (settings self) |} self;
              monitor_pc := monitor_pc s;
              trace := trace s |}
  | L_abort =>
      Some {| monitor := set_abort_flag self; monitor_pc := monitor_pc s;
              trace := trace s |}
  | L_incoming t =>
      Some {| monitor := set_job_queue (add_incoming t (job_queue self)) self;
              monitor_pc := monitor_pc s;
              trace := trace s |}
  end.

Fixpoint exec (idents : nat → nat) (ls : list Label) (s : System)
    : option System :=
  match ls with
  | [] => Some s
  | l :: ls => s' ← step idents l s; exec idents ls s'
  end.

(** [Worker(data_queues, settings, job_queue)] followed by [start()]; the
    job queue has reported nothing yet. *)
Definition initial (settings : Settings) (pending : list Task)
    (history : list (gmap string string)) : System :=
  {| monitor := Worker_init settings
                  {| incoming := pending; processed := [];
                     job_history := history |};
     monitor_pc := S_start;
     trace := [] |}.

Definition reachable (idents : nat → nat) (s : System) : Prop :=
  ∃ settings pending history ls,
    exec idents ls (initial settings pending history) = Some s.

(** ** Counting tasks

    [sel] selects the task identities that are counted: one task
    ([only tid]) or all of them ([every]). *)

Definition only (tid : nat) : nat → bool := fun x => bool_decide (x = tid).
Definition every : nat → bool := fun _ => true.

Definition hit (sel : nat → bool) (tid : nat) : nat :=
  if sel tid then 1 else 0.

(** The selected tasks in a list of tasks. *)
Fixpoint in_list (sel : nat → bool) (l : list Task) : nat :=
  match l with
  | [] => 0
  | t :: l => hit sel (task_id t) + in_list sel l
  end.

(** The events of one kind, about the selected tasks, in a history. *)
Fixpoint tally (f : Event → nat) (tr : list Event) : nat :=
  match tr with
  | [] => 0
  | e :: tr => f e + tally f tr
  end.

Definition is_pull (sel : nat → bool) (e : Event) : nat :=
  match e with Ev_pull t => hit sel t | _ => 0 end.
Definition is_handoff (sel : nat → bool) (e : Event) : nat :=
  match e with Ev_handoff t => hit sel t | _ => 0 end.
Definition is_claim (sel : nat → bool) (e : Event) : nat :=
  match e with Ev_claim _ t => hit sel t | _ => 0 end.
Definition is_success (sel : nat → bool) (e : Event) : nat :=
  match e with Ev_success _ t _ => hit sel t | _ => 0 end.
Definition is_success_true (sel : nat → bool) (e : Event) : nat :=
  match e with Ev_success _ t true => hit sel t | _ => 0 end.
Definition is_push (sel : nat → bool) (e : Event) : nat :=
  match e with Ev_push _ t => hit sel t | _ => 0 end.
Definition is_raise (sel : nat → bool) (e : Event) : nat :=
  match e with Ev_raise _ t => hit sel t | _ => 0 end.
Definition is_take (sel : nat → bool) (e : Event) : nat :=
  match e with Ev_take t => hit sel t | _ => 0 end.
Definition is_mark (sel : nat → bool) (e : Event) : nat :=
  match e with Ev_mark t => hit sel t | _ => 0 end.

(** The events of unit [k]. *)
Definition is_claim_by (k : nat) (e : Event) : nat :=
  match e with Ev_claim k' _ => if bool_decide (k' = k) then 1 else 0 | _ => 0 end.
Definition is_finish_by (k tid : nat) (e : Event) : nat :=
  match e with
  | Ev_push k' t | Ev_raise k' t =>
      if bool_decide (k' = k ∧ t = tid) then 1 else 0
  | _ => 0
  end.

Definition pulled (s : System) (tid : nat) : nat := tally (is_pull (only tid)) (trace s).
Definition handed_off (s : System) (tid : nat) : nat := tally (is_handoff (only tid)) (trace s).
Definition claimed (s : System) (tid : nat) : nat := tally (is_claim (only tid)) (trace s).
Definition completed (s : System) (tid : nat) : nat := tally (is_success (only tid)) (trace s).
Definition succeeded (s : System) (tid : nat) : nat := tally (is_success_true (only tid)) (trace s).
Definition pushed (s : System) (tid : nat) : nat := tally (is_push (only tid)) (trace s).
Definition raised (s : System) (tid : nat) : nat := tally (is_raise (only tid)) (trace s).
Definition taken (s : System) (tid : nat) : nat := tally (is_take (only tid)) (trace s).
Definition marked (s : System) (tid : nat) : nat := tally (is_mark (only tid)) (trace s).

(** A unit that runs [process_item] on a selected task (lines 117-120). *)
Definition processing (sel : nat → bool) (w : WorkerThread) : nat :=
  match pc w, current_task w with
  | W_process, CT_task t => hit sel (task_id t)
  | _, _ => 0
  end.

(** A unit that is about to push a selected task (line 121). *)
Definition about_to_push (sel : nat → bool) (w : WorkerThread) : nat :=
  match pc w, current_task w with
  | W_put, CT_task t => hit sel (task_id t)
  | _, _ => 0
  end.

(** The sum of [f] over the registered units. *)
Definition units_sum (f : WorkerThread → nat) (m : gmap nat WorkerThread) : nat :=
  map_fold (fun _ w acc => f w + acc) 0 m.

(** The selected task the monitor holds between lines 220 and 223, and
    between lines 205 and 206. *)
Definition held_to_add (sel : nat → bool) (pc : WorkerPC) : nat :=
  match pc with S_add t => hit sel (task_id t) | _ => 0 end.
Definition held_to_mark (sel : nat → bool) (pc : WorkerPC) : nat :=
  match pc with S_mark t => hit sel (task_id t) | _ => 0 end.

(** Every selected task is in one place. *)
Record conservation (sel : nat → bool) (s : System) : Prop := {
  cons_pull :
    tally (is_pull sel) (trace s)
    = tally (is_handoff sel) (trace s) + held_to_add sel (monitor_pc s);
  cons_handoff :
    tally (is_handoff sel) (trace s)
    = in_list sel (items (task_queue (monitor s)))
      + tally (is_claim sel) (trace s);
  cons_claim :
    tally (is_claim sel) (trace s)
    = units_sum (processing sel) (worker_threads (monitor s))
      + tally (is_raise sel) (trace s)
      + tally (is_success sel) (trace s);
  cons_success :
    tally (is_success sel) (trace s)
    = units_sum (about_to_push sel) (worker_threads (monitor s))
      + tally (is_push sel) (trace s);
  cons_push :
    tally (is_push sel) (trace s)
    = in_list sel (items (complete_queue (monitor s)))
      + tally (is_take sel) (trace s);
  cons_take :
    tally (is_take sel) (trace s)
    = held_to_mark sel (monitor_pc s) + tally (is_mark sel) (trace s);
  cons_mark :
    tally (is_mark sel) (trace s)
    = in_list sel (processed (job_queue (monitor s)))
}.

(** What holds of every registered unit. *)
Record unit_ok (k : nat) (w : WorkerThread) : Prop := {
  ok_threadID : threadID w = k;
  ok_task :
    pc w = W_process ∨ pc w = W_put → ∃ t, current_task w = CT_task t;
  ok_observed :
    observed_redundant w = true →
    redundant_flag w = true
    ∧ (pc w = W_sleep ∨ pc w = W_outer ∨ pc w = W_stopped)
}.

Record well_formed (s : System) : Prop := {
  wf_task_queue_maxsize : maxsize (task_queue (monitor s)) = 1;
  wf_task_queue_length : length (items (task_queue (monitor s))) ≤ 1;
  wf_task_queue_free :
    (monitor_pc s = S_next ∨ ∃ t, monitor_pc s = S_add t) →
    items (task_queue (monitor s)) = [];
  wf_complete_queue_maxsize : maxsize (complete_queue (monitor s)) = 0;
  wf_units :
    ∀ k w, worker_threads (monitor s) !! k = Some w → unit_ok k w
}.

(** What [initWorkerThreads] may do to the monitor: drop a dead worker,
    start a worker at a free key, mark a worker redundant, record a key,
    write to the log. *)
Inductive pool_change : Worker → Worker → Prop :=
| pool_same self : pool_change self self
| pool_then s1 s2 s3 :
    pool_change s1 s2 → pool_change s2 s3 → pool_change s1 s3
| pool_log message message2 level self :
    pool_change self (Worker_log message message2 level self)
| pool_record l self :
    pool_change self (set_remove_list l self)
| pool_drop k w self :
    worker_threads self !! k = Some w → isAlive w = false →
    pool_change self (set_worker_threads (delete k (worker_threads self)) self)
| pool_start idents k self :
    worker_threads self !! k = None →
    pool_change self (startWorkerThread idents k self)
| pool_flag k w self :
    worker_threads self !! k = Some w →
    pool_change self
      (set_worker_threads
         (<[k := redundant_flag_set w]> (worker_threads self)) self).

(** ** Concrete runs of the pool *)

Definition example_ffmpeg : FFmpeg :=
  {| duration := "60"; src_fps := "25"; elapsed := "12"; time := "30";
     percent := "50"; frame := "750"; fps := "62"; speed := "2.5x";
     bitrate := "1200kbits/s"; file_size := "4096kB" |}.

Definition example_task (id : nat) (basename : string) : Task :=
  {| task_id := id;
     source_abspath := "/library/" +:+ basename;
     source_basename := basename;
     cache_path := "/tmp/unmanic";
     ffmpeg := example_ffmpeg;
     success := None |}.

Definition engine_converts : Engine :=
  {| ensureDir := Returns ();
     generate_ffmpeg_args := Returns ["-i"; "-c:v"; "libx265"];
     convert_file_and_fetch_progress := Returns true |}.

Definition engine_fails_to_convert : Engine :=
  {| ensureDir := Returns ();
     generate_ffmpeg_args := Returns ["-i"; "-c:v"; "libx265"];
     convert_file_and_fetch_progress :=
       Raises (Exception "ffmpeg exited with code 1") |}.

(** The conversion raises [queue.Empty]; the conversion raises an exception
    that is not of class [Exception]. *)
Definition engine_raises_queue_Empty : Engine :=
  {| ensureDir := Returns ();
     generate_ffmpeg_args := Returns ["-i"; "-c:v"; "libx265"];
     convert_file_and_fetch_progress := Raises QueueEmpty |}.

Definition engine_exits : Engine :=
  {| ensureDir := Returns ();
     generate_ffmpeg_args := Returns ["-i"; "-c:v"; "libx265"];
     convert_file_and_fetch_progress := Raises (BaseException "SystemExit") |}.

Definition monitor_steps (n : nat) : list Label := replicate n (L_monitor None).
Definition unit_steps (k n : nat) : list Label :=
  replicate n (L_unit k engine_converts).

(** The state a schedule leads to ([s] itself if the schedule cannot run). *)
Definition state_after (ls : list Label) (s : System) : System :=
  default s (exec example_idents ls s).

(** One worker, one pending task. The monitor starts the worker and hands
    the task over (12 statements); the worker claims it (7 statements). *)
Definition one_task_claimed : list Label :=
  monitor_steps 12 ++ unit_steps 0 7.

(** The conversion returns; the worker pushes the task and goes back to
    polling; the monitor comes round, takes the task and reports it. *)
Definition one_task_reported : list Label :=
  one_task_claimed ++ unit_steps 0 9 ++ monitor_steps 9.

(** The conversion returns; the worker pushes the task and goes back to
    polling; the monitor comes round to the test of line 197. *)
Definition one_task_pushed : list Label :=
  one_task_claimed ++ unit_steps 0 9 ++ monitor_steps 4.

(** The conversion raises; the worker goes back to polling and reports
    itself idle. *)
Definition one_task_raises : list Label :=
  one_task_claimed ++ [L_unit 0 engine_fails_to_convert] ++ unit_steps 0 5.

Definition one_pending_task : System :=
  initial (example_settings 1) [example_task 7 "a.mkv"] [].

(** The limit goes 2, 1, 3, 2; worker 1, marked redundant while the limit
    was 1, stops before the last change is seen. A round of the monitor
    without pending items and without finished tasks is 7 statements. *)
Definition limit_2_1_3_2 : list Label :=
  monitor_steps 8
  ++ [L_set_number_of_workers 1] ++ monitor_steps 7
  ++ [L_set_number_of_workers 3] ++ monitor_steps 7
  ++ unit_steps 1 2
  ++ [L_set_number_of_workers 2] ++ monitor_steps 7.

Definition nothing_pending : System := initial (example_settings 2) [] [].

(** ** Predicates used to state the properties of the units *)

(** [process_item] is left by an exception of the engine: creating the
    output directory, generating the parameters or converting raises. *)
Definition engine_raises (eng : Engine) (e : Exn) : Prop :=
  ensureDir eng = Raises e
  ∨ (ensureDir eng = Returns () ∧ generate_ffmpeg_args eng = Raises e)
  ∨ (ensureDir eng = Returns ()
     ∧ (∃ arg args, generate_ffmpeg_args eng = Returns (arg :: args))
     ∧ convert_file_and_fetch_progress eng = Raises e).

(** The tasks unit [k] has claimed so far; how often unit [k] has pushed
    task [tid] or has caught an exception while it owned it. *)
Definition claims_by (s : System) (k : nat) : nat :=
  tally (is_claim_by k) (trace s).
Definition finished_by (s : System) (k tid : nat) : nat :=
  tally (is_finish_by k tid) (trace s).

(** The unit owns task [tid] and has not pushed it yet (lines 117-121). *)
Definition busy_with (w : WorkerThread) (tid : nat) : Prop :=
  (pc w = W_process ∨ pc w = W_put)
  ∧ ∃ t, current_task w = CT_task t ∧ task_id t = tid.

(** Unit [k] has seen its redundant flag set and has claimed nothing since
    the state [s0]. *)
Definition retired_since (s0 : System) (k : nat) (s : System) : Prop :=
  claims_by s k = claims_by s0 k
  ∧ ∃ w, worker_threads (monitor s) !! k = Some w
         ∧ observed_redundant w = true.

(** Unit [k] still owns task [tid], as it did in the state [s0]. *)
Definition busy_since (s0 : System) (k tid : nat) (s : System) : Prop :=
  finished_by s k tid = finished_by s0 k tid
  ∧ ∃ w, worker_threads (monitor s) !! k = Some w ∧ busy_with w tid.

(** The events of the monitor, and the events of unit [k]. *)
Definition monitor_event (e : Event) : Prop :=
  match e with
  | Ev_pull _ | Ev_handoff _ | Ev_take _ | Ev_mark _ => True
  | _ => False
  end.
Definition unit_event (k : nat) (e : Event) : Prop :=
  match e with
  | Ev_claim k' _ | Ev_success k' _ _ | Ev_push k' _ | Ev_raise k' _ => k' = k
  | _ => False
  end.

(** The limit drops to 0 while worker 0 converts its task: the next call
    of [initWorkerThreads] marks the busy worker redundant. *)
Definition signalled_while_busy : list Label :=
  one_task_claimed ++ [L_set_number_of_workers 0] ++ monitor_steps 4.

(** ** Further predicates and inputs *)

(** The keys of the dictionary [getJobProgress] fills. *)
Definition progress_keys : gset string :=
  list_to_set ["duration"; "src_fps"; "elapsed"; "time"; "percent"; "frame";
               "fps"; "speed"; "bitrate"; "file_size"].

(** The worker [startWorkerThread] registers at key [k]. *)
Definition started_worker (idents : nat → nat) (k : nat) : WorkerThread :=
  start (idents k) (WorkerThread_init k ("Worker-" +:+ str k)).

(** Workers 0 and 1 started, and a configured limit of [N]. *)
Definition pool_with_limit (N : Z) : Worker :=
  set_settings (example_settings N) pool_of_two.

(** Workers 0, 1 and 2 started, a limit of 1, and the workers 1 and 2
    stopped. *)
Definition pool_with_stopped_workers : Worker :=
  let self :=
    startWorkerThread example_idents 2
      (startWorkerThread example_idents 1
         (startWorkerThread example_idents 0
            (Worker_init (example_settings 1) (example_job_queue [])))) in
  set_worker_threads
    (<[1 := goto W_stopped (started_worker example_idents 1)]>
       (<[2 := goto W_stopped (started_worker example_idents 2)]>
          (worker_threads self)))
    self.

(** The two lines [initWorkerThreads] writes to the log. *)
Definition spawning_record : LogRecord :=
  log_record "Worker Threads under the configured limit. Spawning more..."
    EmptyString "info".
Definition marking_record : LogRecord :=
  log_record
    "Worker Threads exceed the configured limit. Marking some for removal..."
    EmptyString "info".

(** ** The order of the tasks, and what holds of a unit *)

Definition pulled_id (e : Event) : option nat :=
  match e with Ev_pull t => Some t | _ => None end.
Definition claimed_id (e : Event) : option nat :=
  match e with Ev_claim _ t => Some t | _ => None end.
Definition pushed_id (e : Event) : option nat :=
  match e with Ev_push _ t => Some t | _ => None end.
Definition marked_id (e : Event) : option nat :=
  match e with Ev_mark t => Some t | _ => None end.

(** The tasks of the events of one kind in a history, oldest first. *)
Definition ids (f : Event → option nat) (tr : list Event) : list nat :=
  rev (omap f tr).

(** The task the monitor holds between lines 220 and 223, and between
    lines 205 and 206. *)
Definition held_add_ids (pc : WorkerPC) : list nat :=
  match pc with S_add t => [task_id t] | _ => [] end.
Definition held_mark_ids (pc : WorkerPC) : list nat :=
  match pc with S_mark t => [task_id t] | _ => [] end.

(** The success flag of [t] is set, to a value that line 117 assigned to a
    task of that identity. *)
Definition flag_assigned (tr : list Event) (t : Task) : Prop :=
  ∃ k b, success t = Some b ∧ Ev_success k (task_id t) b ∈ tr.

(** What holds of the unit registered at key [k], besides [unit_ok]. *)
Record unit_state (tr : list Event) (k : nat) (w : WorkerThread) : Prop := {
  us_name : name w = "Worker-" +:+ str k;
  us_busy :
    pc w = W_get ∨ pc w = W_process ∨ pc w = W_put ∨ pc w = W_reset →
    idle w = false;
  us_flag :
    pc w = W_put → ∃ t, current_task w = CT_task t ∧ flag_assigned tr t
}.

Record pool_state (s : System) : Prop := {
  ps_units :
    ∀ k w, worker_threads (monitor s) !! k = Some w →
      unit_state (trace s) k w;
  ps_complete_queue :
    Forall (flag_assigned (trace s)) (items (complete_queue (monitor s)));
  ps_held :
    ∀ t, monitor_pc s = S_mark t → flag_assigned (trace s) t;
  ps_processed :
    Forall (flag_assigned (trace s)) (processed (job_queue (monitor s)));
  ps_claim_order :
    ids pulled_id (trace s)
    = ids claimed_id (trace s)
        ++ (task_id <$> items (task_queue (monitor s)))
        ++ held_add_ids (monitor_pc s);
  ps_report_order :
    ids pushed_id (trace s)
    = ids marked_id (trace s)
        ++ held_mark_ids (monitor_pc s)
        ++ (task_id <$> items (complete_queue (monitor s)));
  ps_reported :
    task_id <$> processed (job_queue (monitor s)) = ids marked_id (trace s)
}.

(** ** Counting statements *)

(** The statements of the monitor, and of the unit registered at key [k],
    in a schedule. *)
Fixpoint monitor_statements (ls : list Label) : nat :=
  match ls with
  | [] => 0
  | L_monitor _ :: ls => S (monitor_statements ls)
  | _ :: ls => monitor_statements ls
  end.

Fixpoint unit_statements (k : nat) (ls : list Label) : nat :=
  match ls with
  | [] => 0
  | L_unit k' _ :: ls =>
      (if bool_decide (k' = k) then 1 else 0) + unit_statements k ls
  | _ :: ls => unit_statements k ls
  end.

(** With [abort_flag] set: the statements [Worker.run] can still run from
    [pc], the calls of [mark_item_as_processed] it can still make, and the
    items it can still pull. *)
Definition statements_left (pc : WorkerPC) : nat :=
  match pc with
  | S_done | S_crashed _ => 0
  | S_leave => 1
  | S_loop => 2
  | S_start | S_dispatch => 3
  | S_add _ | S_drain => 4
  | S_mark _ | S_next | S_check_idle => 5
  | S_init | S_full | S_drain_get => 6
  | S_drain_empty | S_dispatch_init => 7
  | S_dispatch_empty => 8
  end.

Definition reports_left (pc : WorkerPC) : nat :=
  match pc with
  | S_mark _ | S_drain_get | S_drain_empty => 1
  | _ => 0
  end.

Definition pulls_left (pc : WorkerPC) : nat :=
  match pc with
  | S_next | S_full | S_dispatch_init | S_dispatch_empty => 1
  | _ => 0
  end.

(** With [redundant_flag] set: the statements [WorkerThread.run] can still
    run from [pc], and the tasks it can still claim. *)
Definition unit_statements_left (pc : WorkerThreadPC) : nat :=
  match pc with
  | W_stopped => 0
  | W_outer => 1
  | W_sleep | W_start => 2
  | W_inner => 3
  | W_set_idle | W_reset => 4
  | W_put => 5
  | W_process => 6
  | W_get => 7
  | W_set_busy => 8
  | W_inner_empty => 9
  end.

Definition claims_left (pc : WorkerThreadPC) : nat :=
  match pc with
  | W_get | W_set_busy | W_inner_empty => 1
  | _ => 0
  end.

(** The monitor has set [abort_flag]; since the state [s0] it has run [n]
    statements. *)
Definition aborted_since (s0 : System) (n : nat) (s : System) : Prop :=
  abort_flag (monitor s) = true
  ∧ n + statements_left (monitor_pc s) ≤ statements_left (monitor_pc s0)
  ∧ tally (is_mark every) (trace s) + reports_left (monitor_pc s)
    ≤ tally (is_mark every) (trace s0) + reports_left (monitor_pc s0)
  ∧ tally (is_pull every) (trace s) + pulls_left (monitor_pc s)
    ≤ tally (is_pull every) (trace s0) + pulls_left (monitor_pc s0).

(** The unit registered at key [k] has its redundant flag set; since the
    state [s0] it has run [n] statements. *)
Definition flagged_since (s0 : System) (k n : nat) (s : System) : Prop :=
  ∃ w0 w,
    worker_threads (monitor s0) !! k = Some w0
    ∧ worker_threads (monitor s) !! k = Some w
    ∧ redundant_flag w = true
    ∧ n + unit_statements_left (pc w) ≤ unit_statements_left (pc w0)
    ∧ claims_by s k + claims_left (pc w)
      ≤ claims_by s0 k + claims_left (pc w0).

(** The abort flag is set while worker 0 converts the only task. *)
Definition aborted_after_claim : list Label := one_task_claimed ++ [L_abort].

(** The schedule never configures a positive number of workers. *)
Definition never_configured (ls : list Label) : Prop :=
  ∀ N, L_set_number_of_workers N ∈ ls → (N ≤ 0)%Z.

(** No worker is configured, and none was ever started. *)
Record no_workers (pending : list Task) (s : System) : Prop := {
  nw_limit : (NUMBER_OF_WORKERS (settings (monitor s)) ≤ 0)%Z;
  nw_registry : worker_threads (monitor s) = ∅;
  nw_trace : trace s = [];
  nw_pc :
    monitor_pc s = S_start ∨ monitor_pc s = S_loop ∨ monitor_pc s = S_init
    ∨ monitor_pc s = S_check_idle ∨ monitor_pc s = S_leave
    ∨ monitor_pc s = S_done;
  nw_incoming : pending `prefix_of` incoming (job_queue (monitor s));
  nw_processed : processed (job_queue (monitor s)) = [];
  nw_task_queue : items (task_queue (monitor s)) = []
}.

(** No worker is configured, one item is pending. *)
Definition no_worker_configured : System :=
  initial (example_settings 0) [example_task 7 "a.mkv"] [].

(** Two workers, one pending task: the monitor hands the task over, and
    both workers see the hand-off queue not empty (line 109) before either
    of them takes the task (line 112). *)
Definition two_units_see_one_task : list Label :=
  monitor_steps 12 ++ unit_steps 0 6 ++ unit_steps 1 6.

Definition one_task_two_workers : System :=
  initial (example_settings 2) [example_task 7 "a.mkv"] [].

(** Workers 0, 1 and 2 started, a limit of 1, and worker 1 stopped. *)
Definition pool_with_a_dead_worker : Worker :=
  let self :=
    startWorkerThread example_idents 2
      (startWorkerThread example_idents 1
         (startWorkerThread example_idents 0
            (Worker_init (example_settings 1) (example_job_queue [])))) in
  set_worker_threads
    (<[1 := goto W_stopped (started_worker example_idents 1)]>
       (worker_threads self))
    self.

(** ** Readings of two sentences of the specification *)


(** The abort flag is set after worker 0 has pushed the only task, before
    the monitor has come round to the completion queue; three statements
    later [Worker.run] has returned. *)
Definition aborted_before_report : list Label :=
  one_task_claimed ++ unit_steps 0 2 ++ [L_abort] ++ monitor_steps 3.

(** "For every task whose parameter generation or conversion raises an
    exception, the exception is caught at single-task granularity and
    logged, the execution unit's loop is not terminated". *)
Definition every_engine_exception_is_logged (idents : nat → nat) : Prop :=
  ∀ s k w t eng e,
    reachable idents s →
    worker_threads (monitor s) !! k = Some w →
    pc w = W_process →
    current_task w = CT_task t →
    engine_raises eng e →
    ∃ s' w',
      step idents (L_unit k eng) s = Some s'
      ∧ worker_threads (monitor s') !! k = Some w'
      ∧ isAlive w' = true
      ∧ last (logger w')
        = Some (log_record
                  ("Exception in processing job with " +:+ name w +:+ ":")
                  (str_exn e) "exception").

(** * Part II: lemmas and theorems *)

(** ** Properties of [initWorkerThreads] *)

Lemma dense_keys_lookup (m : gmap nat WorkerThread) :
  dense_keys m ↔ ∀ i, i < size m → is_Some (m !! i).
Proof.
  unfold dense_keys. split.
  - intros Hd i Hi. apply elem_of_dom. rewrite Hd. apply elem_of_set_seq. lia.
  - intros Hall. symmetry. apply leibniz_equiv.
    apply set_subseteq_size_equiv.
    + intros i [_ Hi]%elem_of_set_seq. apply elem_of_dom, Hall. lia.
    + rewrite size_set_seq, size_dom. done.
Qed.

Lemma dense_keys_lookup_iff (m : gmap nat WorkerThread) i :
  dense_keys m → (is_Some (m !! i) ↔ i < size m).
Proof.
  intros Hd. rewrite <- elem_of_dom, Hd, elem_of_set_seq. lia.
Qed.

Lemma for_range_cons body i l self :
  for_range body (i :: l) self =
    match body i self with
    | Ok self' => for_range body l self'
    | Raise e => Raise e
    end.
Proof. reflexivity. Qed.

Lemma remove_dead_body_Some thread self w :
  worker_threads self !! thread = Some w →
  remove_dead_body thread self =
    Ok (if isAlive w then self
        else set_worker_threads (delete thread (worker_threads self)) self).
Proof. intros H. unfold remove_dead_body. rewrite H. by destruct (isAlive w). Qed.

Lemma remove_dead_body_None thread self :
  worker_threads self !! thread = None →
  remove_dead_body thread self = Raise (KeyError thread).
Proof. intros H. unfold remove_dead_body. by rewrite H. Qed.

Lemma mark_redundant_body_Some thread self w :
  worker_threads self !! thread = Some w →
  mark_redundant_body thread self =
    Ok (if (NUMBER_OF_WORKERS (settings self) <=? Z.of_nat (threadID w))%Z
        then set_remove_list (remove_list self ++ [thread])
               (set_worker_threads
                  (<[thread := redundant_flag_set w]> (worker_threads self)) self)
        else self).
Proof.
  intros H. unfold mark_redundant_body. rewrite H.
  by destruct (NUMBER_OF_WORKERS (settings self) <=? Z.of_nat (threadID w))%Z.
Qed.

Lemma mark_redundant_body_None thread self :
  worker_threads self !! thread = None →
  mark_redundant_body thread self = Raise (KeyError thread).
Proof. intros H. unfold mark_redundant_body. by rewrite H. Qed.

Lemma remove_dead_loop_ok n : ∀ a self,
  (∀ i, a ≤ i < a + n → is_Some (worker_threads self !! i)) →
  ∃ m', for_range remove_dead_body (seq a n) self
          = Ok (set_worker_threads m' self)
        ∧ ∀ i, m' !! i = after_remove_dead a n (worker_threads self) i.
Proof.
  induction n as [|n IH]; intros a self Hall; simpl seq.
  - exists (worker_threads self). split; [by destruct self|].
    intros i. unfold after_remove_dead.
    destruct (worker_threads self !! i); simpl; [|done].
    rewrite bool_decide_eq_false_2 by lia. done.
  - rewrite for_range_cons.
    destruct (Hall a ltac:(lia)) as [w Hw].
    rewrite (remove_dead_body_Some _ _ _ Hw).
    destruct (isAlive w) eqn:Hal.
    + destruct (IH (S a) self) as (m' & Hrun & Hm').
      { intros i Hi. apply Hall. lia. }
      exists m'. split; [done|]. intros i. rewrite Hm'.
      unfold after_remove_dead. destruct (worker_threads self !! i) as [w'|] eqn:Hi;
        simpl; [|done].
      destruct (decide (i = a)) as [->|Hne].
      * assert (w' = w) as -> by congruence. rewrite Hal. simpl.
        by rewrite !andb_false_r.
      * destruct (isAlive w'); simpl; [by rewrite !andb_false_r|].
        rewrite !andb_true_r. repeat case_bool_decide; try done; lia.
    + destruct (IH (S a) (set_worker_threads (delete a (worker_threads self)) self))
        as (m' & Hrun & Hm').
      { intros i Hi. simpl. rewrite lookup_delete_ne by lia. apply Hall. lia. }
      exists m'. split; [by rewrite Hrun|]. intros i. rewrite Hm'. simpl.
      unfold after_remove_dead.
      destruct (decide (i = a)) as [->|Hne].
      * rewrite lookup_delete_eq, Hw. simpl. rewrite Hal. simpl.
        rewrite bool_decide_eq_true_2 by lia. done.
      * rewrite lookup_delete_ne by done.
        destruct (worker_threads self !! i) as [w'|]; simpl; [|done].
        destruct (isAlive w'); simpl; [by rewrite !andb_false_r|].
        rewrite !andb_true_r. repeat case_bool_decide; try done; lia.
Qed.

Lemma remove_dead_loop_raise n : ∀ a self,
  ¬ (∀ i, a ≤ i < a + n → is_Some (worker_threads self !! i)) →
  ∃ k, for_range remove_dead_body (seq a n) self = Raise (KeyError k)
       ∧ a ≤ k < a + n ∧ worker_threads self !! k = None.
Proof.
  induction n as [|n IH]; intros a self Hnot; simpl seq.
  - exfalso. apply Hnot. intros i Hi. lia.
  - rewrite for_range_cons.
    destruct (worker_threads self !! a) as [w|] eqn:Hw.
    2: { rewrite (remove_dead_body_None _ _ Hw).
         exists a. repeat split; [lia|lia|done]. }
    rewrite (remove_dead_body_Some _ _ _ Hw).
    destruct (isAlive w).
    + destruct (IH (S a) self) as (k & Hrun & Hk & Hnone).
      { intros Hall. apply Hnot. intros i Hi.
        destruct (decide (i = a)) as [->|]; [by rewrite Hw|]. apply Hall. lia. }
      exists k. repeat split; [done|lia|lia|done].
    + destruct (IH (S a) (set_worker_threads (delete a (worker_threads self)) self))
        as (k & Hrun & Hk & Hnone).
      { intros Hall. apply Hnot. intros i Hi.
        destruct (decide (i = a)) as [->|]; [by rewrite Hw|].
        specialize (Hall i ltac:(lia)). simpl in Hall.
        by rewrite lookup_delete_ne in Hall by done. }
      exists k. simpl in Hnone. rewrite lookup_delete_ne in Hnone by lia.
      repeat split; [done|lia|lia|done].
Qed.

Lemma marked_keys_cons N m i l :
  marked_keys N m (i :: l) =
    match m !! i with
    | Some w => if (N <=? Z.of_nat (threadID w))%Z
                then i :: marked_keys N m l else marked_keys N m l
    | None => marked_keys N m l
    end.
Proof.
  unfold marked_keys. rewrite filter_cons.
  case_decide as Hm; unfold is_marked in Hm; destruct (m !! i) as [w|];
    try done; by destruct (N <=? Z.of_nat (threadID w))%Z.
Qed.

Lemma marked_keys_ext N m m' l :
  (∀ i, i ∈ l → threadID <$> m !! i = threadID <$> m' !! i) →
  marked_keys N m l = marked_keys N m' l.
Proof.
  induction l as [|i l IH]; intros Heq; [done|].
  rewrite !marked_keys_cons.
  pose proof (Heq i ltac:(left)) as Hi.
  rewrite IH by (intros j Hj; apply Heq; by right).
  destruct (m !! i), (m' !! i); simpl in Hi; simplify_eq; try done.
  by rewrite Hi.
Qed.

Lemma mark_redundant_loop_ok n : ∀ a self,
  (∀ i, a ≤ i < a + n → is_Some (worker_threads self !! i)) →
  let N := NUMBER_OF_WORKERS (settings self) in
  ∃ m', for_range mark_redundant_body (seq a n) self
          = Ok (set_remove_list
                  (remove_list self
                     ++ marked_keys N (worker_threads self) (seq a n))
                  (set_worker_threads m' self))
        ∧ ∀ i, m' !! i = after_mark_redundant N a n (worker_threads self) i.
Proof.
  induction n as [|n IH]; intros a self Hall N; simpl seq.
  - exists (worker_threads self). split.
    + unfold marked_keys. simpl. rewrite app_nil_r. by destruct self.
    + intros i. unfold after_mark_redundant.
      destruct (worker_threads self !! i); simpl; [|done].
      rewrite bool_decide_eq_false_2 by lia. done.
  - rewrite for_range_cons, marked_keys_cons.
    destruct (Hall a ltac:(lia)) as [w Hw].
    rewrite (mark_redundant_body_Some _ _ _ Hw), Hw. fold N.
    destruct (N <=? Z.of_nat (threadID w))%Z eqn:Hge.
    + match goal with |- context [for_range _ _ ?s] => set (self1 := s) end.
      destruct (IH (S a) self1) as (m' & Hrun & Hm').
      { intros i Hi. subst self1. simpl.
        destruct (decide (i = a)) as [->|];
          [by rewrite lookup_insert_eq|rewrite lookup_insert_ne by done].
        apply Hall. lia. }
      exists m'. split.
      * rewrite Hrun. subst self1. unfold set_remove_list, set_worker_threads.
        simpl. fold N. rewrite <- app_assoc. simpl. do 4 f_equal.
        apply marked_keys_ext. intros i Hi%elem_of_seq.
        rewrite lookup_insert_ne by lia. done.
      * intros i. rewrite Hm'. subst self1. simpl. fold N.
        unfold after_mark_redundant.
        destruct (decide (i = a)) as [->|Hne].
        -- rewrite lookup_insert_eq, Hw. simpl. rewrite Hge.
           repeat case_bool_decide; try done; lia.
        -- rewrite lookup_insert_ne by done.
           destruct (worker_threads self !! i) as [w'|]; simpl; [|done].
           destruct (N <=? Z.of_nat (threadID w'))%Z;
             [|by rewrite !andb_false_r].
           rewrite !andb_true_r.
           repeat case_bool_decide; try done; lia.
    + destruct (IH (S a) self) as (m' & Hrun & Hm').
      { intros i Hi. apply Hall. lia. }
      exists m'. split; [done|]. intros i. rewrite Hm'. fold N.
      unfold after_mark_redundant.
      destruct (worker_threads self !! i) as [w'|] eqn:Hi; simpl; [|done].
      destruct (decide (i = a)) as [->|Hne].
      * assert (w' = w) as -> by congruence. by rewrite Hge, !andb_false_r.
      * destruct (N <=? Z.of_nat (threadID w'))%Z;
          [|by rewrite !andb_false_r].
        rewrite !andb_true_r.
        repeat case_bool_decide; try done; lia.
Qed.

Lemma mark_redundant_loop_raise n : ∀ a self,
  ¬ (∀ i, a ≤ i < a + n → is_Some (worker_threads self !! i)) →
  ∃ k, for_range mark_redundant_body (seq a n) self = Raise (KeyError k)
       ∧ a ≤ k < a + n ∧ worker_threads self !! k = None.
Proof.
  induction n as [|n IH]; intros a self Hnot; simpl seq.
  - exfalso. apply Hnot. intros i Hi. lia.
  - rewrite for_range_cons.
    destruct (worker_threads self !! a) as [w|] eqn:Hw.
    2: { rewrite (mark_redundant_body_None _ _ Hw).
         exists a. repeat split; [lia|lia|done]. }
    rewrite (mark_redundant_body_Some _ _ _ Hw).
    destruct (NUMBER_OF_WORKERS (settings self) <=? Z.of_nat (threadID w))%Z.
    + match goal with |- context [for_range _ _ ?s] => set (self1 := s) end.
      destruct (IH (S a) self1) as (k & Hrun & Hk & Hnone).
      { intros Hall. apply Hnot. intros i Hi.
        destruct (decide (i = a)) as [->|]; [by rewrite Hw|].
        specialize (Hall i ltac:(lia)). subst self1. simpl in Hall.
        by rewrite lookup_insert_ne in Hall by done. }
      exists k. subst self1. simpl in Hnone.
      rewrite lookup_insert_ne in Hnone by lia.
      repeat split; [done|lia|lia|done].
    + destruct (IH (S a) self) as (k & Hrun & Hk & Hnone).
      { intros Hall. apply Hnot. intros i Hi.
        destruct (decide (i = a)) as [->|]; [by rewrite Hw|]. apply Hall. lia. }
      exists k. repeat split; [done|lia|lia|done].
Qed.


Lemma remove_dead_workers_dense self :
  dense_keys (worker_threads self) →
  remove_dead_workers self
    = Ok (set_worker_threads (live_workers (worker_threads self)) self).
Proof.
  intros Hd. unfold remove_dead_workers.
  destruct (remove_dead_loop_ok (size (worker_threads self)) 0 self)
    as (m' & -> & Hm').
  { intros i Hi. apply dense_keys_lookup; [done|lia]. }
  do 2 f_equal. apply map_eq. intros i. rewrite Hm'.
  unfold after_remove_dead, live_workers. rewrite map_lookup_filter.
  destruct (worker_threads self !! i) as [w|] eqn:Hi; simpl; [|done].
  assert (i < size (worker_threads self)) by (by apply dense_keys_lookup_iff).
  rewrite bool_decide_eq_true_2 by lia. simpl.
  destruct (isAlive w); simpl; by repeat case_guard.
Qed.

Lemma remove_dead_workers_not_dense self :
  ¬ dense_keys (worker_threads self) →
  ∃ k, remove_dead_workers self = Raise (KeyError k)
       ∧ k < size (worker_threads self) ∧ worker_threads self !! k = None.
Proof.
  intros Hd. unfold remove_dead_workers.
  destruct (remove_dead_loop_raise (size (worker_threads self)) 0 self)
    as (k & Hk & ? & ?).
  { intros Hall. apply Hd, dense_keys_lookup. intros i Hi. apply Hall. lia. }
  exists k. repeat split; [done|lia|done].
Qed.

Lemma mark_redundant_workers_dense self :
  let N := NUMBER_OF_WORKERS (settings self) in
  let m := worker_threads self in
  (N < Z.of_nat (size m))%Z →
  dense_keys m →
  ∃ m', mark_redundant_workers self
          = Ok (set_remove_list
                  (remove_list self ++ marked_keys N m (seq 0 (size m)))
                  (set_worker_threads m'
                     (Worker_log
                        "Worker Threads exceed the configured limit. Marking some for removal..."
                        EmptyString "info" self)))
        ∧ ∀ i, m' !! i = after_mark_redundant N 0 (size m) m i.
Proof.
  intros N m Hlt Hd. unfold mark_redundant_workers. fold N m.
  rewrite (proj2 (Z.ltb_lt _ _) Hlt).
  match goal with |- context [for_range _ _ ?s] => set (self1 := s) end.
  destruct (mark_redundant_loop_ok (size m) 0 self1) as (m' & Hrun & Hm').
  { intros i Hi. apply (proj1 (dense_keys_lookup m) Hd). lia. }
  exists m'. split; [|done]. exact Hrun.
Qed.

Lemma mark_redundant_workers_not_dense self :
  (NUMBER_OF_WORKERS (settings self) < Z.of_nat (size (worker_threads self)))%Z →
  ¬ dense_keys (worker_threads self) →
  ∃ k, mark_redundant_workers self = Raise (KeyError k)
       ∧ k < size (worker_threads self) ∧ worker_threads self !! k = None.
Proof.
  intros Hlt Hd. unfold mark_redundant_workers.
  rewrite (proj2 (Z.ltb_lt _ _) Hlt).
  match goal with |- context [for_range _ _ ?s] => set (self1 := s) end.
  destruct (mark_redundant_loop_raise (size (worker_threads self)) 0 self1)
    as (k & Hk & ? & ?).
  { intros Hall. apply Hd, dense_keys_lookup. intros i Hi. apply Hall. lia. }
  exists k. repeat split; [done|lia|done].
Qed.

Lemma mark_redundant_workers_no_excess self :
  ¬ (NUMBER_OF_WORKERS (settings self) < Z.of_nat (size (worker_threads self)))%Z →
  mark_redundant_workers self = Ok self.
Proof.
  intros Hlt. unfold mark_redundant_workers.
  by rewrite (proj2 (Z.ltb_nlt _ _) Hlt).
Qed.

Lemma initWorkerThreads_raise_KeyError idents self e :
  initWorkerThreads idents self = Raise e → ∃ k, e = KeyError k.
Proof.
  unfold initWorkerThreads.
  destruct (decide (dense_keys (worker_threads self))) as [Hd|Hd].
  - rewrite (remove_dead_workers_dense _ Hd). simpl.
    match goal with |- mark_redundant_workers ?s = _ → _ => set (self2 := s) end.
    destruct (decide (NUMBER_OF_WORKERS (settings self2)
                      < Z.of_nat (size (worker_threads self2)))%Z) as [Hlt|Hlt].
    + destruct (decide (dense_keys (worker_threads self2))) as [Hd2|Hd2].
      * destruct (mark_redundant_workers_dense self2 Hlt Hd2) as (m' & -> & _).
        done.
      * destruct (mark_redundant_workers_not_dense self2 Hlt Hd2) as (k & -> & _).
        intros [= <-]. by exists k.
    + by rewrite (mark_redundant_workers_no_excess _ Hlt).
  - destruct (remove_dead_workers_not_dense _ Hd) as (k & -> & _).
    simpl. intros [= <-]. by exists k.
Qed.

(** C10. [initWorkerThreads] indexes the registry by [range(len(registry))]
    in the loop that drops dead workers and in the loop that marks workers
    redundant. The call returns normally exactly when the key set of the
    registry is [{0, ..., len - 1}] at the entry of the first loop and, if
    the second loop runs, at its entry too; any other call ends in a
    [KeyError]. *)
Theorem initWorkerThreads_total_iff_dense_keys idents self :
  ((∃ self', initWorkerThreads idents self = Ok self') ↔
   dense_keys (worker_threads self) ∧
   ∀ self1, remove_dead_workers self = Ok self1 →
     let self2 := spawn_missing_workers idents self1 in
     (NUMBER_OF_WORKERS (settings self2)
        < Z.of_nat (size (worker_threads self2)))%Z →
     dense_keys (worker_threads self2))
  ∧ (∀ e, initWorkerThreads idents self = Raise e → ∃ k, e = KeyError k).
Proof.
  split; [|apply initWorkerThreads_raise_KeyError].
  unfold initWorkerThreads. split.
  - intros [self' Hrun].
    destruct (decide (dense_keys (worker_threads self))) as [Hd|Hd].
    2: { destruct (remove_dead_workers_not_dense _ Hd) as (k & Hk & _).
         by rewrite Hk in Hrun. }
    split; [done|]. intros self1 H1. simpl. intros Hlt.
    set (self2 := spawn_missing_workers idents self1) in *.
    rewrite H1 in Hrun. simpl in Hrun. fold self2 in Hrun.
    destruct (decide (dense_keys (worker_threads self2))) as [Hd2|Hd2]; [done|].
    destruct (mark_redundant_workers_not_dense self2 Hlt Hd2) as (k & Hk & _).
    by rewrite Hk in Hrun.
  - intros [Hd Hd2]. rewrite (remove_dead_workers_dense _ Hd) in *. simpl.
    specialize (Hd2 _ eq_refl). simpl in Hd2.
    match goal with |- ∃ _, mark_redundant_workers ?s = _ => set (self2 := s) in * end.
    destruct (decide (NUMBER_OF_WORKERS (settings self2)
                      < Z.of_nat (size (worker_threads self2)))%Z) as [Hlt|Hlt].
    + destruct (mark_redundant_workers_dense self2 Hlt (Hd2 Hlt)) as (m' & -> & _).
      eauto.
    + rewrite (mark_redundant_workers_no_excess _ Hlt). eauto.
Qed.

Lemma initWorkerThreads_total_witness :
  ∃ self', initWorkerThreads example_idents pool_of_two = Ok self'.
Proof.
  apply (proj2 (proj1
    (initWorkerThreads_total_iff_dense_keys example_idents pool_of_two))).
  split.
  - vm_compute. reflexivity.
  - intros self1 H1. vm_compute in H1. injection H1 as <-.
    intros self2 _. vm_compute. reflexivity.
Defined.





(** The other case at an input: workers 0, 1 and 2 are registered, worker
    1 has stopped, and the limit is 1. The keys are dense and two live
    workers exceed the limit, but their keys, 0 and 2, are not dense: the
    call raises [KeyError] for key 1. *)
Lemma initWorkerThreads_gap_raises :
  dense_keys (worker_threads pool_with_a_dead_worker)
  ∧ size (live_workers (worker_threads pool_with_a_dead_worker)) = 2
  ∧ ¬ dense_keys (live_workers (worker_threads pool_with_a_dead_worker))
  ∧ initWorkerThreads example_idents pool_with_a_dead_worker
    = Raise (KeyError 1).
Proof.
  split_and!; try (vm_compute; reflexivity).
  intros Hd. vm_compute in Hd. discriminate.
Qed.


(** C9 (as the code has it). [getAllHistoricalTasks] returns exactly what
    the [read_history_log()] of the settings object returns, unchanged; it
    depends on nothing else of the monitor, and in particular not on the
    job queue. *)
Theorem getAllHistoricalTasks_reads_settings self :
  getAllHistoricalTasks self = read_history_log (settings self)
  ∧ ∀ jq q1 q2 m l, getAllHistoricalTasks
        (set_job_queue jq (set_task_queue q1 (set_complete_queue q2
           (set_worker_threads m (set_remove_list l self)))))
      = getAllHistoricalTasks self.
Proof. split; reflexivity. Qed.

(** C9, as stated, fails: the history returned is not the job queue's. *)
Lemma getAllHistoricalTasks_is_not_the_job_queue_log :
  getAllHistoricalTasks worker_with_history
    ≠ job_queue_read_history_log (job_queue worker_with_history).
Proof. vm_compute. discriminate. Qed.

(** ** The registry on the intended path

    From a registry with dense keys, [initWorkerThreads] does reach the
    configured limit: it starts the missing workers, and it drops the
    workers above the limit once they have all stopped. *)

Lemma spawn_loop_registry idents l : ∀ self,
  let self' := foldl (spawn_body idents) self l in
  dom (worker_threads self') = dom (worker_threads self) ∪ list_to_set l
  ∧ (∀ k w, worker_threads self !! k = Some w →
       worker_threads self' !! k = Some w)
  ∧ settings self' = settings self ∧ remove_list self' = remove_list self.
Proof.
  induction l as [|i l IH]; intros self; simpl.
  - split_and!; [|done..]. by rewrite (right_id_L ∅ (∪)).
  - destruct (IH (spawn_body idents self i)) as (Hdom & Hkeep & Hset & Hrem).
    rewrite Hdom, Hset, Hrem. unfold spawn_body in *.
    destruct (worker_threads self !! i) as [w0|] eqn:Hi.
    + split_and!; [|done..].
      apply elem_of_dom_2 in Hi. apply set_eq. intros x.
      rewrite !elem_of_union, elem_of_singleton.
      split; [tauto|]. intros [?|[->|?]]; auto.
    + simpl in *. split_and!; [|intros k w Hk|done..].
      * rewrite dom_insert_L. apply set_eq. intros x.
        rewrite !elem_of_union, elem_of_singleton. tauto.
      * apply Hkeep. rewrite lookup_insert_ne; [done|].
        intros ->. congruence.
Qed.

Lemma live_workers_all_alive (m : gmap nat WorkerThread) :
  (∀ k w, m !! k = Some w → isAlive w = true) → live_workers m = m.
Proof.
  intros Hal. unfold live_workers. apply map_filter_id.
  intros k w Hk. simpl. eauto.
Qed.

(** X3. From a registry with dense keys whose workers are all alive and
    no more than the configured limit [N], [initWorkerThreads] returns
    with exactly the keys [0 .. N-1] registered; the workers that were
    registered are kept as they are, and nothing is recorded for removal. *)
Lemma initWorkerThreads_starts_missing_workers idents self :
  let N := NUMBER_OF_WORKERS (settings self) in
  let m := worker_threads self in
  dense_keys m →
  (∀ k w, m !! k = Some w → isAlive w = true) →
  (Z.of_nat (size m) ≤ N)%Z →
  ∃ self', initWorkerThreads idents self = Ok self'
    ∧ dom (worker_threads self') = set_seq 0 (Z.to_nat N)
    ∧ (∀ k w, m !! k = Some w → worker_threads self' !! k = Some w)
    ∧ remove_list self' = remove_list self.
Proof.
  intros N m Hd Hal Hle. unfold initWorkerThreads.
  rewrite (remove_dead_workers_dense _ Hd). simpl. fold m.
  rewrite (live_workers_all_alive m Hal).
  unfold spawn_missing_workers. simpl. fold N m.
  destruct (Z.of_nat (size m) <? N)%Z eqn:Hlt.
  - match goal with |- context [foldl ?f ?s ?l] =>
      destruct (spawn_loop_registry idents l s) as (Hdom & Hkeep & Hset & Hrem);
      set (self2 := foldl f s l) in *
    end.
    simpl in Hdom, Hkeep, Hset, Hrem. fold m in Hdom, Hkeep.
    assert (dom (worker_threads self2) = set_seq 0 (Z.to_nat N)) as Hdom2.
    { rewrite Hdom, Hd. apply set_eq. intros i.
      rewrite elem_of_union, elem_of_list_to_set, elem_of_seq, !elem_of_set_seq.
      lia. }
    rewrite mark_redundant_workers_no_excess.
    + eauto.
    + rewrite Hset. fold N. rewrite <- size_dom, Hdom2, size_set_seq. lia.
  - rewrite mark_redundant_workers_no_excess.
    + eexists. split; [done|]. simpl. split_and!; try done.
      fold m. rewrite Hd. f_equal. apply Z.ltb_ge in Hlt. lia.
    + simpl. fold N m. apply Z.ltb_ge in Hlt. lia.
Qed.

(** X4. From a registry with dense keys in which exactly the workers with
    a key of at least the limit [N] have stopped, [initWorkerThreads]
    drops those and returns with exactly the keys [0 .. N-1] registered,
    every one of them a worker that was registered before. *)
Lemma initWorkerThreads_drops_stopped_workers idents self :
  let N := NUMBER_OF_WORKERS (settings self) in
  let m := worker_threads self in
  dense_keys m →
  (0 ≤ N ≤ Z.of_nat (size m))%Z →
  (∀ k w, m !! k = Some w → isAlive w = bool_decide (Z.of_nat k < N)%Z) →
  ∃ self', initWorkerThreads idents self = Ok self'
    ∧ dom (worker_threads self') = set_seq 0 (Z.to_nat N)
    ∧ (∀ k w, worker_threads self' !! k = Some w → m !! k = Some w).
Proof.
  intros N m Hd HN Hal. unfold initWorkerThreads.
  rewrite (remove_dead_workers_dense _ Hd). simpl. fold m.
  assert (dom (live_workers m) = set_seq 0 (Z.to_nat N)) as Hdom.
  { apply set_eq. intros i. rewrite elem_of_dom, elem_of_set_seq.
    unfold live_workers, is_Some. setoid_rewrite map_lookup_filter_Some. simpl.
    split.
    - intros (w & Hi & Halive). rewrite (Hal _ _ Hi) in Halive.
      apply bool_decide_eq_true in Halive. lia.
    - intros [_ Hi].
      destruct (proj1 (dense_keys_lookup m) Hd i ltac:(lia)) as [w Hw].
      exists w. split; [done|]. rewrite (Hal _ _ Hw).
      apply bool_decide_eq_true. lia. }
  assert (size (live_workers m) = Z.to_nat N) as Hsize.
  { by rewrite <- size_dom, Hdom, size_set_seq. }
  unfold spawn_missing_workers. simpl. fold N. rewrite Hsize.
  rewrite (proj2 (Z.ltb_ge _ _)) by lia.
  rewrite mark_redundant_workers_no_excess by (simpl; fold N; lia).
  eexists. split; [done|]. simpl. split; [done|].
  intros k w. unfold live_workers. rewrite map_lookup_filter_Some. by intros [? _].
Qed.

(** ** Sums over the registry, tallies over the history *)

Lemma units_sum_empty f : units_sum f ∅ = 0.
Proof. apply map_fold_empty. Qed.

Lemma units_sum_insert f (m : gmap nat WorkerThread) k w :
  m !! k = None → units_sum f (<[k := w]> m) = f w + units_sum f m.
Proof.
  intros Hk. unfold units_sum. rewrite map_fold_insert_L; [done| |done].
  intros. lia.
Qed.

Lemma units_sum_delete f (m : gmap nat WorkerThread) k w :
  m !! k = Some w → units_sum f m = f w + units_sum f (delete k m).
Proof.
  intros Hk. unfold units_sum. rewrite (map_fold_delete_L _ _ k w m); [done| |done].
  intros. lia.
Qed.

Lemma units_sum_update f (m : gmap nat WorkerThread) k w w' :
  m !! k = Some w →
  units_sum f (<[k := w']> m) + f w = units_sum f m + f w'.
Proof.
  intros Hk. rewrite (units_sum_delete f m k w Hk).
  rewrite <- insert_delete_eq.
  rewrite units_sum_insert by apply lookup_delete_eq. lia.
Qed.

Lemma units_sum_update_same f (m : gmap nat WorkerThread) k w w' :
  m !! k = Some w → f w' = f w →
  units_sum f (<[k := w']> m) = units_sum f m.
Proof. intros Hk Hf. pose proof (units_sum_update f m k w w' Hk). lia. Qed.

Lemma tally_app f l1 l2 : tally f (l1 ++ l2) = tally f l1 + tally f l2.
Proof. induction l1 as [|e l1 IH]; simpl; lia. Qed.

Lemma in_list_app sel l1 l2 :
  in_list sel (l1 ++ l2) = in_list sel l1 + in_list sel l2.
Proof. induction l1 as [|e l1 IH]; simpl; lia. Qed.

(** ** What [initWorkerThreads] changes *)

Lemma for_range_pool_change body :
  (∀ i s s', body i s = Ok s' → pool_change s s') →
  ∀ l s s', for_range body l s = Ok s' → pool_change s s'.
Proof.
  intros Hbody l. induction l as [|i l IH]; intros s s' Hrun.
  - injection Hrun as <-. constructor.
  - rewrite for_range_cons in Hrun.
    destruct (body i s) as [s1|] eqn:Hb; [|done].
    eapply pool_then; [by eapply Hbody|by apply IH].
Qed.

Lemma remove_dead_body_pool_change i s s' :
  remove_dead_body i s = Ok s' → pool_change s s'.
Proof.
  unfold remove_dead_body.
  destruct (worker_threads s !! i) as [w|] eqn:Hw; [|done].
  destruct (isAlive w) eqn:Hal; intros [= <-]; [constructor|].
  by eapply pool_drop.
Qed.

Lemma mark_redundant_body_pool_change i s s' :
  mark_redundant_body i s = Ok s' → pool_change s s'.
Proof.
  unfold mark_redundant_body.
  destruct (worker_threads s !! i) as [w|] eqn:Hw; [|done].
  destruct (_ <=? _)%Z; intros [= <-]; [|constructor].
  eapply pool_then; [by eapply pool_flag|apply pool_record].
Qed.

Lemma spawn_loop_pool_change idents l : ∀ s,
  pool_change s (foldl (spawn_body idents) s l).
Proof.
  induction l as [|i l IH]; intros s; simpl; [constructor|].
  eapply pool_then; [|apply IH].
  unfold spawn_body. destruct (worker_threads s !! i) eqn:Hi; [constructor|].
  by apply pool_start.
Qed.

Lemma initWorkerThreads_pool_change idents self self' :
  initWorkerThreads idents self = Ok self' → pool_change self self'.
Proof.
  unfold initWorkerThreads. intros Hrun.
  destruct (remove_dead_workers self) as [self1|] eqn:H1; [|done].
  simpl in Hrun.
  eapply pool_then.
  { eapply for_range_pool_change; [apply remove_dead_body_pool_change|exact H1]. }
  eapply pool_then.
  { instantiate (1 := spawn_missing_workers idents self1).
    unfold spawn_missing_workers. destruct (_ <? _)%Z; [|constructor].
    eapply pool_then; [apply pool_log|apply spawn_loop_pool_change]. }
  revert Hrun. generalize (spawn_missing_workers idents self1). intros self2.
  unfold mark_redundant_workers. destruct (_ <? _)%Z.
  - intros Hrun. eapply pool_then; [apply pool_log|].
    eapply for_range_pool_change; [apply mark_redundant_body_pool_change|exact Hrun].
  - intros [= <-]. constructor.
Qed.

Lemma for_range_left_Ok body l : ∀ s s',
  for_range body l s = Ok s' → for_range_left body l s = s'.
Proof.
  induction l as [|i l IH]; intros s s' Hrun.
  - by injection Hrun.
  - rewrite for_range_cons in Hrun. simpl.
    destruct (body i s) as [s1|]; [by apply IH|done].
Qed.

Lemma for_range_left_pool_change body :
  (∀ i s s', body i s = Ok s' → pool_change s s') →
  ∀ l s, pool_change s (for_range_left body l s).
Proof.
  intros Hbody l. induction l as [|i l IH]; intros s; simpl; [constructor|].
  destruct (body i s) as [s1|] eqn:Hb; [|constructor].
  eapply pool_then; [by eapply Hbody|apply IH].
Qed.

(** When [initWorkerThreads] returns, it leaves the monitor object it
    returns; when it raises, what it has done by then is a change of the
    same kind. *)
Lemma initWorkerThreads_left_Ok idents self self' :
  initWorkerThreads idents self = Ok self' →
  initWorkerThreads_left idents self = self'.
Proof.
  unfold initWorkerThreads, initWorkerThreads_left. intros Hrun.
  destruct (remove_dead_workers self) as [self1|] eqn:H1; [|done].
  simpl in Hrun. unfold remove_dead_workers in H1.
  rewrite (for_range_left_Ok _ _ _ _ H1).
  unfold mark_redundant_workers in Hrun.
  destruct (_ <? _)%Z; [|by injection Hrun].
  by apply for_range_left_Ok.
Qed.

Lemma initWorkerThreads_left_pool_change idents self :
  pool_change self (initWorkerThreads_left idents self).
Proof.
  unfold initWorkerThreads_left.
  assert (pool_change self
            (for_range_left remove_dead_body
               (seq 0 (size (worker_threads self))) self)) as H1
    by apply for_range_left_pool_change, remove_dead_body_pool_change.
  destruct (remove_dead_workers self); [|done].
  eapply pool_then; [exact H1|].
  match goal with |- pool_change ?s _ => generalize s end. intros self1.
  eapply pool_then.
  { instantiate (1 := spawn_missing_workers idents self1).
    unfold spawn_missing_workers. destruct (_ <? _)%Z; [|constructor].
    eapply pool_then; [apply pool_log|apply spawn_loop_pool_change]. }
  destruct (_ <? _)%Z; [|constructor].
  eapply pool_then; [apply pool_log|].
  apply for_range_left_pool_change, mark_redundant_body_pool_change.
Qed.

Lemma pool_change_fields self self' :
  pool_change self self' →
  settings self' = settings self ∧ job_queue self' = job_queue self
  ∧ task_queue self' = task_queue self
  ∧ complete_queue self' = complete_queue self
  ∧ abort_flag self' = abort_flag self.
Proof.
  induction 1; simpl; try done.
  destruct IHpool_change1 as (? & ? & ? & ? & ?).
  destruct IHpool_change2 as (? & ? & ? & ? & ?).
  repeat split; congruence.
Qed.

Lemma pool_change_units_sum f self self' :
  pool_change self self' →
  (∀ w, isAlive w = false → f w = 0) →
  (∀ idents k, f (start (idents k) (WorkerThread_init k ("Worker-" +:+ str k))) = 0) →
  (∀ w, f (redundant_flag_set w) = f w) →
  units_sum f (worker_threads self') = units_sum f (worker_threads self).
Proof.
  intros Hch Hdead Hnew Hflag.
  induction Hch; simpl; try done.
  - by rewrite IHHch2, IHHch1.
  - rewrite (units_sum_delete f (worker_threads self) k w) by done.
    by rewrite Hdead.
  - rewrite units_sum_insert by done. by rewrite Hnew.
  - by eapply units_sum_update_same.
Qed.

Lemma pool_change_units_ok self self' :
  pool_change self self' →
  (∀ k w, worker_threads self !! k = Some w → unit_ok k w) →
  ∀ k w, worker_threads self' !! k = Some w → unit_ok k w.
Proof.
  induction 1; simpl; try done.
  - auto.
  - intros Hok k' w' [_ Hk']%lookup_delete_Some. by apply Hok.
  - intros Hok k' w'. rewrite lookup_insert_Some.
    intros [[<- <-]|[_ Hk']]; [|by apply Hok].
    split; simpl; [done|by intros [|]|done].
  - intros Hok k' w'. rewrite lookup_insert_Some.
    intros [[<- <-]|[_ Hk']]; [|by apply Hok].
    destruct (Hok _ _ H) as [? ? Hobs]. split; simpl; [done..|].
    intros Ho. by destruct (Hobs Ho).
Qed.

(** ** Invariants of the pool *)

(** Case analysis on the statement a unit runs. [Hstep] is the equation
    [unit_step eng k w tq cq = Some _] with [unit_step] unfolded and [pc w]
    destructed; [on_process] is run on the equation of [process_item]. *)
Ltac unit_statement Hstep on_process :=
  repeat (match type of Hstep with
          | context [if redundant_flag ?w then _ else _] =>
              destruct (redundant_flag w) eqn:?
          | context [if ?b then _ else _] => destruct b
          | context [match get_nowait ?q with _ => _ end] =>
              unfold get_nowait in Hstep; destruct (items q) eqn:?
          | context [match process_item ?e ?w with _ => _ end] =>
              let Hp := fresh "Hp" in
              destruct (process_item e w) as [? [?|[]]] eqn:Hp;
              on_process Hp
          | context [match current_task ?w with _ => _ end] =>
              destruct (current_task w) eqn:?
          | context [put ?t ?q] => unfold put in Hstep
          end; simpl in Hstep; simplify_eq).

(** The same for the monitor; [on_init] is run on the [pool_change] that a
    call of [initWorkerThreads] is, whether it returns or raises. *)
Ltac monitor_statement Hstep on_init :=
  repeat (match type of Hstep with
          | context [match initWorkerThreads ?i ?s with _ => _ end] =>
              let Hi := fresh "Hi" in
              destruct (initWorkerThreads i s) eqn:Hi;
              [ apply initWorkerThreads_pool_change in Hi
              | clear Hi;
                pose proof (initWorkerThreads_left_pool_change i s) as Hi ];
              on_init Hi
          | match ?r with Some _ => _ | None => _ end = _ =>
              destruct r as [[]|]
          | context [if ?b then _ else _] => destruct b eqn:?
          | context [match get_nowait ?q with _ => _ end] =>
              unfold get_nowait in Hstep; destruct (items q) eqn:?
          | context [match get_next_incoming_item ?q with _ => _ end] =>
              unfold get_next_incoming_item in Hstep;
              destruct (incoming q) eqn:?
          | context [add_to_task_queue ?t ?q] =>
              unfold add_to_task_queue, put in Hstep; simpl in Hstep
          end; simpl in Hstep; simplify_eq).

Lemma put_unbounded t q :
  maxsize q = 0 →
  put t q = Some {| maxsize := maxsize q; items := items q ++ [t] |}.
Proof. intros Hq. unfold put, full. by rewrite Hq. Qed.

Lemma unit_step_queues eng k w tq cq w' tq' cq' evs :
  unit_step eng k w tq cq = Some (w', tq', cq', evs) →
  maxsize tq' = maxsize tq ∧ maxsize cq' = maxsize cq
  ∧ (length (items tq') ≤ length (items tq))
  ∧ (items tq = [] → items tq' = []).
Proof.
  unfold unit_step. intros Hstep.
  destruct (pc w); simplify_eq; try done;
    try (unit_statement Hstep ltac:(fun Hp => clear Hp)).
  all: simpl; repeat split; try done; try lia.
  all: match goal with H : items _ = [] |- _ => rewrite H; simpl; lia end.
Qed.

Lemma process_item_fields eng w w' r :
  process_item eng w = (w', r) →
  threadID w' = threadID w ∧ name w' = name w ∧ ident w' = ident w
  ∧ idle w' = idle w ∧ current_task w' = current_task w
  ∧ redundant_flag w' = redundant_flag w ∧ pc w' = pc w
  ∧ observed_redundant w' = observed_redundant w.
Proof.
  unfold process_item. intros Hp.
  destruct (current_task w) eqn:Hc; [by simplify_eq..|].
  destruct (ensureDir eng); [|by simplify_eq].
  destruct (generate_ffmpeg_args eng) as [args|]; [|by simplify_eq].
  destruct args; simpl in Hp.
  - by simplify_eq.
  - destruct (convert_file_and_fetch_progress eng) as [[|]|]; by simplify_eq.
Qed.

Lemma unit_step_unit_ok eng k w tq cq w' tq' cq' evs :
  unit_step eng k w tq cq = Some (w', tq', cq', evs) →
  unit_ok k w → unit_ok k w'.
Proof.
  unfold unit_step. intros Hstep [Hid Htask Hobs].
  destruct (pc w) eqn:Hpc; simplify_eq;
    try (unit_statement Hstep ltac:(fun Hp =>
      apply process_item_fields in Hp;
      destruct Hp as (? & ? & ? & ? & ? & ? & ? & ?)));
    (split; simpl;
     [ try done; try congruence
     | try (intros [|]; done); try (intros _; eauto)
     | try (intros _; split; eauto; fail);
       try (intros Ho; destruct (Hobs ltac:(congruence)) as [? [|[|]]];
            try done; try congruence; repeat split; eauto)
     ]).
Qed.

Lemma progress_step_unit_ok p k w w' :
  progress_step p w = Some w' → unit_ok k w → unit_ok k w'.
Proof.
  unfold progress_step. intros Hstep [Hid Htask Hobs].
  destruct (pc w) eqn:Hpc; try done.
  destruct (current_task w) eqn:Hc; try done. simplify_eq.
  split; simpl; [done|eauto|].
  intros Ho. destruct (Hobs Ho) as [? [|[|]]]; congruence.
Qed.

Lemma monitor_step_fields idents raises self pc self' pc' evs :
  monitor_step idents raises self pc = Some (self', pc', evs) →
  maxsize (task_queue self') = maxsize (task_queue self)
  ∧ maxsize (complete_queue self') = maxsize (complete_queue self)
  ∧ ((∀ k w, worker_threads self !! k = Some w → unit_ok k w) →
     ∀ k w, worker_threads self' !! k = Some w → unit_ok k w).
Proof.
  unfold monitor_step. intros Hstep.
  destruct pc; simplify_eq;
    try (monitor_statement Hstep ltac:(fun Hi =>
      pose proof (pool_change_fields _ _ Hi) as (? & ? & ? & ? & ?);
      pose proof (pool_change_units_ok _ _ Hi)));
    simpl; split_and!; try done; try congruence; eauto.
  all: by destruct raises.
Qed.

Lemma not_full_empty q :
  maxsize q = 1 → full q = false → items q = [].
Proof.
  unfold full. intros ->. by destruct (items q).
Qed.

Lemma monitor_step_task_queue idents raises self pc self' pc' evs :
  monitor_step idents raises self pc = Some (self', pc', evs) →
  maxsize (task_queue self) = 1 →
  length (items (task_queue self)) ≤ 1 →
  ((pc = S_next ∨ ∃ t, pc = S_add t) → items (task_queue self) = []) →
  length (items (task_queue self')) ≤ 1
  ∧ ((pc' = S_next ∨ ∃ t, pc' = S_add t) → items (task_queue self') = []).
Proof.
  unfold monitor_step. intros Hstep Hmax Hlen Hfree.
  destruct pc; simplify_eq;
    try (monitor_statement Hstep ltac:(fun Hi =>
      pose proof (pool_change_fields _ _ Hi) as (? & ? & ? & ? & ?)));
    try match goal with
        | Hf : full _ = false |- _ => pose proof (not_full_empty _ Hmax Hf)
        end;
    try destruct raises; simpl;
    (split; [|intros [?|[? ?]]; try done]);
    try done; try congruence; eauto.
  all: match goal with H : items _ = [] |- _ => rewrite H; simpl; lia end.
Qed.

Lemma step_well_formed idents l s s' :
  well_formed s → step idents l s = Some s' → well_formed s'.
Proof.
  intros [Hmax Hlen Hfree Hcq Hunits] Hstep. unfold step in Hstep.
  destruct l as [k eng|k p|raises|N| |t]; simpl in Hstep.
  - destruct (worker_threads (monitor s) !! k) as [w|] eqn:Hk; [|done].
    simpl in Hstep.
    destruct (unit_step eng k w _ _) as [[[[w' tq] cq] evs]|] eqn:Hu; [|done].
    simpl in Hstep. injection Hstep as <-.
    destruct (unit_step_queues _ _ _ _ _ _ _ _ _ Hu) as (Htq & Hcq' & Hle & Hnil).
    split; simpl; [congruence|lia|auto|congruence|].
    intros k' w0. rewrite lookup_insert_Some.
    intros [[<- <-]|[_ Hk']]; [|by apply Hunits].
    eapply unit_step_unit_ok; [exact Hu|by apply Hunits].
  - destruct (worker_threads (monitor s) !! k) as [w|] eqn:Hk; [|done].
    simpl in Hstep.
    destruct (progress_step p w) as [w'|] eqn:Hp; [|done].
    simpl in Hstep. injection Hstep as <-.
    split; simpl; [done..|].
    intros k' w0. rewrite lookup_insert_Some.
    intros [[<- <-]|[_ Hk']]; [|by apply Hunits].
    eapply progress_step_unit_ok; [exact Hp|by apply Hunits].
  - destruct (monitor_step idents raises _ _) as [[[self' pc'] evs]|] eqn:Hm;
      [|done].
    simpl in Hstep. injection Hstep as <-.
    destruct (monitor_step_fields _ _ _ _ _ _ _ Hm) as (Htq & Hcq' & Hok).
    destruct (monitor_step_task_queue _ _ _ _ _ _ _ Hm Hmax Hlen Hfree)
      as [Hlen' Hfree'].
    split; simpl; [congruence|done|done|congruence|by apply Hok].
  - injection Hstep as <-. by split.
  - injection Hstep as <-. by split.
  - injection Hstep as <-. by split.
Qed.

(** One statement of a unit moves a task from one place to the next. *)
Lemma unit_step_moves sel eng k w tq cq w' tq' cq' evs :
  unit_step eng k w tq cq = Some (w', tq', cq', evs) →
  unit_ok k w →
  maxsize cq = 0 →
  in_list sel (items tq) = in_list sel (items tq') + tally (is_claim sel) evs
  ∧ processing sel w + tally (is_claim sel) evs
    = processing sel w' + tally (is_raise sel) evs + tally (is_success sel) evs
  ∧ about_to_push sel w + tally (is_success sel) evs
    = about_to_push sel w' + tally (is_push sel) evs
  ∧ in_list sel (items cq') = in_list sel (items cq) + tally (is_push sel) evs
  ∧ tally (is_pull sel) evs = 0 ∧ tally (is_handoff sel) evs = 0
  ∧ tally (is_take sel) evs = 0 ∧ tally (is_mark sel) evs = 0.
Proof.
  unfold unit_step. intros Hstep [Hid Htask Hobs] Hcq.
  destruct (pc w) eqn:Hpc;
    try (destruct Htask as [t0 Ht0]; [by eauto|]);
    simplify_eq;
    repeat (match type of Hstep with
            | context [if ?b then _ else _] => destruct b
            | context [match get_nowait ?q with _ => _ end] =>
                unfold get_nowait in Hstep; destruct (items q) eqn:?
            | context [match process_item ?e ?w with _ => _ end] =>
                let Hp := fresh "Hp" in
                let Hc := fresh "Hc" in
                destruct (process_item e w) as [? [?|[]]] eqn:Hp;
                apply process_item_fields in Hp;
                destruct Hp as (? & ? & ? & ? & Hc & ? & ? & ?);
                simpl in Hstep; rewrite ?Hc in Hstep
            | context [match current_task ?w with _ => _ end] =>
                first [rewrite Ht0 in Hstep | destruct (current_task w) eqn:?]
            | context [put ?t ?q] => rewrite put_unbounded in Hstep by done
            end; simpl in Hstep; simplify_eq);
    unfold processing, about_to_push; simpl;
    repeat match goal with
           | H : current_task _ = current_task _ |- _ => rewrite H; clear H
           | H : items _ = _ |- _ => rewrite H; clear H
           end;
    rewrite ?Hpc, ?Ht0, ?in_list_app; simpl;
    try (split_and!; lia).
Qed.

Lemma processing_not_alive sel w : isAlive w = false → processing sel w = 0.
Proof.
  unfold isAlive, processing. intros Hal%bool_decide_eq_false.
  destruct (decide (pc w = W_stopped)) as [->|]; [done|]. by destruct Hal.
Qed.

Lemma about_to_push_not_alive sel w : isAlive w = false → about_to_push sel w = 0.
Proof.
  unfold isAlive, about_to_push. intros Hal%bool_decide_eq_false.
  destruct (decide (pc w = W_stopped)) as [->|]; [done|]. by destruct Hal.
Qed.

(** One statement of the monitor moves a task from one place to the next,
    and leaves the tasks of the units alone. *)
Lemma monitor_step_moves sel idents raises self pc self' pc' evs :
  monitor_step idents raises self pc = Some (self', pc', evs) →
  units_sum (processing sel) (worker_threads self')
    = units_sum (processing sel) (worker_threads self)
  ∧ units_sum (about_to_push sel) (worker_threads self')
    = units_sum (about_to_push sel) (worker_threads self)
  ∧ tally (is_pull sel) evs + held_to_add sel pc
    = tally (is_handoff sel) evs + held_to_add sel pc'
  ∧ tally (is_handoff sel) evs + in_list sel (items (task_queue self))
    = in_list sel (items (task_queue self'))
  ∧ in_list sel (items (complete_queue self))
    = in_list sel (items (complete_queue self')) + tally (is_take sel) evs
  ∧ tally (is_take sel) evs + held_to_mark sel pc
    = held_to_mark sel pc' + tally (is_mark sel) evs
  ∧ tally (is_mark sel) evs + in_list sel (processed (job_queue self))
    = in_list sel (processed (job_queue self'))
  ∧ tally (is_claim sel) evs = 0 ∧ tally (is_raise sel) evs = 0
  ∧ tally (is_success sel) evs = 0 ∧ tally (is_push sel) evs = 0.
Proof.
  unfold monitor_step. intros Hstep.
  destruct pc; simplify_eq;
    try (monitor_statement Hstep ltac:(fun Hi =>
      pose proof (pool_change_fields _ _ Hi) as (? & ? & ? & ? & ?);
      pose proof (pool_change_units_sum (processing sel) _ _ Hi
        (processing_not_alive sel) ltac:(done) ltac:(done));
      pose proof (pool_change_units_sum (about_to_push sel) _ _ Hi
        (about_to_push_not_alive sel) ltac:(done) ltac:(done))));
    try destruct raises; simpl;
    repeat match goal with
           | H : _ = _ |- _ => rewrite H; clear H
           end;
    rewrite ?in_list_app; simpl;
    try (split_and!; lia).
Qed.

Lemma progress_step_moves sel p w w' :
  progress_step p w = Some w' →
  processing sel w' = processing sel w
  ∧ about_to_push sel w' = about_to_push sel w.
Proof.
  unfold progress_step, processing, about_to_push. intros Hstep.
  destruct (pc w) eqn:Hpc; try done.
  destruct (current_task w) eqn:Hc; try done. simplify_eq. simpl.
  by rewrite Hpc.
Qed.

Lemma step_conservation idents sel l s s' :
  well_formed s → conservation sel s →
  step idents l s = Some s' → conservation sel s'.
Proof.
  intros [Hmax Hlen Hfree Hcq Hunits] [H1 H2 H3 H4 H5 H6 H7] Hstep.
  unfold step in Hstep.
  destruct l as [k eng|k p|raises|N| |t]; simpl in Hstep.
  - destruct (worker_threads (monitor s) !! k) as [w|] eqn:Hk; [|done].
    simpl in Hstep.
    destruct (unit_step eng k w _ _) as [[[[w' tq] cq] evs]|] eqn:Hu; [|done].
    simpl in Hstep. injection Hstep as <-.
    destruct (unit_step_moves sel _ _ _ _ _ _ _ _ _ Hu (Hunits _ _ Hk) Hcq)
      as (? & ? & ? & ? & ? & ? & ? & ?).
    pose proof (units_sum_update (processing sel) _ _ _ w' Hk).
    pose proof (units_sum_update (about_to_push sel) _ _ _ w' Hk).
    split; simpl; rewrite !tally_app; lia.
  - destruct (worker_threads (monitor s) !! k) as [w|] eqn:Hk; [|done].
    simpl in Hstep.
    destruct (progress_step p w) as [w'|] eqn:Hp; [|done].
    simpl in Hstep. injection Hstep as <-.
    destruct (progress_step_moves sel _ _ _ Hp) as [Hp1 Hp2].
    pose proof (units_sum_update_same (processing sel) _ _ _ w' Hk Hp1).
    pose proof (units_sum_update_same (about_to_push sel) _ _ _ w' Hk Hp2).
    split; simpl; lia.
  - destruct (monitor_step idents raises _ _) as [[[self' pc'] evs]|] eqn:Hm;
      [|done].
    simpl in Hstep. injection Hstep as <-.
    destruct (monitor_step_moves sel _ _ _ _ _ _ _ Hm)
      as (? & ? & ? & ? & ? & ? & ? & ? & ? & ? & ?).
    split; simpl; rewrite !tally_app; lia.
  - injection Hstep as <-. by split.
  - injection Hstep as <-. by split.
  - injection Hstep as <-. by split.
Qed.

Lemma initial_well_formed settings pending history :
  well_formed (initial settings pending history).
Proof. split; simpl; try done. lia. Qed.

Lemma initial_conservation sel settings pending history :
  conservation sel (initial settings pending history).
Proof. split; simpl; try done; by rewrite units_sum_empty. Qed.

Lemma exec_invariants idents sel ls : ∀ s s',
  well_formed s → conservation sel s →
  exec idents ls s = Some s' →
  well_formed s' ∧ conservation sel s'.
Proof.
  induction ls as [|l ls IH]; intros s s' Hwf Hc Hrun; simpl in Hrun.
  - by injection Hrun as <-.
  - destruct (step idents l s) as [s1|] eqn:Hs; [|done]. simpl in Hrun.
    eapply IH; [| |exact Hrun].
    + by eapply step_well_formed.
    + by eapply step_conservation.
Qed.

Lemma reachable_invariants idents sel s :
  reachable idents s → well_formed s ∧ conservation sel s.
Proof.
  intros (settings & pending & history & ls & Hrun).
  eapply exec_invariants; [| |exact Hrun].
  - apply initial_well_formed.
  - apply initial_conservation.
Qed.

Lemma in_list_every l : in_list every l = length l.
Proof. induction l as [|t l IH]; simpl; [done|]. by rewrite IH. Qed.

Lemma hit_le_1 sel tid : hit sel tid ≤ 1.
Proof. unfold hit. destruct (sel tid); lia. Qed.

Lemma held_to_add_le_1 sel pc : held_to_add sel pc ≤ 1.
Proof. destruct pc; simpl; try lia. apply hit_le_1. Qed.

Lemma reachable_step idents l s s' :
  reachable idents s → step idents l s = Some s' → reachable idents s'.
Proof.
  intros (settings & pending & history & ls & Hrun) Hstep.
  exists settings, pending, history, (ls ++ [l]).
  revert Hrun. generalize (initial settings pending history).
  induction ls as [|l0 ls IH]; intros s0 Hrun; simpl in *.
  - injection Hrun as ->. by rewrite Hstep.
  - destruct (step idents l0 s0); [|done]. simpl in *. by apply IH.
Qed.

Lemma reachable_exec idents ls : ∀ s s',
  reachable idents s → exec idents ls s = Some s' → reachable idents s'.
Proof.
  induction ls as [|l ls IH]; intros s s' Hr Hrun; simpl in Hrun.
  - by injection Hrun as <-.
  - destruct (step idents l s) as [s1|] eqn:Hs; [|done]. simpl in Hrun.
    eapply IH; [|exact Hrun]. by eapply reachable_step.
Qed.



Lemma exec_cons_Some idents l ls s s1 :
  step idents l s = Some s1 →
  exec idents (l :: ls) s = exec idents ls s1.
Proof. intros H. simpl. by rewrite H. Qed.



Lemma exec_trace idents ls : ∀ s s',
  exec idents ls s = Some s' → ∃ evs, trace s' = evs ++ trace s.
Proof.
  induction ls as [|l ls IH]; intros s s' Hrun; simpl in Hrun.
  - injection Hrun as <-. by exists [].
  - destruct (step idents l s) as [s1|] eqn:Hs; [|done]. simpl in Hrun.
    destruct (IH _ _ Hrun) as [evs Hevs].
    assert (∃ evs1, trace s1 = evs1 ++ trace s) as [evs1 Hevs1].
    { unfold step in Hs. destruct l; simpl in Hs.
      - destruct (worker_threads (monitor s) !! k); [|done]. simpl in Hs.
        destruct (unit_step _ _ _ _ _) as [[[[? ?] ?] evs1]|]; [|done].
        injection Hs as <-. by exists evs1.
      - destruct (worker_threads (monitor s) !! k); [|done]. simpl in Hs.
        destruct (progress_step _ _); [|done]. injection Hs as <-. by exists [].
      - destruct (monitor_step _ _ _ _) as [[[? ?] evs1]|]; [|done].
        injection Hs as <-. by exists evs1.
      - injection Hs as <-. by exists [].
      - injection Hs as <-. by exists [].
      - injection Hs as <-. by exists []. }
    exists (evs ++ evs1). by rewrite Hevs, Hevs1, app_assoc.
Qed.






(** At that input the premises of the round hold: the monitor is at the
    test of line 197, worker 0 is idle, the task is on the completion
    queue, and five statements of the monitor report it. *)
Lemma pushed_task_is_reported :
  let s := state_after one_task_pushed one_pending_task in
  monitor_pc s = S_check_idle
  ∧ checkForIdleWorkers (monitor s) = true
  ∧ abort_flag (monitor s) = false
  ∧ pushed s 7 = 1 ∧ marked s 7 = 0
  ∧ marked (state_after (monitor_steps 5) s) 7 = 1.
Proof. vm_compute. by split_and!. Qed.


(** The state of that run: the task was pushed once and is on the
    completion queue, [run] has returned, nothing was reported. *)
Lemma aborted_before_report_state :
  let s := state_after aborted_before_report one_pending_task in
  monitor_pc s = S_done
  ∧ pulled s 7 = 1 ∧ completed s 7 = 1 ∧ pushed s 7 = 1
  ∧ in_list (only 7) (items (complete_queue (monitor s))) = 1
  ∧ marked s 7 = 0 ∧ processed (job_queue (monitor s)) = [].
Proof. vm_compute. by split_and!. Qed.

(** C2. The hand-off queue never holds more than one task. The monitor
    places one item at a time, only after it has seen the queue not full,
    so that the [put] of line 186 never blocks; the tasks pulled from the
    incoming items are never more than one ahead of the tasks the units
    have claimed. *)
Theorem task_queue_holds_at_most_one idents s :
  reachable idents s →
  maxsize (task_queue (monitor s)) = 1
  ∧ length (items (task_queue (monitor s))) ≤ 1
  ∧ (∀ t raises, monitor_pc s = S_add t →
       items (task_queue (monitor s)) = []
       ∧ ∃ s', step idents (L_monitor raises) s = Some s'
               ∧ items (task_queue (monitor s')) = [t])
  ∧ tally (is_pull every) (trace s) ≤ tally (is_claim every) (trace s) + 1.
Proof.
  intros Hr.
  destruct (reachable_invariants idents every s Hr)
    as [[Hmax Hlen Hfree Hcq Hunits] [H1 H2 H3 H4 H5 H6 H7]].
  split_and!; [done|done| |].
  - intros t raises Hpc.
    assert (items (task_queue (monitor s)) = []) as Hnil by eauto.
    split; [done|].
    unfold step. simpl. rewrite Hpc. simpl.
    unfold add_to_task_queue, put, full. simpl. rewrite Hmax, Hnil. simpl.
    eexists. split; done.
  - rewrite H1, H2, in_list_every.
    destruct (monitor_pc s) eqn:Hpc; simpl; try lia.
    rewrite Hfree by eauto. simpl. pose proof (hit_le_1 every (task_id next_item_to_process)). lia.
Qed.

Lemma task_queue_witness :
  let s := state_after (monitor_steps 11) one_pending_task in
  maxsize (task_queue (monitor s)) = 1
  ∧ length (items (task_queue (monitor s))) ≤ 1
  ∧ (∀ t raises, monitor_pc s = S_add t →
       items (task_queue (monitor s)) = []
       ∧ ∃ s', step example_idents (L_monitor raises) s = Some s'
               ∧ items (task_queue (monitor s')) = [t])
  ∧ tally (is_pull every) (trace s) ≤ tally (is_claim every) (trace s) + 1.
Proof.
  apply (task_queue_holds_at_most_one example_idents
           (state_after (monitor_steps 11) one_pending_task)).
  exists (example_settings 1), [example_task 7 "a.mkv"], [], (monitor_steps 11).
  vm_compute. reflexivity.
Defined.

(** C7. A task that was pulled once and whose processing raised before
    line 121 is lost: it is never pushed to the completion queue, never
    taken or reported by the monitor, not put back on the hand-off queue,
    and no unit works on it any more. *)
Theorem failed_task_is_lost idents s tid :
  reachable idents s →
  pulled s tid = 1 →
  1 ≤ raised s tid →
  pushed s tid = 0
  ∧ in_list (only tid) (items (complete_queue (monitor s))) = 0
  ∧ taken s tid = 0 ∧ marked s tid = 0
  ∧ in_list (only tid) (processed (job_queue (monitor s))) = 0
  ∧ handed_off s tid = 1
  ∧ in_list (only tid) (items (task_queue (monitor s))) = 0
  ∧ claimed s tid = 1 ∧ raised s tid = 1 ∧ completed s tid = 0
  ∧ units_sum (processing (only tid)) (worker_threads (monitor s)) = 0
  ∧ units_sum (about_to_push (only tid)) (worker_threads (monitor s)) = 0.
Proof.
  intros Hr Hpull Hraise.
  destruct (reachable_invariants idents (only tid) s Hr)
    as [Hwf [H1 H2 H3 H4 H5 H6 H7]].
  unfold pulled, completed, raised, pushed, marked, taken, handed_off, claimed
    in *.
  split_and!; lia.
Qed.

Lemma failed_task_witness :
  let s := state_after one_task_raises one_pending_task in
  pushed s 7 = 0
  ∧ in_list (only 7) (items (complete_queue (monitor s))) = 0
  ∧ taken s 7 = 0 ∧ marked s 7 = 0
  ∧ in_list (only 7) (processed (job_queue (monitor s))) = 0
  ∧ handed_off s 7 = 1
  ∧ in_list (only 7) (items (task_queue (monitor s))) = 0
  ∧ claimed s 7 = 1 ∧ raised s 7 = 1 ∧ completed s 7 = 0
  ∧ units_sum (processing (only 7)) (worker_threads (monitor s)) = 0
  ∧ units_sum (about_to_push (only 7)) (worker_threads (monitor s)) = 0.
Proof.
  apply (failed_task_is_lost example_idents
           (state_after one_task_raises one_pending_task) 7).
  - exists (example_settings 1), [example_task 7 "a.mkv"], [], one_task_raises.
    vm_compute. reflexivity.
  - vm_compute. reflexivity.
  - vm_compute. lia.
Defined.

(** ** One unit among the others *)

Lemma tally_le f g tr : (∀ e, f e ≤ g e) → tally f tr ≤ tally g tr.
Proof.
  intros Hle. induction tr as [|e tr IH]; simpl; [done|].
  specialize (Hle e). lia.
Qed.

Lemma tally_zero f evs :
  Forall (fun e => f e = 0) evs → tally f evs = 0.
Proof. induction 1 as [|e evs He _ IH]; simpl; [done|]. lia. Qed.

Lemma unit_step_events eng k w tq cq w' tq' cq' evs :
  unit_step eng k w tq cq = Some (w', tq', cq', evs) →
  Forall (unit_event k) evs.
Proof.
  unfold unit_step. intros Hstep.
  destruct (pc w); simplify_eq;
    try (unit_statement Hstep ltac:(fun Hp => clear Hp));
    repeat constructor.
  all: destruct (current_task _); repeat constructor.
Qed.

Lemma monitor_step_events idents raises self pc self' pc' evs :
  monitor_step idents raises self pc = Some (self', pc', evs) →
  Forall monitor_event evs.
Proof.
  unfold monitor_step. intros Hstep.
  destruct pc; simplify_eq;
    try (monitor_statement Hstep ltac:(fun Hi => clear Hi));
    repeat constructor.
Qed.

Lemma pool_change_alive self self' :
  pool_change self self' →
  ∀ k w, worker_threads self !! k = Some w → isAlive w = true →
  ∃ w', worker_threads self' !! k = Some w'
        ∧ (w' = w ∨ w' = redundant_flag_set w).
Proof.
  induction 1 as [| s1 s2 s3 _ IH1 _ IH2 | | | k0 w0 self Hk0 Hdead
                 | idents k0 self Hk0 | k0 w0 self Hk0];
    intros k w Hk Hal; simpl; eauto.
  - destruct (IH1 _ _ Hk Hal) as (w1 & Hk1 & Hw1).
    assert (isAlive w1 = true) as Hal1 by (by destruct Hw1 as [->| ->]).
    destruct (IH2 _ _ Hk1 Hal1) as (w2 & Hk2 & Hw2).
    exists w2. split; [done|].
    destruct Hw1 as [->| ->], Hw2 as [->| ->]; auto.
  - exists w. split; [|by left]. rewrite lookup_delete_ne; [done|].
    intros ->. congruence.
  - exists w. split; [|by left]. rewrite lookup_insert_ne; [done|].
    intros ->. congruence.
  - destruct (decide (k0 = k)) as [->|Hne].
    + rewrite lookup_insert_eq. exists (redundant_flag_set w0).
      split; [done|]. right. congruence.
    + rewrite lookup_insert_ne by done. eauto.
Qed.

(** The monitor does nothing to a live unit but set its redundant flag. *)
Lemma monitor_step_alive idents raises self pc self' pc' evs k w :
  monitor_step idents raises self pc = Some (self', pc', evs) →
  worker_threads self !! k = Some w → isAlive w = true →
  ∃ w', worker_threads self' !! k = Some w'
        ∧ (w' = w ∨ w' = redundant_flag_set w).
Proof.
  unfold monitor_step. intros Hstep Hk Hal.
  destruct pc; simplify_eq;
    try (monitor_statement Hstep ltac:(fun Hi =>
      pose proof (pool_change_alive _ _ Hi _ _ Hk Hal)));
    try destruct raises; simpl; eauto.
Qed.

Lemma tally_claim_by_other k k' evs :
  Forall (unit_event k') evs → k' ≠ k → tally (is_claim_by k) evs = 0.
Proof.
  intros Hev Hne. apply tally_zero. eapply Forall_impl; [exact Hev|].
  intros [] He; simpl in *; try done. by rewrite bool_decide_eq_false_2 by congruence.
Qed.

Lemma tally_claim_by_monitor k evs :
  Forall monitor_event evs → tally (is_claim_by k) evs = 0.
Proof.
  intros Hev. apply tally_zero. eapply Forall_impl; [exact Hev|].
  by intros [] He.
Qed.

Lemma tally_finish_by_other k tid k' evs :
  Forall (unit_event k') evs → k' ≠ k → tally (is_finish_by k tid) evs = 0.
Proof.
  intros Hev Hne. apply tally_zero. eapply Forall_impl; [exact Hev|].
  intros [] He; simpl in *; try done;
    by rewrite bool_decide_eq_false_2 by (intros [? ?]; congruence).
Qed.

Lemma tally_finish_by_monitor k tid evs :
  Forall monitor_event evs → tally (is_finish_by k tid) evs = 0.
Proof.
  intros Hev. apply tally_zero. eapply Forall_impl; [exact Hev|].
  by intros [] He.
Qed.

(** A unit that has seen its flag set claims nothing, and stays that way
    until it has stopped. *)
Lemma retired_step idents s0 k l s s' :
  well_formed s → retired_since s0 k s → step idents l s = Some s' →
  retired_since s0 k s'
  ∨ ∃ w1, worker_threads (monitor s) !! k = Some w1 ∧ pc w1 = W_stopped.
Proof.
  intros Hwf [Hc (w & Hk & Hobs)] Hstep.
  destruct (decide (pc w = W_stopped)) as [Hst|Hst]; [right; eauto|]. left.
  destruct (ok_observed _ _ (wf_units _ Hwf _ _ Hk) Hobs) as [Hflag Hpc].
  unfold retired_since, claims_by in *. unfold step in Hstep.
  destruct l as [k' eng|k' p|raises|N| |t]; simpl in Hstep.
  - destruct (decide (k' = k)) as [->|Hne].
    + rewrite Hk in Hstep. simpl in Hstep. unfold unit_step in Hstep.
      destruct Hpc as [Hpc|[Hpc|Hpc]]; [| |done]; rewrite Hpc in Hstep.
      * injection Hstep as <-. simpl. split; [done|].
        eexists. rewrite lookup_insert_eq. split; [done|]. done.
      * rewrite Hflag in Hstep. injection Hstep as <-. simpl. split; [done|].
        eexists. rewrite lookup_insert_eq. split; [done|]. done.
    + destruct (worker_threads (monitor s) !! k') as [w2|] eqn:Hk'; [|done].
      simpl in Hstep.
      destruct (unit_step eng k' w2 _ _) as [[[[w' tq] cq] evs]|] eqn:Hu; [|done].
      injection Hstep as <-. simpl. rewrite tally_app.
      rewrite (tally_claim_by_other k k' evs) by
        (done || by eapply unit_step_events).
      split; [done|]. exists w. by rewrite lookup_insert_ne.
  - destruct (decide (k' = k)) as [->|Hne].
    + rewrite Hk in Hstep. simpl in Hstep. unfold progress_step in Hstep.
      by destruct Hpc as [Hpc|[Hpc|Hpc]]; rewrite Hpc in Hstep.
    + destruct (worker_threads (monitor s) !! k') as [w2|] eqn:Hk'; [|done].
      simpl in Hstep. destruct (progress_step p w2); [|done].
      injection Hstep as <-. simpl. split; [done|].
      exists w. by rewrite lookup_insert_ne.
  - destruct (monitor_step idents raises _ _) as [[[self' pc'] evs]|] eqn:Hm;
      [|done].
    injection Hstep as <-. simpl. rewrite tally_app.
    rewrite (tally_claim_by_monitor k evs) by (by eapply monitor_step_events).
    split; [done|].
    destruct (monitor_step_alive _ _ _ _ _ _ _ k w Hm Hk) as (w' & Hk' & Hw').
    { unfold isAlive. by rewrite bool_decide_eq_true_2. }
    exists w'. split; [done|]. by destruct Hw' as [->| ->].
  - injection Hstep as <-. simpl. eauto.
  - injection Hstep as <-. simpl. eauto.
  - injection Hstep as <-. simpl. eauto.
Qed.

Lemma retired_exec idents s0 k ls : ∀ s s',
  reachable idents s → retired_since s0 k s →
  exec idents ls s = Some s' →
  retired_since s0 k s'
  ∨ ∃ ls1 ls2 s1 w1,
      ls = ls1 ++ ls2 ∧ exec idents ls1 s = Some s1
      ∧ claims_by s1 k = claims_by s0 k
      ∧ worker_threads (monitor s1) !! k = Some w1 ∧ pc w1 = W_stopped.
Proof.
  induction ls as [|l ls IH]; intros s s' Hr Hret Hrun; simpl in Hrun.
  - injection Hrun as <-. by left.
  - destruct (step idents l s) as [s1|] eqn:Hs; [|done]. simpl in Hrun.
    destruct (retired_step idents s0 k l s s1) as [Hret1|(w1 & Hk1 & Hpc1)];
      [by apply (reachable_invariants idents every)|done|done| |].
    + destruct (IH s1 s' (reachable_step _ _ _ _ Hr Hs) Hret1 Hrun)
        as [?|(ls1 & ls2 & s2 & w2 & -> & Hrun1 & ? & ? & ?)]; [by left|].
      right. exists (l :: ls1), ls2, s2, w2. simpl. rewrite Hs. simpl.
      by split_and!.
    + right. exists [], (l :: ls), s, w1. split_and!; try done.
      by destruct Hret.
Qed.

(** A unit that owns a task keeps it, whatever the others do, until it has
    pushed it or has caught an exception. *)
Lemma busy_step idents s0 k tid l s s' :
  well_formed s → busy_since s0 k tid s → step idents l s = Some s' →
  busy_since s0 k tid s' ∨ finished_by s0 k tid < finished_by s' k tid.
Proof.
  intros Hwf [Hc (w & Hk & Hpc & t & Ht & Hid)] Hstep.
  unfold busy_since, finished_by, busy_with in *. unfold step in Hstep.
  destruct l as [k' eng|k' p|raises|N| |t']; simpl in Hstep.
  - destruct (decide (k' = k)) as [->|Hne].
    + rewrite Hk in Hstep. simpl in Hstep. unfold unit_step in Hstep.
      destruct Hpc as [Hpc|Hpc]; rewrite Hpc in Hstep.
      * destruct (process_item eng w) as [w0 [b|e]] eqn:Hp;
          apply process_item_fields in Hp;
          destruct Hp as (_ & _ & _ & _ & Hc0 & _ & _ & _).
        -- rewrite Hc0, Ht in Hstep. injection Hstep as <-. simpl. left.
           split; [lia|]. eexists. rewrite lookup_insert_eq. split; [done|].
           simpl. split; [by right|]. by exists (set_success b t).
        -- simpl in Hstep. rewrite Hc0, Ht in Hstep.
           destruct e; injection Hstep as <-; simpl; right;
             rewrite bool_decide_eq_true_2 by done; lia.
      * rewrite Ht in Hstep. rewrite put_unbounded in Hstep by apply Hwf.
        simpl in Hstep. injection Hstep as <-. simpl. right.
        rewrite bool_decide_eq_true_2 by done. lia.
    + destruct (worker_threads (monitor s) !! k') as [w2|] eqn:Hk'; [|done].
      simpl in Hstep.
      destruct (unit_step eng k' w2 _ _) as [[[[w' tq] cq] evs]|] eqn:Hu; [|done].
      injection Hstep as <-. simpl. rewrite tally_app.
      rewrite (tally_finish_by_other k tid k' evs) by
        (done || by eapply unit_step_events).
      left. split; [done|]. exists w. rewrite lookup_insert_ne by done. eauto 10.
  - destruct (decide (k' = k)) as [->|Hne].
    + rewrite Hk in Hstep. simpl in Hstep. unfold progress_step in Hstep.
      destruct Hpc as [Hpc|Hpc]; rewrite Hpc, ?Ht in Hstep; [|done].
      injection Hstep as <-. simpl. left. split; [done|].
      eexists. rewrite lookup_insert_eq. split; [done|]. simpl.
      split; [by left|]. by exists (set_ffmpeg p t).
    + destruct (worker_threads (monitor s) !! k') as [w2|] eqn:Hk'; [|done].
      simpl in Hstep. destruct (progress_step p w2); [|done].
      injection Hstep as <-. simpl. left. split; [done|].
      exists w. rewrite lookup_insert_ne by done. eauto 10.
  - destruct (monitor_step idents raises _ _) as [[[self' pc'] evs]|] eqn:Hm;
      [|done].
    injection Hstep as <-. simpl. rewrite tally_app.
    rewrite (tally_finish_by_monitor k tid evs) by (by eapply monitor_step_events).
    left. split; [done|].
    destruct (monitor_step_alive _ _ _ _ _ _ _ k w Hm Hk) as (w' & Hk' & Hw').
    { unfold isAlive. apply bool_decide_eq_true_2. by destruct Hpc as [->| ->]. }
    exists w'. split; [done|]. destruct Hw' as [->| ->]; simpl; eauto 10.
  - injection Hstep as <-. simpl. left. eauto 10.
  - injection Hstep as <-. simpl. left. eauto 10.
  - injection Hstep as <-. simpl. left. eauto 10.
Qed.

Lemma busy_exec idents s0 k tid ls : ∀ s s',
  reachable idents s → busy_since s0 k tid s →
  exec idents ls s = Some s' →
  busy_since s0 k tid s' ∨ finished_by s0 k tid < finished_by s' k tid.
Proof.
  induction ls as [|l ls IH]; intros s s' Hr Hbusy Hrun; simpl in Hrun.
  - injection Hrun as <-. by left.
  - destruct (step idents l s) as [s1|] eqn:Hs; [|done]. simpl in Hrun.
    destruct (busy_step idents s0 k tid l s s1) as [Hbusy1|Hlt];
      [by apply (reachable_invariants idents every)|done|done| |].
    + by apply (IH s1 s' (reachable_step _ _ _ _ Hr Hs)).
    + right. destruct (exec_trace _ _ _ _ Hrun) as [evs Hevs].
      unfold finished_by in *. rewrite Hevs, tally_app. lia.
Qed.

(** A unit that owns a task can always run its next statement. *)
Lemma busy_is_enabled idents s k w tid eng :
  well_formed s →
  worker_threads (monitor s) !! k = Some w →
  busy_with w tid →
  ∃ s', step idents (L_unit k eng) s = Some s'.
Proof.
  intros Hwf Hk [Hpc (t & Ht & _)].
  unfold step. rewrite Hk. simpl. unfold unit_step.
  destruct Hpc as [Hpc|Hpc]; rewrite Hpc.
  - destruct (process_item eng w) as [w0 [b|e]] eqn:Hp;
      apply process_item_fields in Hp;
      destruct Hp as (_ & _ & _ & _ & Hc0 & _ & _ & _).
    + rewrite Hc0, Ht. simpl. eauto.
    + destruct e; simpl; eauto.
  - rewrite Ht. rewrite put_unbounded by apply Hwf. simpl. eauto.
Qed.

(** A unit that is marked redundant while it converts runs on: when the
    conversion returns, its next six statements record the outcome, push
    the task, see the flag (line 109), leave both loops and stop; it
    claims nothing on the way. *)
Lemma signalled_unit_finishes_then_stops idents s k w t eng w0 b :
  well_formed s →
  worker_threads (monitor s) !! k = Some w →
  pc w = W_process →
  current_task w = CT_task t →
  redundant_flag w = true →
  process_item eng w = (w0, Ok b) →
  ∃ s' w',
    exec idents (replicate 6 (L_unit k eng)) s = Some s'
    ∧ worker_threads (monitor s') !! k = Some w'
    ∧ pc w' = W_stopped ∧ current_task w' = CT_dict
    ∧ items (complete_queue (monitor s'))
      = items (complete_queue (monitor s)) ++ [set_success b t]
    ∧ task_queue (monitor s') = task_queue (monitor s)
    ∧ trace s'
      = Ev_push k (task_id t) :: Ev_success k (task_id t) b :: trace s.
Proof.
  intros Hwf Hk Hpc Ht Hflag Hp.
  pose proof (process_item_fields _ _ _ _ Hp)
    as (_ & _ & _ & _ & Hc0 & Hf0 & _ & _).
  rewrite Ht in Hc0. rewrite Hflag in Hf0.
  pose proof (wf_complete_queue_maxsize _ Hwf) as Hcq.
  change (replicate 6 (L_unit k eng)) with
    [L_unit k eng; L_unit k eng; L_unit k eng;
     L_unit k eng; L_unit k eng; L_unit k eng].
  erewrite exec_cons_Some.
  2: { unfold step. rewrite Hk. simpl. unfold unit_step.
       rewrite Hpc, Hp, Hc0. simpl. reflexivity. }
  erewrite exec_cons_Some.
  2: { unfold step. simpl. rewrite lookup_insert_eq. simpl.
       unfold unit_step. simpl. rewrite put_unbounded by done. simpl.
       reflexivity. }
  erewrite exec_cons_Some.
  2: { unfold step. simpl. rewrite lookup_insert_eq. simpl. reflexivity. }
  erewrite exec_cons_Some.
  2: { unfold step. simpl. rewrite lookup_insert_eq. simpl.
       unfold unit_step. simpl. rewrite Hf0. reflexivity. }
  erewrite exec_cons_Some.
  2: { unfold step. simpl. rewrite lookup_insert_eq. simpl. reflexivity. }
  erewrite exec_cons_Some.
  2: { unfold step. simpl. rewrite lookup_insert_eq. simpl.
       unfold unit_step. simpl. rewrite Hf0. reflexivity. }
  simpl. eexists _, _. split; [reflexivity|]. simpl.
  rewrite lookup_insert_eq. split_and!; done.
Qed.

(** C8. Retirement is graceful. (1) Once a unit has seen its redundant
    flag set, the flag is set for good and the unit claims no task: along
    every run it either is still registered, with no new claim, or it had
    stopped, with no new claim, before the monitor dropped it. (2) A unit
    that owns a task cannot be stopped, dropped or replaced before it has
    pushed the task (or has caught an exception of its processing): it can
    always run its next statement, the monitor does nothing to it but set
    its flag, and along every run it still owns the task until the push
    (or the handler) is in the history. (3) A unit whose flag is set while
    it converts, and whose conversion returns, records the outcome, pushes
    the task and then stops, claiming nothing. *)
Theorem retirement_is_graceful idents s k w :
  reachable idents s →
  worker_threads (monitor s) !! k = Some w →
  (observed_redundant w = true →
     redundant_flag w = true
     ∧ ∀ ls s', exec idents ls s = Some s' →
         retired_since s k s'
         ∨ ∃ ls1 ls2 s1 w1,
             ls = ls1 ++ ls2 ∧ exec idents ls1 s = Some s1
             ∧ claims_by s1 k = claims_by s k
             ∧ worker_threads (monitor s1) !! k = Some w1 ∧ pc w1 = W_stopped)
  ∧ (∀ tid, busy_with w tid →
       (∀ eng, ∃ s', step idents (L_unit k eng) s = Some s')
       ∧ (∀ raises s', step idents (L_monitor raises) s = Some s' →
            ∃ w', worker_threads (monitor s') !! k = Some w'
                  ∧ (w' = w ∨ w' = redundant_flag_set w))
       ∧ ∀ ls s', exec idents ls s = Some s' →
           busy_since s k tid s'
           ∨ finished_by s k tid < finished_by s' k tid)
  ∧ (∀ t eng w0 b,
       pc w = W_process → current_task w = CT_task t →
       redundant_flag w = true →
       process_item eng w = (w0, Ok b) →
       ∃ s' w',
         exec idents (replicate 6 (L_unit k eng)) s = Some s'
         ∧ worker_threads (monitor s') !! k = Some w'
         ∧ pc w' = W_stopped
         ∧ items (complete_queue (monitor s'))
           = items (complete_queue (monitor s)) ++ [set_success b t]
         ∧ task_queue (monitor s') = task_queue (monitor s)
         ∧ claims_by s' k = claims_by s k
         ∧ pushed s' (task_id t) = S (pushed s (task_id t))).
Proof.
  intros Hr Hk.
  destruct (reachable_invariants idents every s Hr) as [Hwf _].
  split_and!.
  - intros Hobs.
    split; [by destruct (ok_observed _ _ (wf_units _ Hwf _ _ Hk) Hobs)|].
    intros ls s' Hrun. eapply retired_exec; [done| |done].
    split; [done|]. eauto.
  - intros tid Hbusy. split_and!.
    + intros eng. by eapply busy_is_enabled.
    + intros raises s' Hstep. unfold step in Hstep. simpl in Hstep.
      destruct (monitor_step idents raises _ _) as [[[self' pc'] evs]|] eqn:Hm;
        [|done].
      injection Hstep as <-. simpl.
      eapply monitor_step_alive; [done..|].
      unfold isAlive. apply bool_decide_eq_true_2.
      by destruct Hbusy as [[->| ->] _].
    + intros ls s' Hrun. eapply busy_exec; [done| |done].
      split; [done|]. eauto.
  - intros t eng w0 b Hpc Ht Hflag Hp.
    destruct (signalled_unit_finishes_then_stops idents s k w t eng w0 b)
      as (s' & w' & Hrun & Hk' & Hpc' & _ & Hcq & Htq & Htr); [done..|].
    exists s', w'. split_and!; try done.
    + unfold claims_by. rewrite Htr. simpl. lia.
    + unfold pushed. rewrite Htr. simpl. unfold hit, only.
      by rewrite bool_decide_eq_true_2.
Qed.

Lemma retirement_witness :
  let s := state_after signalled_while_busy one_pending_task in
  let w := default (WorkerThread_init 0 EmptyString)
             (worker_threads (monitor s) !! 0) in
  (observed_redundant w = true →
     redundant_flag w = true
     ∧ ∀ ls s', exec example_idents ls s = Some s' →
         retired_since s 0 s'
         ∨ ∃ ls1 ls2 s1 w1,
             ls = ls1 ++ ls2 ∧ exec example_idents ls1 s = Some s1
             ∧ claims_by s1 0 = claims_by s 0
             ∧ worker_threads (monitor s1) !! 0 = Some w1 ∧ pc w1 = W_stopped)
  ∧ (∀ tid, busy_with w tid →
       (∀ eng, ∃ s', step example_idents (L_unit 0 eng) s = Some s')
       ∧ (∀ raises s', step example_idents (L_monitor raises) s = Some s' →
            ∃ w', worker_threads (monitor s') !! 0 = Some w'
                  ∧ (w' = w ∨ w' = redundant_flag_set w))
       ∧ ∀ ls s', exec example_idents ls s = Some s' →
           busy_since s 0 tid s'
           ∨ finished_by s 0 tid < finished_by s' 0 tid)
  ∧ (∀ t eng w0 b,
       pc w = W_process → current_task w = CT_task t →
       redundant_flag w = true →
       process_item eng w = (w0, Ok b) →
       ∃ s' w',
         exec example_idents (replicate 6 (L_unit 0 eng)) s = Some s'
         ∧ worker_threads (monitor s') !! 0 = Some w'
         ∧ pc w' = W_stopped
         ∧ items (complete_queue (monitor s'))
           = items (complete_queue (monitor s)) ++ [set_success b t]
         ∧ task_queue (monitor s') = task_queue (monitor s)
         ∧ claims_by s' 0 = claims_by s 0
         ∧ pushed s' (task_id t) = S (pushed s (task_id t))).
Proof.
  apply (retirement_is_graceful example_idents
           (state_after signalled_while_busy one_pending_task) 0).
  - exists (example_settings 1), [example_task 7 "a.mkv"], [], signalled_while_busy.
    vm_compute. reflexivity.
  - vm_compute. reflexivity.
Defined.

Lemma signalled_while_busy_state :
  ∃ w, worker_threads
         (monitor (state_after signalled_while_busy one_pending_task)) !! 0
       = Some w
       ∧ redundant_flag w = true ∧ busy_with w 7.
Proof.
  eexists. split; [vm_compute; reflexivity|].
  split; [done|]. split; [by left|]. eexists. by split.
Qed.

Lemma process_item_raises eng w t e :
  current_task w = CT_task t →
  engine_raises eng e →
  process_item eng w
  = (WorkerThread_log (name w +:+ " running job - " +:+ source_abspath t)
       EmptyString "info" w,
     Raise e).
Proof.
  intros Ht Heng. unfold process_item. rewrite Ht.
  destruct Heng as [->|[[-> ->]|(-> & (arg & args & ->) & ->)]]; done.
Qed.

Lemma raised_task_is_lost idents s tid :
  reachable idents s →
  pulled s tid = 1 →
  1 ≤ raised s tid →
  pushed s tid = 0
  ∧ in_list (only tid) (items (complete_queue (monitor s))) = 0
  ∧ taken s tid = 0 ∧ marked s tid = 0
  ∧ in_list (only tid) (processed (job_queue (monitor s))) = 0
  ∧ handed_off s tid = 1
  ∧ in_list (only tid) (items (task_queue (monitor s))) = 0
  ∧ claimed s tid = 1 ∧ raised s tid = 1 ∧ completed s tid = 0
  ∧ units_sum (processing (only tid)) (worker_threads (monitor s)) = 0
  ∧ units_sum (about_to_push (only tid)) (worker_threads (monitor s)) = 0.
Proof.
  intros Hr Hpull Hraise.
  destruct (reachable_invariants idents (only tid) s Hr)
    as [Hwf [H1 H2 H3 H4 H5 H6 H7]].
  unfold pulled, completed, raised, pushed, marked, taken, handed_off, claimed
    in *.
  split_and!; lia.
Qed.

Lemma succeeded_le_completed s tid : succeeded s tid ≤ completed s tid.
Proof.
  apply tally_le. intros e. destruct e as [| | |? ? []| | | |]; simpl; lia.
Qed.

(** A unit that has not stopped can run its next statement: nothing it
    does blocks. *)
Lemma unit_is_enabled idents s k w eng :
  well_formed s →
  worker_threads (monitor s) !! k = Some w →
  pc w ≠ W_stopped →
  ∃ s', step idents (L_unit k eng) s = Some s'.
Proof.
  intros Hwf Hk Hpc. unfold step. rewrite Hk. simpl.
  assert (∃ r, unit_step eng k w (task_queue (monitor s))
                 (complete_queue (monitor s)) = Some r)
    as [[[[w' tq] cq] evs] ->]; [|simpl; eauto].
  pose proof (ok_task _ _ (wf_units _ Hwf _ _ Hk)) as Htask.
  unfold unit_step. destruct (pc w) eqn:Hpc'; try done; eauto.
  - destruct (redundant_flag w); eauto.
  - destruct (redundant_flag w); eauto.
  - destruct (empty _); eauto.
  - destruct (get_nowait _) as [[? ?]|]; eauto.
  - destruct Htask as [t Ht]; [by left|].
    destruct (process_item eng w) as [w0 [b|e]] eqn:Hp;
      [|destruct e; eauto].
    apply process_item_fields in Hp.
    destruct Hp as (_ & _ & _ & _ & Hc0 & _ & _ & _).
    rewrite Hc0, Ht. eauto.
  - destruct Htask as [t Ht]; [by right|]. rewrite Ht.
    rewrite put_unbounded by apply Hwf. simpl. eauto.
Qed.

(** A unit at the test of line 109 whose flag is not set, with a task on
    the hand-off queue, claims that task with its next four statements. *)
Lemma polling_unit_claims_next_task idents s k w t2 rest eng :
  worker_threads (monitor s) !! k = Some w →
  pc w = W_inner →
  redundant_flag w = false →
  items (task_queue (monitor s)) = t2 :: rest →
  ∃ s2 w2,
    exec idents (replicate 4 (L_unit k eng)) s = Some s2
    ∧ worker_threads (monitor s2) !! k = Some w2
    ∧ pc w2 = W_process ∧ current_task w2 = CT_task t2
    ∧ items (task_queue (monitor s2)) = rest
    ∧ trace s2 = Ev_claim k (task_id t2) :: trace s.
Proof.
  intros Hk Hpc Hflag Hq.
  change (replicate 4 (L_unit k eng)) with
    [L_unit k eng; L_unit k eng; L_unit k eng; L_unit k eng].
  erewrite exec_cons_Some.
  2: { unfold step. rewrite Hk. simpl. unfold unit_step.
       rewrite Hpc, Hflag. simpl. reflexivity. }
  erewrite exec_cons_Some.
  2: { unfold step. simpl. rewrite lookup_insert_eq. simpl.
       unfold unit_step, empty. simpl. rewrite Hq. simpl. reflexivity. }
  erewrite exec_cons_Some.
  2: { unfold step. simpl. rewrite lookup_insert_eq. simpl. reflexivity. }
  erewrite exec_cons_Some.
  2: { unfold step. simpl. rewrite lookup_insert_eq. simpl.
       unfold unit_step, get_nowait. simpl. rewrite Hq. simpl. reflexivity. }
  simpl. eexists _, _. split; [reflexivity|]. simpl.
  rewrite lookup_insert_eq. by split_and!.
Qed.

(** C6 (as the code has it). Line 117 is left by an exception [e] of the
    engine (creating the output directory, generating the parameters or
    converting raised it). In every case the success flag of the task is
    not assigned, the other units, the queues and the monitor are as they
    were, the unit has only its log and its position changed (its
    redundant flag is as it was), and, the task having been pulled once, no
    later run assigns its flag or pushes it.
    - If [e] is of class [Exception] and is not [queue.Empty], the handler
      of line 127 logs it at level "exception" with [str(e)].
    - If [e] is [queue.Empty], the handler of line 125 runs: nothing is
      logged.
    - In both cases the loop goes on: the unit is alive, at the test of
      line 109, can run it, and, its flag not being set, claims the task
      that is next on the hand-off queue with its next four statements.
    - If [e] is not of class [Exception], no handler catches it: the
      thread of the unit ends, and the unit runs no further statement. *)
Theorem exception_is_caught_per_task idents s k w t eng e :
  reachable idents s →
  worker_threads (monitor s) !! k = Some w →
  pc w = W_process →
  current_task w = CT_task t →
  engine_raises eng e →
  let w0 :=
    WorkerThread_log (name w +:+ " running job - " +:+ source_abspath t)
      EmptyString "info" w in
  ∃ s' w',
    step idents (L_unit k eng) s = Some s'
    ∧ worker_threads (monitor s') = <[k := w']> (worker_threads (monitor s))
    ∧ current_task w' = CT_task t
    ∧ redundant_flag w' = redundant_flag w ∧ idle w' = idle w
    ∧ trace s' = Ev_raise k (task_id t) :: trace s
    ∧ monitor_pc s' = monitor_pc s
    ∧ task_queue (monitor s') = task_queue (monitor s)
    ∧ complete_queue (monitor s') = complete_queue (monitor s)
    ∧ job_queue (monitor s') = job_queue (monitor s)
    ∧ (∀ ls s'', exec idents ls s' = Some s'' →
         pulled s'' (task_id t) = 1 →
         completed s'' (task_id t) = 0 ∧ succeeded s'' (task_id t) = 0
         ∧ pushed s'' (task_id t) = 0)
    ∧ (caught_and_logged e →
         w' = goto W_inner
                (WorkerThread_log
                   ("Exception in processing job with " +:+ name w +:+ ":")
                   (str_exn e) "exception" w0)
         ∧ last (logger w')
           = Some (log_record
                     ("Exception in processing job with " +:+ name w +:+ ":")
                     (str_exn e) "exception"))
    ∧ (e = QueueEmpty → w' = goto W_inner w0)
    ∧ ((∀ msg, e ≠ BaseException msg) →
         pc w' = W_inner ∧ isAlive w' = true
         ∧ (∀ eng', ∃ s'', step idents (L_unit k eng') s' = Some s'')
         ∧ (redundant_flag w = false →
            ∀ t2 rest eng', items (task_queue (monitor s)) = t2 :: rest →
              ∃ s2 w2,
                exec idents (replicate 4 (L_unit k eng')) s' = Some s2
                ∧ worker_threads (monitor s2) !! k = Some w2
                ∧ pc w2 = W_process ∧ current_task w2 = CT_task t2
                ∧ trace s2 = Ev_claim k (task_id t2) :: trace s'))
    ∧ (∀ msg, e = BaseException msg →
         w' = goto W_stopped w0 ∧ isAlive w' = false
         ∧ ∀ eng', step idents (L_unit k eng') s' = None).
Proof.
  intros Hr Hk Hpc Ht Heng w0.
  set (w' := match e with
             | QueueEmpty => goto W_inner w0
             | BaseException _ => goto W_stopped w0
             | _ => goto W_inner
                      (WorkerThread_log
                         ("Exception in processing job with " +:+ name w +:+ ":")
                         (str_exn e) "exception" w0)
             end).
  assert (step idents (L_unit k eng) s
          = Some {| monitor :=
                      set_worker_threads (<[k := w']> (worker_threads (monitor s)))
                        (set_task_queue (task_queue (monitor s))
                           (set_complete_queue (complete_queue (monitor s))
                              (monitor s)));
                    monitor_pc := monitor_pc s;
                    trace := [Ev_raise k (task_id t)] ++ trace s |}) as Hstep.
  { unfold step. rewrite Hk. simpl. unfold unit_step. rewrite Hpc.
    rewrite (process_item_raises eng w t e Ht Heng). simpl. rewrite Ht.
    subst w' w0. by destruct e. }
  match type of Hstep with _ = Some ?x => set (s' := x) in * end.
  assert (well_formed s') as Hwf'
    by (by apply (reachable_invariants idents every),
                 (reachable_step _ _ _ _ Hr Hstep)).
  assert (worker_threads (monitor s') !! k = Some w') as Hk'
    by (simpl; apply lookup_insert_eq).
  exists s', w'. split; [exact Hstep|]. split; [done|].
  split; [by destruct e|]. split; [by destruct e|]. split; [by destruct e|].
  split; [done|]. split; [done|]. split; [done|]. split; [done|].
  split; [done|]. split.
  { intros ls s'' Hrun Hpull.
    assert (reachable idents s'') as Hr''.
    { eapply reachable_exec; [|exact Hrun]. by eapply reachable_step. }
    destruct (exec_trace _ _ _ _ Hrun) as [evs Hevs]. simpl in Hevs.
    destruct (raised_task_is_lost idents s'' (task_id t) Hr'' Hpull)
      as (? & _ & _ & _ & _ & _ & _ & _ & _ & ? & _).
    { unfold raised. rewrite Hevs, tally_app. simpl. unfold hit, only.
      rewrite bool_decide_eq_true_2 by done. lia. }
    pose proof (succeeded_le_completed s'' (task_id t)).
    split_and!; [done|lia|done]. }
  split.
  { intros Hc. destruct e; try done; (split; [done|apply last_snoc]). }
  split; [by intros ->|]. split.
  - intros Hnb.
    assert (pc w' = W_inner) as Hpc'
      by (destruct e; try done; by destruct (Hnb msg)).
    assert (redundant_flag w' = redundant_flag w) as Hfl by (by destruct e).
    split; [done|]. split.
    { unfold isAlive. rewrite Hpc'. by apply bool_decide_eq_true_2. }
    split.
    + intros eng'. eapply unit_is_enabled; [exact Hwf'|exact Hk'|].
      by rewrite Hpc'.
    + intros Hflag t2 rest eng' Hq.
      destruct (polling_unit_claims_next_task idents s' k w' t2 rest eng')
        as (s2 & w2 & ? & ? & ? & ? & _ & ?); try done.
      * by rewrite Hfl.
      * eauto 10.
  - intros msg ->. split; [done|]. split; [done|].
    intros eng'. unfold step. rewrite Hk'. simpl. done.
Qed.

Lemma exception_witness :
  let s := state_after one_task_claimed one_pending_task in
  let e := Exception "ffmpeg exited with code 1" in
  ∃ s' w',
    step example_idents (L_unit 0 engine_fails_to_convert) s = Some s'
    ∧ worker_threads (monitor s') !! 0 = Some w'
    ∧ current_task w' = CT_task (example_task 7 "a.mkv")
    ∧ (caught_and_logged e →
         last (logger w')
         = Some (log_record "Exception in processing job with Worker-0:"
                   "ffmpeg exited with code 1" "exception"))
    ∧ ((∀ msg, e ≠ BaseException msg) →
         pc w' = W_inner ∧ isAlive w' = true).
Proof.
  destruct (exception_is_caught_per_task example_idents
              (state_after one_task_claimed one_pending_task) 0
              (default (WorkerThread_init 0 EmptyString)
                 (worker_threads
                    (monitor (state_after one_task_claimed one_pending_task))
                  !! 0))
              (example_task 7 "a.mkv") engine_fails_to_convert
              (Exception "ffmpeg exited with code 1"))
    as (s' & w' & H1 & H2 & H3 & _ & _ & _ & _ & _ & _ & _ & _ & H12 & _
        & H14 & _).
  - exists (example_settings 1), [example_task 7 "a.mkv"], [], one_task_claimed.
    vm_compute. reflexivity.
  - vm_compute. reflexivity.
  - vm_compute. reflexivity.
  - vm_compute. reflexivity.
  - right. right. split; [done|]. split; [|done]. by eexists _, _.
  - exists s', w'. split; [exact H1|].
    split; [rewrite H2; apply lookup_insert_eq|]. split; [exact H3|].
    split.
    + intros Hc. exact (proj2 (H12 Hc)).
    + intros Hnb. destruct (H14 Hnb) as (Ha & Hb & _). split; [exact Ha|exact Hb].
Defined.

(** C6, as stated, fails: the conversion raises [queue.Empty]; the handler
    of line 125 runs, and nothing is logged about the exception. *)
Lemma engine_queue_Empty_is_not_logged :
  ¬ every_engine_exception_is_logged example_idents.
Proof.
  intros Hall.
  destruct (Hall (state_after one_task_claimed one_pending_task) 0
              (default (WorkerThread_init 0 EmptyString)
                 (worker_threads
                    (monitor (state_after one_task_claimed one_pending_task))
                  !! 0))
              (example_task 7 "a.mkv") engine_raises_queue_Empty QueueEmpty)
    as (s' & w' & Hstep & Hk' & _ & Hlog).
  - exists (example_settings 1), [example_task 7 "a.mkv"], [], one_task_claimed.
    vm_compute. reflexivity.
  - vm_compute. reflexivity.
  - vm_compute. reflexivity.
  - vm_compute. reflexivity.
  - right. right. split; [done|]. split; [|done]. by eexists _, _.
  - vm_compute in Hstep. injection Hstep as <-.
    vm_compute in Hk'. injection Hk' as <-.
    vm_compute in Hlog. discriminate.
Qed.

(** The same run with an exception that is not of class [Exception]: the
    thread of the unit has ended, with the task. *)
Lemma engine_exit_ends_the_unit :
  let s := state_after (one_task_claimed ++ [L_unit 0 engine_exits])
             one_pending_task in
  ∃ w, worker_threads (monitor s) !! 0 = Some w
       ∧ isAlive w = false
       ∧ current_task w = CT_task (example_task 7 "a.mkv")
       ∧ raised s 7 = 1.
Proof. vm_compute. eexists. by split_and!. Qed.

(** ** What [get_status] reports after an exception *)

(** C5 at the failing input. The conversion of the only task raised; the
    unit went back to polling, found the queue empty, slept, and set
    [idle]. No unit owns a task, and yet [get_status] reports the file and
    the progress of the failed task: line 124 is not run on this path. *)
Lemma get_status_reports_failed_task :
  let s := state_after one_task_raises one_pending_task in
  reachable example_idents s
  ∧ raised s 7 = 1
  ∧ units_sum (processing every) (worker_threads (monitor s)) = 0
  ∧ units_sum (about_to_push every) (worker_threads (monitor s)) = 0
  ∧ ∃ w, worker_threads (monitor s) !! 0 = Some w
         ∧ pc w = W_inner
         ∧ status_idle (get_status w) = true
         ∧ status_current_file (get_status w) = "a.mkv"
         ∧ status_progress (get_status w) !! "percent" = Some "50".
Proof.
  split.
  { exists (example_settings 1), [example_task 7 "a.mkv"], [], one_task_raises.
    vm_compute. reflexivity. }
  split; [vm_compute; reflexivity|].
  split; [vm_compute; reflexivity|].
  split; [vm_compute; reflexivity|].
  eexists. split; [vm_compute; reflexivity|].
  split_and!; vm_compute; reflexivity.
Qed.

(** The sibling path: after a conversion that returned, line 124 has reset
    [current_task], and [get_status] reports no file and no progress. *)
Lemma get_status_after_push :
  let s := state_after one_task_reported one_pending_task in
  ∃ w, worker_threads (monitor s) !! 0 = Some w
       ∧ status_idle (get_status w) = true
       ∧ status_current_file (get_status w) = EmptyString
       ∧ status_progress (get_status w) = ∅.
Proof.
  eexists. split; [vm_compute; reflexivity|].
  split_and!; vm_compute; reflexivity.
Qed.

(** ** The registry after a sequence of resizes *)

(** C3 at the failing input. The limit goes 2, 1, 3, 2 and worker 1 stops
    in between. [initWorkerThreads] returns with the limit 2 and the
    workers 0 and 2 registered, both alive and neither marked redundant:
    worker 1 is missing and worker 2 stays. The next call looks up key 1
    and ends in [KeyError], which ends the monitor thread. *)
Lemma registry_gap_after_resizes :
  let s := state_after limit_2_1_3_2 nothing_pending in
  reachable example_idents s
  ∧ monitor_pc s = S_loop
  ∧ NUMBER_OF_WORKERS (settings (monitor s)) = 2%Z
  ∧ (fun w => (isAlive w, redundant_flag w)) <$> worker_threads (monitor s)
    = <[0 := (true, false)]> (<[2 := (true, false)]> ∅)
  ∧ ¬ dense_keys (worker_threads (monitor s))
  ∧ initWorkerThreads example_idents (monitor s) = Raise (KeyError 1)
  ∧ monitor_pc (state_after (monitor_steps 2) s) = S_crashed (KeyError 1).
Proof.
  split.
  { exists (example_settings 2), [], [], limit_2_1_3_2.
    vm_compute. reflexivity. }
  split_and!; try (vm_compute; reflexivity).
  intros Hd. vm_compute in Hd. discriminate.
Qed.

(** * Further properties of the code *)

(** ** [process_item] *)

(** X1. What [process_item] returns, for a unit that owns a task: [True]
    exactly when the output directory could be made, the generated
    arguments are not empty and the conversion returned [True]; [False]
    when the arguments are empty (the conversion is then not run) or the
    conversion returned [False]; it is left by an exception exactly when
    one of the three calls raises, and then by the exception of that call,
    whatever its class. The last line it logs is at level "info" for
    [True] and "warning" for [False]. *)
Theorem process_item_outcome eng w t :
  current_task w = CT_task t →
  let r := (process_item eng w).2 in
  let nonempty := ∃ arg args, generate_ffmpeg_args eng = Returns (arg :: args) in
  (r = Ok true ↔
     ensureDir eng = Returns () ∧ nonempty
     ∧ convert_file_and_fetch_progress eng = Returns true)
  ∧ (r = Ok false ↔
       ensureDir eng = Returns ()
       ∧ (generate_ffmpeg_args eng = Returns []
          ∨ nonempty ∧ convert_file_and_fetch_progress eng = Returns false))
  ∧ (∀ msg, r = Raise (Exception msg) ↔ engine_raises eng (Exception msg))
  ∧ (∀ e, r = Raise e ↔ engine_raises eng e)
  ∧ (∀ b, r = Ok b →
       last (logger (process_item eng w).1)
       = Some (log_record
                 ((if b then "Successfully converted file '"
                   else "Failed to convert file '")
                    +:+ source_abspath t +:+ "'")
                 EmptyString (if b then "info" else "warning"))).
Proof.
  intros Ht. unfold process_item, engine_raises. rewrite Ht.
  destruct (ensureDir eng) as [[]|m1];
    destruct (generate_ffmpeg_args eng) as [[|a args]|m2];
    destruct (convert_file_and_fetch_progress eng) as [[|]|m3]; simpl;
    (split_and!;
     [ split; [done || (intros _; split_and!; eauto) | by intros (? & (? & ? & ?) & ?)]
     | split; [done || (intros _; split; eauto)
              | intros (? & [?|[(? & ? & ?) ?]]); congruence]
     | intros msg; split;
       [ intros Hr; simplify_eq; eauto 10
       | intros [?|[[? ?]|(? & (? & ? & ?) & ?)]]; congruence ]
     | intros e; split;
       [ intros Hr; simplify_eq; eauto 10
       | intros [?|[[? ?]|(? & (? & ? & ?) & ?)]]; congruence ]
     | intros b Hr; simplify_eq; try apply last_snoc ]).
Qed.

Lemma process_item_outcome_witness :
  let w := set_current_task (CT_task (example_task 7 "a.mkv"))
             (started_worker example_idents 0) in
  (process_item engine_converts w).2 = Ok true
  ∧ (process_item engine_fails_to_convert w).2
    = Raise (Exception "ffmpeg exited with code 1").
Proof.
  set (w := set_current_task (CT_task (example_task 7 "a.mkv"))
              (started_worker example_idents 0)).
  pose proof (process_item_outcome engine_converts w
                (example_task 7 "a.mkv") eq_refl) as (H1 & _).
  pose proof (process_item_outcome engine_fails_to_convert w
                (example_task 7 "a.mkv") eq_refl) as (_ & _ & H3 & _).
  split.
  - apply H1. split_and!; [done| |done]. by eexists _, _.
  - apply H3. right. right. split_and!; [done| |done]. by eexists _, _.
Defined.

(** ** [getJobProgress] and [get_status] *)

(** X2. The progress dictionary of [get_status] is empty exactly when the
    unit holds no task ([None] or the empty dictionary), and so is the
    reported file name; when the unit holds a task the dictionary has
    exactly the ten keys, each with the field of the task of that name, and
    the file name is the base name of the task. *)
Theorem get_status_progress self :
  (status_progress (get_status self) = ∅ ↔
     ∀ t, current_task self ≠ CT_task t)
  ∧ ((∀ t, current_task self ≠ CT_task t) →
       status_current_file (get_status self) = EmptyString)
  ∧ ∀ t, current_task self = CT_task t →
      let p := status_progress (get_status self) in
      dom p = progress_keys ∧ size p = 10
      ∧ p !! "duration" = Some (duration (ffmpeg t))
      ∧ p !! "src_fps" = Some (src_fps (ffmpeg t))
      ∧ p !! "elapsed" = Some (elapsed (ffmpeg t))
      ∧ p !! "time" = Some (time (ffmpeg t))
      ∧ p !! "percent" = Some (percent (ffmpeg t))
      ∧ p !! "frame" = Some (frame (ffmpeg t))
      ∧ p !! "fps" = Some (fps (ffmpeg t))
      ∧ p !! "speed" = Some (speed (ffmpeg t))
      ∧ p !! "bitrate" = Some (bitrate (ffmpeg t))
      ∧ p !! "file_size" = Some (file_size (ffmpeg t))
      ∧ status_current_file (get_status self) = source_basename t.
Proof.
  assert (∀ t, current_task self = CT_task t →
               dom (getJobProgress self) = progress_keys) as Hdom.
  { intros t Ht. unfold getJobProgress. rewrite Ht.
    rewrite !dom_insert_L, dom_empty_L. vm_compute. reflexivity. }
  split_and!.
  - split.
    + intros Hp t Ht. specialize (Hdom t Ht). simpl in Hp.
      rewrite Hp, dom_empty_L in Hdom. vm_compute in Hdom. discriminate.
    + intros Hno. simpl. unfold getJobProgress.
      destruct (current_task self) as [| |t]; [done..|]. by destruct (Hno t).
  - intros Hno. simpl.
    destruct (current_task self) as [| |t]; [done..|]. by destruct (Hno t).
  - intros t Ht p. subst p. simpl. split; [by eapply Hdom|].
    split; [rewrite <- size_dom, (Hdom t Ht); vm_compute; reflexivity|].
    unfold getJobProgress. rewrite Ht. split_and!; vm_compute; reflexivity.
Qed.

(** ** [initWorkerThreads], [startWorkerThread] *)

Lemma initWorkerThreads_starts_missing_witness :
  ∃ self', initWorkerThreads example_idents (pool_with_limit 4) = Ok self'
    ∧ dom (worker_threads self') = set_seq 0 (Z.to_nat 4)
    ∧ (∀ k w, worker_threads (pool_with_limit 4) !! k = Some w →
         worker_threads self' !! k = Some w)
    ∧ remove_list self' = remove_list (pool_with_limit 4).
Proof.
  apply (initWorkerThreads_starts_missing_workers example_idents
           (pool_with_limit 4)).
  - vm_compute. reflexivity.
  - change (map_Forall (fun (_ : nat) w => isAlive w = true)
              (worker_threads (pool_with_limit 4))).
    refine (bool_decide_unpack _ _). vm_compute. exact I.
  - vm_compute. discriminate.
Defined.

Lemma initWorkerThreads_drops_stopped_witness :
  ∃ self',
    initWorkerThreads example_idents pool_with_stopped_workers = Ok self'
    ∧ dom (worker_threads self') = set_seq 0 (Z.to_nat 1)
    ∧ (∀ k w, worker_threads self' !! k = Some w →
         worker_threads pool_with_stopped_workers !! k = Some w).
Proof.
  apply (initWorkerThreads_drops_stopped_workers example_idents
           pool_with_stopped_workers).
  - vm_compute. reflexivity.
  - vm_compute. split; discriminate.
  - change (map_Forall
              (fun (k : nat) w => isAlive w = bool_decide (Z.of_nat k < 1)%Z)
              (worker_threads pool_with_stopped_workers)).
    refine (bool_decide_unpack _ _). vm_compute. exact I.
Defined.

(** X5. At the configured limit [initWorkerThreads] changes nothing: with
    dense keys, every worker alive and as many workers as configured, it
    returns the monitor as it was (registry, [remove_list] and log
    included). *)
Theorem initWorkerThreads_fixed_point idents self :
  dense_keys (worker_threads self) →
  (∀ k w, worker_threads self !! k = Some w → isAlive w = true) →
  Z.of_nat (size (worker_threads self)) = NUMBER_OF_WORKERS (settings self) →
  initWorkerThreads idents self = Ok self.
Proof.
  intros Hd Hal HN. unfold initWorkerThreads.
  rewrite (remove_dead_workers_dense _ Hd). simpl.
  rewrite (live_workers_all_alive _ Hal).
  assert (set_worker_threads (worker_threads self) self = self) as ->
    by (by destruct self).
  unfold spawn_missing_workers. rewrite (proj2 (Z.ltb_ge _ _)) by lia.
  apply mark_redundant_workers_no_excess. lia.
Qed.

Lemma initWorkerThreads_fixed_point_witness :
  initWorkerThreads example_idents (pool_with_limit 2) = Ok (pool_with_limit 2).
Proof.
  apply (initWorkerThreads_fixed_point example_idents (pool_with_limit 2)).
  - vm_compute. reflexivity.
  - change (map_Forall (fun (_ : nat) w => isAlive w = true)
              (worker_threads (pool_with_limit 2))).
    refine (bool_decide_unpack _ _). vm_compute. exact I.
  - vm_compute. reflexivity.
Defined.

(** ** What a call of [initWorkerThreads] that returns has done *)

Lemma spawn_loop_lookup idents l : ∀ self k,
  worker_threads (foldl (spawn_body idents) self l) !! k =
    match worker_threads self !! k with
    | Some w => Some w
    | None => if bool_decide (k ∈ l) then Some (started_worker idents k)
              else None
    end.
Proof.
  induction l as [|i l IH]; intros self k; simpl.
  - by destruct (worker_threads self !! k).
  - rewrite IH. unfold spawn_body.
    destruct (worker_threads self !! i) as [wi|] eqn:Hi.
    + destruct (worker_threads self !! k) as [w|] eqn:Hk; [done|].
      assert (k ∈ i :: l ↔ k ∈ l) as Hiff
        by (rewrite elem_of_cons; split; [intros [->|?]; congruence|tauto]).
      by rewrite (bool_decide_ext _ _ Hiff).
    + simpl. destruct (decide (k = i)) as [->|Hne].
      * rewrite lookup_insert_eq, Hi.
        rewrite bool_decide_eq_true_2 by (by left). done.
      * rewrite lookup_insert_ne by done.
        destruct (worker_threads self !! k); [done|].
        assert (k ∈ i :: l ↔ k ∈ l) as Hiff
          by (rewrite elem_of_cons; tauto).
        by rewrite (bool_decide_ext _ _ Hiff).
Qed.

Lemma spawn_loop_logger idents l : ∀ self,
  worker_logger (foldl (spawn_body idents) self l) = worker_logger self.
Proof.
  induction l as [|i l IH]; intros self; simpl; [done|].
  rewrite IH. unfold spawn_body. by destruct (worker_threads self !! i).
Qed.

Lemma spawn_missing_workers_lookup idents self k :
  let N := NUMBER_OF_WORKERS (settings self) in
  let m := worker_threads self in
  worker_threads (spawn_missing_workers idents self) !! k =
    match m !! k with
    | Some w => Some w
    | None =>
        if bool_decide ((Z.of_nat (size m) < N)%Z ∧ (Z.of_nat k < N)%Z)
        then Some (started_worker idents k) else None
    end.
Proof.
  intros N m. unfold spawn_missing_workers. fold N m.
  destruct (Z.ltb_spec (Z.of_nat (size m)) N) as [Hlt|Hge].
  - rewrite spawn_loop_lookup. simpl. fold m.
    destruct (m !! k); [done|].
    repeat case_bool_decide; try done.
    + exfalso. rewrite elem_of_seq in *. lia.
    + exfalso. rewrite elem_of_seq in *. lia.
  - destruct (m !! k) eqn:Hk; fold m; rewrite Hk; [done|].
    rewrite bool_decide_eq_false_2; [done|lia].
Qed.

Lemma spawn_missing_workers_fields idents self :
  let N := NUMBER_OF_WORKERS (settings self) in
  let self' := spawn_missing_workers idents self in
  settings self' = settings self ∧ job_queue self' = job_queue self
  ∧ task_queue self' = task_queue self
  ∧ complete_queue self' = complete_queue self
  ∧ abort_flag self' = abort_flag self
  ∧ remove_list self' = remove_list self
  ∧ worker_logger self'
    = worker_logger self
        ++ (if (Z.of_nat (size (worker_threads self)) <? N)%Z
            then [spawning_record] else []).
Proof.
  intros N self'. subst self'. unfold spawn_missing_workers. fold N.
  destruct (Z.of_nat (size (worker_threads self)) <? N)%Z.
  - match goal with |- context [foldl ?f ?s ?l] =>
      destruct (spawn_loop_registry idents l s) as (_ & _ & Hset & Hrem);
      destruct (pool_change_fields _ _ (spawn_loop_pool_change idents l s))
        as (_ & Hjq & Htq & Hcq & Hab);
      pose proof (spawn_loop_logger idents l s) as Hlog
    end.
    simpl in *. by rewrite Hset, Hjq, Htq, Hcq, Hab, Hrem, Hlog.
  - by rewrite app_nil_r.
Qed.

(** The shape of a call of [initWorkerThreads] that returns. *)
Lemma initWorkerThreads_Ok idents self self' :
  initWorkerThreads idents self = Ok self' →
  let N := NUMBER_OF_WORKERS (settings self) in
  let self2 :=
    spawn_missing_workers idents
      (set_worker_threads (live_workers (worker_threads self)) self) in
  let m2 := worker_threads self2 in
  dense_keys (worker_threads self)
  ∧ ((¬ (N < Z.of_nat (size m2))%Z ∧ self' = self2)
     ∨ ((N < Z.of_nat (size m2))%Z ∧ dense_keys m2
        ∧ ∃ m', self'
                = set_remove_list
                    (remove_list self2 ++ marked_keys N m2 (seq 0 (size m2)))
                    (set_worker_threads m'
                       (Worker_log
                          "Worker Threads exceed the configured limit. Marking some for removal..."
                          EmptyString "info" self2))
                ∧ ∀ i, m' !! i = after_mark_redundant N 0 (size m2) m2 i)).
Proof.
  intros Hrun N self2 m2.
  destruct (decide (dense_keys (worker_threads self))) as [Hd|Hd].
  2:{ destruct (remove_dead_workers_not_dense self Hd) as (k & Hr & _).
      unfold initWorkerThreads in Hrun. rewrite Hr in Hrun. discriminate. }
  split; [done|].
  unfold initWorkerThreads in Hrun.
  rewrite (remove_dead_workers_dense _ Hd) in Hrun. simpl in Hrun.
  fold self2 in Hrun.
  assert (NUMBER_OF_WORKERS (settings self2) = N) as HN.
  { subst self2. by rewrite (proj1 (spawn_missing_workers_fields idents _)). }
  destruct (decide (N < Z.of_nat (size m2))%Z) as [Hlt|Hlt].
  - right. split; [done|].
    destruct (decide (dense_keys m2)) as [Hd2|Hd2].
    + split; [done|].
      destruct (mark_redundant_workers_dense self2) as (m' & Hm & Hm');
        [by rewrite HN|done|].
      rewrite Hm in Hrun. injection Hrun as <-. rewrite HN in *. eauto.
    + destruct (mark_redundant_workers_not_dense self2) as (k & Hr & _);
        [by rewrite HN|done|].
      rewrite Hr in Hrun. discriminate.
  - left. split; [done|].
    rewrite mark_redundant_workers_no_excess in Hrun by (by rewrite HN).
    by injection Hrun.
Qed.

Lemma after_mark_redundant_dom N a n (m m' : gmap nat WorkerThread) :
  (∀ i, m' !! i = after_mark_redundant N a n m i) → dom m' = dom m.
Proof.
  intros Hm. apply set_eq. intros i. rewrite !elem_of_dom, Hm.
  unfold after_mark_redundant. destruct (m !! i) as [w|]; simpl.
  - split; [eauto|]. intros _. by destruct (_ && _).
  - done.
Qed.

Lemma spawn_missing_workers_dom idents self :
  let N := NUMBER_OF_WORKERS (settings self) in
  let m := worker_threads self in
  dom (worker_threads (spawn_missing_workers idents self))
  = dom m ∪ (if bool_decide (Z.of_nat (size m) < N)%Z
             then set_seq 0 (Z.to_nat N) else ∅).
Proof.
  intros N m. apply set_eq. intros i.
  rewrite elem_of_union, !elem_of_dom, spawn_missing_workers_lookup.
  fold N m. destruct (m !! i) as [w|] eqn:Hi.
  - split; [by left|eauto].
  - repeat case_bool_decide; rewrite ?elem_of_set_seq, ?elem_of_empty;
      split; try (intros [[? ?]|?]); try (intros [? ?]); try done; try lia;
      try (right; lia); eauto.
Qed.

Lemma if_bool_decide {A} (b : bool) (P : Prop) `{!Decision P} (x y : A) :
  (b = true ↔ P) → (if b then x else y) = if bool_decide P then x else y.
Proof.
  intros HP. destruct b; case_bool_decide as HP'; try done; exfalso.
  - by apply HP', HP.
  - apply HP in HP'. discriminate.
Qed.

(** X6. A call of [initWorkerThreads] that returns leaves the settings,
    the job queue, the two queues and the abort flag as they were. It writes
    at most two lines to the log: "under the configured limit" when fewer
    live workers than configured were registered, "exceed the configured
    limit" when it returns with more workers than configured. [remove_list]
    is only appended to: the keys added are, once each, the keys of the
    workers with an id of at least the limit, when there are more workers
    than configured. *)
Theorem initWorkerThreads_frame idents self self' :
  initWorkerThreads idents self = Ok self' →
  let N := NUMBER_OF_WORKERS (settings self) in
  let excess := (N < Z.of_nat (size (worker_threads self')))%Z in
  settings self' = settings self ∧ job_queue self' = job_queue self
  ∧ task_queue self' = task_queue self
  ∧ complete_queue self' = complete_queue self
  ∧ abort_flag self' = abort_flag self
  ∧ worker_logger self'
    = worker_logger self
        ++ (if bool_decide
                 (Z.of_nat (size (live_workers (worker_threads self))) < N)%Z
            then [spawning_record] else [])
        ++ (if bool_decide excess then [marking_record] else [])
  ∧ ∃ l, remove_list self' = remove_list self ++ l ∧ NoDup l
      ∧ ∀ k, k ∈ l ↔
          excess ∧ ∃ w, worker_threads self' !! k = Some w
                        ∧ (N ≤ Z.of_nat (threadID w))%Z.
Proof.
  intros Hrun N excess.
  destruct (initWorkerThreads_Ok _ _ _ Hrun) as (Hd & Hcases).
  fold N in Hcases.
  destruct (spawn_missing_workers_fields idents
              (set_worker_threads (live_workers (worker_threads self)) self))
    as (Hset & Hjq & Htq & Hcq & Hab & Hrem & Hlog).
  simpl in Hset, Hjq, Htq, Hcq, Hab, Hrem, Hlog. fold N in Hlog.
  set (self2 := spawn_missing_workers idents
                  (set_worker_threads (live_workers (worker_threads self)) self))
    in *.
  destruct Hcases as [[Hno ->]|(Hlt & Hd2 & m' & -> & Hm')].
  - subst excess. split_and!; try done.
    + rewrite Hlog, (bool_decide_eq_false_2 _ Hno), app_nil_r.
      f_equal. apply if_bool_decide. apply Z.ltb_lt.
    + exists []. rewrite app_nil_r. split_and!; [done|constructor|].
      intros k. rewrite elem_of_nil. tauto.
  - assert (size m' = size (worker_threads self2)) as Hsize.
    { by rewrite <- !size_dom, (after_mark_redundant_dom _ _ _ _ _ Hm'). }
    subst excess. simpl. rewrite Hsize. split_and!; try done.
    + rewrite Hlog, (bool_decide_eq_true_2 _ Hlt), <- app_assoc.
      do 2 f_equal. apply if_bool_decide. apply Z.ltb_lt.
    + rewrite Hrem. eexists. split; [done|]. split.
      * unfold marked_keys. apply NoDup_filter, NoDup_seq.
      * intros k. unfold marked_keys.
        rewrite list_elem_of_filter, elem_of_seq, Hm'.
        unfold is_marked, after_mark_redundant.
        destruct (worker_threads self2 !! k) as [w|] eqn:Hk; simpl.
        -- assert (k < size (worker_threads self2))
             by (by apply dense_keys_lookup_iff).
           rewrite bool_decide_eq_true_2 by lia. simpl.
           rewrite Z.leb_le. split.
           ++ intros [Hge _]. split; [done|].
              rewrite (proj2 (Z.leb_le _ _) Hge). eauto.
           ++ intros (_ & w' & Hw' & Hge). split; [|lia].
              destruct (N <=? Z.of_nat (threadID w))%Z eqn:Hc;
                [by apply Z.leb_le|].
              by simplify_eq.
        -- split; [by intros [? _]|]. by intros (_ & ? & ? & _).
Qed.

Lemma initWorkerThreads_frame_witness :
  settings pool_of_two_marked = settings pool_of_two
  ∧ worker_logger pool_of_two_marked
    = worker_logger pool_of_two ++ [marking_record]
  ∧ ∃ l, remove_list pool_of_two_marked = remove_list pool_of_two ++ l
         ∧ NoDup l.
Proof.
  destruct (initWorkerThreads_frame example_idents pool_of_two
              pool_of_two_marked)
    as (H1 & _ & _ & _ & _ & H6 & l & H7 & H8 & _).
  - vm_compute. reflexivity.
  - split; [exact H1|]. split; [exact H6|]. exists l. split; [exact H7|exact H8].
Defined.

(** X7. The registry after a call of [initWorkerThreads] that returns.
    Its keys are those of the workers that were alive, and the keys
    [0 .. N-1] as well when fewer live workers than the limit [N] were
    registered. A worker that was alive is still registered at its key, with
    nothing but its redundant flag changed: the flag is set when the call
    returns with more than [N] workers and the id of the worker is at least
    [N]. Any other worker of the result was started by this call, at a key
    below [N], and is not marked. Every registered worker is alive. *)
Theorem initWorkerThreads_registry idents self self' :
  initWorkerThreads idents self = Ok self' →
  let N := NUMBER_OF_WORKERS (settings self) in
  let m := worker_threads self in
  let m' := worker_threads self' in
  let grows := (Z.of_nat (size (live_workers m)) < N)%Z in
  dom m' = dom (live_workers m)
           ∪ (if bool_decide grows then set_seq 0 (Z.to_nat N) else ∅)
  ∧ (∀ k w, m !! k = Some w → isAlive w = true →
       m' !! k
       = Some (if bool_decide ((N < Z.of_nat (size m'))%Z
                               ∧ (N ≤ Z.of_nat (threadID w))%Z)
               then redundant_flag_set w else w))
  ∧ (∀ k w', m' !! k = Some w' →
       (∀ w, m !! k = Some w → isAlive w = false) →
       w' = started_worker idents k ∧ (Z.of_nat k < N)%Z ∧ grows)
  ∧ (∀ k w', m' !! k = Some w' → isAlive w' = true).
Proof.
  intros Hrun N m m' grows.
  destruct (initWorkerThreads_Ok _ _ _ Hrun) as (Hd & Hcases).
  fold N m in Hcases.
  set (self1 := set_worker_threads (live_workers m) self) in *.
  set (self2 := spawn_missing_workers idents self1) in *.
  set (m2 := worker_threads self2) in *.
  assert (∀ k, m2 !! k =
               match live_workers m !! k with
               | Some w => Some w
               | None => if bool_decide (grows ∧ (Z.of_nat k < N)%Z)
                         then Some (started_worker idents k) else None
               end) as Hm2.
  { intros k. subst m2 self2. by rewrite spawn_missing_workers_lookup. }
  assert (dom m2 = dom (live_workers m)
                   ∪ (if bool_decide grows then set_seq 0 (Z.to_nat N) else ∅))
    as Hdom2.
  { subst m2 self2. by rewrite spawn_missing_workers_dom. }
  assert (∀ k w, m !! k = Some w → isAlive w = true → m2 !! k = Some w)
    as Hlive.
  { intros k w Hk Hal. rewrite Hm2.
    assert (live_workers m !! k = Some w) as ->; [|done].
    unfold live_workers. by apply map_lookup_filter_Some. }
  assert (∀ k w', m2 !! k = Some w' →
            (∀ w, m !! k = Some w → isAlive w = false) →
            w' = started_worker idents k ∧ (Z.of_nat k < N)%Z ∧ grows)
    as Hnew.
  { intros k w' Hk Hdead. rewrite Hm2 in Hk.
    destruct (live_workers m !! k) as [w|] eqn:Hl.
    - unfold live_workers in Hl. apply map_lookup_filter_Some in Hl as [Hl Hal].
      simpl in Hal. rewrite (Hdead _ Hl) in Hal. discriminate.
    - case_bool_decide as Hc; [|done]. destruct Hc. by simplify_eq. }
  assert (∀ k w', m2 !! k = Some w' → isAlive w' = true) as Halive.
  { intros k w' Hk. rewrite Hm2 in Hk.
    destruct (live_workers m !! k) as [w|] eqn:Hl.
    - unfold live_workers in Hl. apply map_lookup_filter_Some in Hl as [Hl Hal].
      by simplify_eq.
    - case_bool_decide; by simplify_eq. }
  destruct Hcases as [[Hno Heq]|(Hlt & Hd2 & m3 & Heq & Hm3)].
  - assert (m' = m2) as -> by (subst m'; by rewrite Heq).
    split_and!; try done.
    intros k w Hk Hal. rewrite (Hlive _ _ Hk Hal).
    rewrite bool_decide_eq_false_2; [done|]. intros [? _]. done.
  - assert (m' = m3) as -> by (subst m'; by rewrite Heq).
    assert (dom m3 = dom m2) as Hdom3
      by (by apply (after_mark_redundant_dom _ _ _ _ _ Hm3)).
    assert (size m3 = size m2) as Hsize by (by rewrite <- !size_dom, Hdom3).
    split_and!.
    + by rewrite Hdom3.
    + intros k w Hk Hal. rewrite Hm3. unfold after_mark_redundant.
      rewrite (Hlive _ _ Hk Hal). simpl.
      assert (k < size m2)
        by (apply (dense_keys_lookup_iff m2 k Hd2); rewrite (Hlive _ _ Hk Hal); eauto).
      rewrite bool_decide_eq_true_2 by lia. simpl.
      destruct (Z.leb_spec N (Z.of_nat (threadID w))) as [Hge|Hge];
        [rewrite bool_decide_eq_true_2 by (split; lia)
        |rewrite bool_decide_eq_false_2 by (intros [? ?]; lia)]; done.
    + intros k w' Hk Hdead. rewrite Hm3 in Hk. unfold after_mark_redundant in Hk.
      destruct (m2 !! k) as [w2|] eqn:Hk2; simpl in Hk; [|done].
      destruct (Hnew _ _ Hk2 Hdead) as (-> & Hlt' & Hg).
      split; [|done].
      replace (N <=? Z.of_nat (threadID (started_worker idents k)))%Z
        with false in Hk by (symmetry; apply Z.leb_gt; simpl; lia).
      rewrite andb_false_r in Hk. by simplify_eq.
    + intros k w' Hk. rewrite Hm3 in Hk. unfold after_mark_redundant in Hk.
      destruct (m2 !! k) as [w2|] eqn:Hk2; simpl in Hk; [|done].
      pose proof (Halive _ _ Hk2) as Hal.
      destruct (_ && _); by simplify_eq.
Qed.

Lemma initWorkerThreads_registry_witness :
  dom (worker_threads pool_of_two_marked)
  = dom (live_workers (worker_threads pool_of_two)) ∪ ∅
  ∧ ∀ k w', worker_threads pool_of_two_marked !! k = Some w' →
      isAlive w' = true.
Proof.
  destruct (initWorkerThreads_registry example_idents pool_of_two
              pool_of_two_marked) as (H1 & _ & _ & H4).
  - vm_compute. reflexivity.
  - split; [exact H1|exact H4].
Defined.

(** ** The state of the units, and the order of the tasks *)

Lemma ids_app f evs tr : ids f (evs ++ tr) = ids f tr ++ ids f evs.
Proof. unfold ids. by rewrite omap_app, rev_app_distr. Qed.

Lemma flag_assigned_app evs tr t :
  flag_assigned tr t → flag_assigned (evs ++ tr) t.
Proof.
  intros (k & b & Hs & Hin). exists k, b. split; [done|].
  apply elem_of_app. by right.
Qed.

Lemma unit_state_app evs tr k w :
  unit_state tr k w → unit_state (evs ++ tr) k w.
Proof.
  intros [Hn Hb Hf]. split; [done..|].
  intros Hpc. destruct (Hf Hpc) as (t & Ht & Ha).
  exists t. split; [done|]. by apply flag_assigned_app.
Qed.

Lemma unit_step_unit_state eng k w tq cq w' tq' cq' evs tr :
  unit_step eng k w tq cq = Some (w', tq', cq', evs) →
  unit_state tr k w → unit_state (evs ++ tr) k w'.
Proof.
  unfold unit_step. intros Hstep [Hn Hb Hf].
  destruct (pc w) eqn:Hpc; simplify_eq;
    try (unit_statement Hstep ltac:(fun Hp =>
      apply process_item_fields in Hp;
      destruct Hp as (? & ? & ? & ? & ? & ? & ? & ?)));
    (split; simpl;
     [ try done; try congruence
     | try (intros [|[|[|]]]; done); try (intros _; eauto); try congruence
     | try done ]).
  - intros _. eexists. split; [done|]. eexists _, _. split; [done|].
    simpl. by left.
Qed.

Lemma progress_step_unit_state p k w w' tr :
  progress_step p w = Some w' → unit_state tr k w → unit_state tr k w'.
Proof.
  unfold progress_step. intros Hstep [Hn Hb Hf].
  destruct (pc w) eqn:Hpc; try done.
  destruct (current_task w) eqn:Hc; try done. simplify_eq.
  split; simpl; [done|eauto|congruence].
Qed.

Lemma pool_change_unit_state tr self self' :
  pool_change self self' →
  (∀ k w, worker_threads self !! k = Some w → unit_state tr k w) →
  ∀ k w, worker_threads self' !! k = Some w → unit_state tr k w.
Proof.
  induction 1; simpl; try done.
  - auto.
  - intros Hok k' w' [_ Hk']%lookup_delete_Some. by apply Hok.
  - intros Hok k' w'. rewrite lookup_insert_Some.
    intros [[<- <-]|[_ Hk']]; [|by apply Hok].
    split; simpl; [done|by intros [|[|[|]]]|done].
  - intros Hok k' w'. rewrite lookup_insert_Some.
    intros [[<- <-]|[_ Hk']]; [|by apply Hok].
    destruct (Hok _ _ H) as [? ? ?]. by split.
Qed.

(** One statement of a unit takes the oldest task of the hand-off queue, or
    appends the task it holds to the completion queue. *)
Lemma unit_step_order eng k w tq cq w' tq' cq' evs tr :
  unit_step eng k w tq cq = Some (w', tq', cq', evs) →
  unit_state tr k w →
  maxsize cq = 0 →
  task_id <$> items tq = ids claimed_id evs ++ (task_id <$> items tq')
  ∧ task_id <$> items cq' = (task_id <$> items cq) ++ ids pushed_id evs
  ∧ (Forall (flag_assigned tr) (items cq) →
     Forall (flag_assigned (evs ++ tr)) (items cq'))
  ∧ ids pulled_id evs = [] ∧ ids marked_id evs = [].
Proof.
  unfold unit_step. intros Hstep [Hn Hb Hf] Hcq.
  assert (∀ l, Forall (flag_assigned tr) l →
               Forall (flag_assigned (evs ++ tr)) l) as Hmono.
  { intros l Hl. eapply Forall_impl; [exact Hl|].
    intros t. apply flag_assigned_app. }
  destruct (pc w) eqn:Hpc;
    try (destruct Hf as (t0 & Ht0 & Ha0); [done|]);
    simplify_eq;
    repeat (match type of Hstep with
            | context [if ?b then _ else _] => destruct b
            | context [match get_nowait ?q with _ => _ end] =>
                unfold get_nowait in Hstep; destruct (items q) eqn:?
            | context [match process_item ?e ?w with _ => _ end] =>
                destruct (process_item e w) as [? [?|[]]]
            | context [match current_task ?w with _ => _ end] =>
                first [rewrite Ht0 in Hstep | destruct (current_task w) eqn:?]
            | context [put ?t ?q] => rewrite put_unbounded in Hstep by done
            end; simpl in Hstep; simplify_eq);
    try match goal with
        | Hm : context [match current_task ?w with _ => _ end] |- _ =>
            destruct (current_task w)
        end;
    simpl; rewrite ?app_nil_r; split_and!; try done; try (by apply Hmono);
    try (match goal with H : items _ = _ |- _ => by rewrite H end).
  - by rewrite fmap_app.
  - intros Hall. apply Forall_app. split; [by apply Hmono|].
    apply Forall_singleton. by apply (flag_assigned_app [_]).
Qed.

(** One statement of the monitor takes the oldest task of the completion
    queue, reports the task it holds, or appends the task it pulled to the
    hand-off queue. *)
Lemma monitor_step_order idents raises self pc self' pc' evs tr :
  monitor_step idents raises self pc = Some (self', pc', evs) →
  (task_id <$> items (task_queue self)) ++ held_add_ids pc ++ ids pulled_id evs
  = (task_id <$> items (task_queue self')) ++ held_add_ids pc'
  ∧ held_mark_ids pc ++ (task_id <$> items (complete_queue self))
    = ids marked_id evs ++ held_mark_ids pc'
        ++ (task_id <$> items (complete_queue self'))
  ∧ task_id <$> processed (job_queue self')
    = (task_id <$> processed (job_queue self)) ++ ids marked_id evs
  ∧ ids claimed_id evs = [] ∧ ids pushed_id evs = []
  ∧ (Forall (flag_assigned tr) (items (complete_queue self)) →
     (∀ t, pc = S_mark t → flag_assigned tr t) →
     Forall (flag_assigned tr) (processed (job_queue self)) →
     Forall (flag_assigned tr) (items (complete_queue self'))
     ∧ (∀ t, pc' = S_mark t → flag_assigned tr t)
     ∧ Forall (flag_assigned tr) (processed (job_queue self')))
  ∧ ((∀ k w, worker_threads self !! k = Some w → unit_state tr k w) →
     ∀ k w, worker_threads self' !! k = Some w → unit_state tr k w).
Proof.
  unfold monitor_step. intros Hstep.
  destruct pc; simplify_eq;
    try (monitor_statement Hstep ltac:(fun Hi =>
      pose proof (pool_change_fields _ _ Hi) as (? & ? & ? & ? & ?);
      pose proof (pool_change_unit_state tr _ _ Hi)));
    try destruct raises; simpl;
    repeat match goal with
           | H : items _ = _ |- _ => rewrite H
           | H : task_queue _ = _ |- _ => rewrite H
           | H : complete_queue _ = _ |- _ => rewrite H
           | H : job_queue _ = _ |- _ => rewrite H
           end;
    rewrite ?fmap_app, ?app_nil_r; simpl;
    split_and!; try done; try (intros ? ? ?; split_and!; try done).
  all: try match goal with
           | H : Forall _ (_ :: _) |- _ => apply Forall_cons in H as [? ?]
           end; try done.
  all: try (intros ? [= <-]; done).
  all: apply Forall_app; split; [done|]; apply Forall_singleton; eauto.
Qed.

Lemma step_pool_state idents l s s' :
  well_formed s → pool_state s → step idents l s = Some s' → pool_state s'.
Proof.
  intros [Hmax Hlen Hfree Hcq Hunits] [Hus Hfq Hfh Hfp Ho1 Ho2 Ho3] Hstep.
  unfold step in Hstep.
  destruct l as [k eng|k p|raises|N| |t]; simpl in Hstep.
  - destruct (worker_threads (monitor s) !! k) as [w|] eqn:Hk; [|done].
    simpl in Hstep.
    destruct (unit_step eng k w _ _) as [[[[w' tq] cq] evs]|] eqn:Hu; [|done].
    simpl in Hstep. injection Hstep as <-.
    destruct (unit_step_order _ _ _ _ _ _ _ _ _ (trace s) Hu (Hus _ _ Hk) Hcq)
      as (H1 & H2 & H3 & H4 & H5).
    split; simpl; rewrite ?ids_app, ?H4, ?H5, ?app_nil_r.
    + intros k' w0. rewrite lookup_insert_Some.
      intros [[<- <-]|[_ Hk']].
      * eapply unit_step_unit_state; [exact Hu|by apply Hus].
      * by apply unit_state_app, Hus.
    + by apply H3.
    + intros t Ht. by apply flag_assigned_app, Hfh.
    + eapply Forall_impl; [exact Hfp|]. intros t. apply flag_assigned_app.
    + rewrite Ho1, H1, <- !app_assoc. done.
    + rewrite Ho2, H2, <- !app_assoc. done.
    + done.
  - destruct (worker_threads (monitor s) !! k) as [w|] eqn:Hk; [|done].
    simpl in Hstep.
    destruct (progress_step p w) as [w'|] eqn:Hp; [|done].
    simpl in Hstep. injection Hstep as <-.
    split; simpl; try done.
    intros k' w0. rewrite lookup_insert_Some.
    intros [[<- <-]|[_ Hk']]; [|by apply Hus].
    eapply progress_step_unit_state; [exact Hp|by apply Hus].
  - destruct (monitor_step idents raises _ _) as [[[self' pc'] evs]|] eqn:Hm;
      [|done].
    simpl in Hstep. injection Hstep as <-.
    destruct (monitor_step_order _ _ _ _ _ _ _ (evs ++ trace s) Hm)
      as (H1 & H2 & H3 & H4 & H5 & H6 & H7).
    destruct H6 as (H6a & H6b & H6c).
    { eapply Forall_impl; [exact Hfq|]. intros t. apply flag_assigned_app. }
    { intros t Ht. by apply flag_assigned_app, Hfh. }
    { eapply Forall_impl; [exact Hfp|]. intros t. apply flag_assigned_app. }
    split; simpl; rewrite ?ids_app, ?H4, ?H5, ?app_nil_r; try done.
    + apply H7. intros k w Hk. by apply unit_state_app, Hus.
    + rewrite Ho1, <- H1, <- !app_assoc. done.
    + rewrite Ho2, H2, <- !app_assoc. done.
    + by rewrite H3, Ho3.
  - injection Hstep as <-. by split.
  - injection Hstep as <-. by split.
  - injection Hstep as <-. by split.
Qed.

Lemma initial_pool_state settings pending history :
  pool_state (initial settings pending history).
Proof. split; simpl; try done. Qed.

Lemma exec_pool_state idents ls : ∀ s s',
  well_formed s → pool_state s →
  exec idents ls s = Some s' → pool_state s'.
Proof.
  induction ls as [|l ls IH]; intros s s' Hwf Hps Hrun; simpl in Hrun.
  - by simplify_eq.
  - destruct (step idents l s) as [s1|] eqn:Hstep; [|done]. simpl in Hrun.
    eapply IH; [|by eapply step_pool_state|exact Hrun].
    by eapply step_well_formed.
Qed.

Lemma reachable_pool_state idents s : reachable idents s → pool_state s.
Proof.
  intros (settings & pending & history & ls & Hrun).
  eapply exec_pool_state; [|apply initial_pool_state|exact Hrun].
  apply initial_well_formed.
Qed.



Lemma str_inj n1 n2 : str n1 = str n2 → n1 = n2.
Proof.
  unfold str. intros Heq.
  assert (Some (Nat.to_uint n1) = Some (Nat.to_uint n2)) as [= Hu]
    by (by rewrite <- !NilEmpty.usu, Heq).
  by rewrite <- (Unsigned.of_to n1), <- (Unsigned.of_to n2), Hu.
Qed.

(** X8. [getAllWorkerStatus] returns one status per registered unit, and
    nothing else. The status of the unit registered at key [k] has the id
    [str(k)] and the name "Worker-k", so that no two statuses of the list
    share an id. *)
Theorem getAllWorkerStatus_one_status_per_unit idents s :
  reachable idents s →
  let m := worker_threads (monitor s) in
  let l := getAllWorkerStatus (monitor s) in
  length l = size m
  ∧ (∀ st, st ∈ l ↔ ∃ k w, m !! k = Some w ∧ st = get_status w)
  ∧ (∀ k w, m !! k = Some w →
       status_id (get_status w) = str k
       ∧ status_name (get_status w) = "Worker-" +:+ str k)
  ∧ NoDup (status_id <$> l).
Proof.
  intros Hr m l.
  destruct (reachable_invariants idents every s Hr) as [[_ _ _ _ Hok] _].
  destruct (reachable_pool_state idents s Hr) as [Hus _ _ _ _ _ _].
  fold m in Hok, Hus.
  assert (∀ k w, m !! k = Some w → status_id (get_status w) = str k) as Hid.
  { intros k w Hk. simpl. by rewrite (ok_threadID _ _ (Hok _ _ Hk)). }
  subst l. unfold getAllWorkerStatus. fold m. split_and!.
  - by rewrite length_fmap, length_map_to_list.
  - intros st. rewrite list_elem_of_fmap. split.
    + intros ([k w] & -> & Hin%elem_of_map_to_list). eauto.
    + intros (k & w & Hk & ->). exists (k, w). split; [done|].
      by apply elem_of_map_to_list.
  - intros k w Hk. split; [by apply Hid|]. simpl.
    apply (us_name _ _ _ (Hus _ _ Hk)).
  - rewrite <- list_fmap_compose.
    assert ((status_id ∘ (fun kw : nat * WorkerThread => get_status kw.2))
              <$> map_to_list m
            = str <$> (map_to_list m).*1) as ->.
    { rewrite <- list_fmap_compose. apply list_fmap_ext.
      intros i [k w] Hin. simpl.
      apply list_elem_of_lookup_2, elem_of_map_to_list in Hin.
      by rewrite (ok_threadID _ _ (Hok _ _ Hin)). }
    apply NoDup_fmap_2; [|apply NoDup_fst_map_to_list].
    intros n1 n2. apply str_inj.
Qed.

Lemma getAllWorkerStatus_witness :
  let s := state_after (monitor_steps 3) nothing_pending in
  length (getAllWorkerStatus (monitor s)) = size (worker_threads (monitor s))
  ∧ NoDup (status_id <$> getAllWorkerStatus (monitor s)).
Proof.
  destruct (getAllWorkerStatus_one_status_per_unit example_idents
              (state_after (monitor_steps 3) nothing_pending))
    as (H1 & _ & _ & H4).
  - exists (example_settings 2), [], [], (monitor_steps 3).
    vm_compute. reflexivity.
  - split; [exact H1|exact H4].
Defined.

Lemma checkForIdleWorkers_true self :
  checkForIdleWorkers self = true
  ↔ ∃ k w, worker_threads self !! k = Some w ∧ idle w = true.
Proof.
  unfold checkForIdleWorkers. rewrite existsb_exists. split.
  - intros ([k w] & Hin & Hidle). exists k, w. split; [|done].
    by apply elem_of_map_to_list, list_elem_of_In.
  - intros (k & w & Hk & Hidle). exists (k, w). split; [|done].
    by apply list_elem_of_In, elem_of_map_to_list.
Qed.

(** X9. [checkForIdleWorkers] returns [True] exactly when some registered
    unit has [idle] set. A unit that holds a claimed task it has not pushed
    yet never has [idle] set, and its status says so; hence a [True] of
    [checkForIdleWorkers] names a unit that is not working on a task. *)
Theorem checkForIdleWorkers_finds_a_free_unit idents s :
  reachable idents s →
  let m := worker_threads (monitor s) in
  (checkForIdleWorkers (monitor s) = true
   ↔ ∃ k w, m !! k = Some w ∧ idle w = true)
  ∧ (∀ k w tid, m !! k = Some w → busy_with w tid →
       idle w = false ∧ status_idle (get_status w) = false)
  ∧ (checkForIdleWorkers (monitor s) = true →
     ∃ k w, m !! k = Some w ∧ status_idle (get_status w) = true
            ∧ ∀ tid, ¬ busy_with w tid).
Proof.
  intros Hr m.
  destruct (reachable_pool_state idents s Hr) as [Hus _ _ _ _ _ _].
  fold m in Hus.
  assert (∀ k w tid, m !! k = Some w → busy_with w tid → idle w = false)
    as Hbusy.
  { intros k w tid Hk [[Hpc|Hpc] _]; apply (us_busy _ _ _ (Hus _ _ Hk)); tauto. }
  split_and!.
  - apply checkForIdleWorkers_true.
  - intros k w tid Hk Hb. split; by eapply Hbusy.
  - intros (k & w & Hk & Hidle)%checkForIdleWorkers_true.
    exists k, w. split_and!; [done..|].
    intros tid Hb. rewrite (Hbusy _ _ _ Hk Hb) in Hidle. discriminate.
Qed.

Lemma checkForIdleWorkers_witness :
  let s := state_after one_task_claimed one_pending_task in
  (∀ k w tid, worker_threads (monitor s) !! k = Some w → busy_with w tid →
     idle w = false ∧ status_idle (get_status w) = false)
  ∧ checkForIdleWorkers (monitor s) = false.
Proof.
  destruct (checkForIdleWorkers_finds_a_free_unit example_idents
              (state_after one_task_claimed one_pending_task))
    as (_ & H2 & _).
  - exists (example_settings 1), [example_task 7 "a.mkv"], [], one_task_claimed.
    vm_compute. reflexivity.
  - split; [exact H2|]. vm_compute. reflexivity.
Defined.

Lemma tally_elem_of f e tr : e ∈ tr → f e ≤ tally f tr.
Proof.
  induction tr as [|e' tr IH]; [by intros ?%elem_of_nil|].
  intros [->|Hin]%elem_of_cons; simpl; [lia|]. specialize (IH Hin). lia.
Qed.

Lemma tally_success_false sel k tid tr :
  Ev_success k tid false ∈ tr →
  tally (is_success_true sel) tr + hit sel tid ≤ tally (is_success sel) tr.
Proof.
  assert (∀ tr', tally (is_success_true sel) tr' ≤ tally (is_success sel) tr')
    as Hle.
  { intros tr'. apply tally_le. intros [| | |? ? []| | | |]; simpl; lia. }
  induction tr as [|e tr IH]; [by intros ?%elem_of_nil|].
  intros [<-|Hin]%elem_of_cons; simpl.
  - specialize (Hle tr). lia.
  - specialize (IH Hin).
    assert (is_success_true sel e ≤ is_success sel e)
      by (destruct e as [| | |? ? []| | | |]; simpl; lia).
    lia.
Qed.

(** X10. Every task that a unit has pushed (it is on the completion queue,
    held by the monitor for line 206, or was handed to
    [mark_item_as_processed]) has its success flag set, to a value that
    line 117 assigned to it: no task is reported without an outcome. If the
    task was pulled once, [process_item] returned once for it, and the flag
    is what it returned. *)
Theorem reported_task_has_an_outcome idents s t :
  reachable idents s →
  t ∈ items (complete_queue (monitor s))
  ∨ monitor_pc s = S_mark t
  ∨ t ∈ processed (job_queue (monitor s)) →
  ∃ k b, success t = Some b ∧ Ev_success k (task_id t) b ∈ trace s
         ∧ (pulled s (task_id t) = 1 →
            completed s (task_id t) = 1
            ∧ succeeded s (task_id t) = if b then 1 else 0).
Proof.
  intros Hr Hin.
  destruct (reachable_pool_state idents s Hr) as [_ Hfq Hfh Hfp _ _ _].
  rewrite Forall_forall in Hfq, Hfp.
  assert (flag_assigned (trace s) t) as (k & b & Hs & Hev).
  { destruct Hin as [Hin|[Hin|Hin]]; [by apply Hfq|by apply Hfh|by apply Hfp]. }
  exists k, b. split_and!; [done..|].
  intros Hpull.
  destruct (reachable_invariants idents (only (task_id t)) s Hr)
    as [_ [H1 H2 H3 _ _ _ _]].
  unfold pulled, completed, succeeded in *.
  assert (hit (only (task_id t)) (task_id t) = 1) as Hhit.
  { unfold hit, only. by rewrite bool_decide_eq_true_2. }
  pose proof (tally_elem_of (is_success (only (task_id t))) _ _ Hev) as Hge.
  change (is_success _ _) with (hit (only (task_id t)) (task_id t)) in Hge.
  assert (tally (is_success_true (only (task_id t))) (trace s)
          ≤ tally (is_success (only (task_id t))) (trace s)) as Hle.
  { apply tally_le. intros [| | |? ? []| | | |]; simpl; lia. }
  split; [lia|].
  destruct b.
  - pose proof (tally_elem_of (is_success_true (only (task_id t))) _ _ Hev)
      as Hge'.
    change (is_success_true _ _) with (hit (only (task_id t)) (task_id t))
      in Hge'.
    lia.
  - pose proof (tally_success_false (only (task_id t)) _ _ _ Hev) as Hf. lia.
Qed.

Lemma reported_task_witness :
  let s := state_after one_task_reported one_pending_task in
  let t := set_success true (example_task 7 "a.mkv") in
  t ∈ processed (job_queue (monitor s))
  ∧ ∃ k b, success t = Some b ∧ Ev_success k 7 b ∈ trace s
           ∧ (pulled s 7 = 1 →
              completed s 7 = 1 ∧ succeeded s 7 = if b then 1 else 0).
Proof.
  assert (set_success true (example_task 7 "a.mkv")
            ∈ processed (job_queue
                (monitor (state_after one_task_reported one_pending_task))))
    as Hin by (vm_compute; left).
  split; [exact Hin|].
  apply (reported_task_has_an_outcome example_idents
           (state_after one_task_reported one_pending_task)
           (set_success true (example_task 7 "a.mkv"))).
  - exists (example_settings 1), [example_task 7 "a.mkv"], [], one_task_reported.
    vm_compute. reflexivity.
  - right. right. exact Hin.
Defined.

(** X11. Both queues are first in, first out, end to end. The tasks the
    units have claimed, then the task on the hand-off queue, then the task
    the monitor is about to put there, are the tasks pulled from the
    incoming items, in the order in which they were pulled. The tasks
    handed to [mark_item_as_processed], then the task held for line 206,
    then the tasks on the completion queue, are the tasks the units have
    pushed, in the order of the pushes: the job queue is told of finished
    tasks in the order in which the units finished them. *)
Theorem tasks_are_claimed_and_reported_in_order idents s :
  reachable idents s →
  ids pulled_id (trace s)
  = ids claimed_id (trace s)
      ++ (task_id <$> items (task_queue (monitor s)))
      ++ held_add_ids (monitor_pc s)
  ∧ ids pushed_id (trace s)
    = (task_id <$> processed (job_queue (monitor s)))
        ++ held_mark_ids (monitor_pc s)
        ++ (task_id <$> items (complete_queue (monitor s)))
  ∧ task_id <$> processed (job_queue (monitor s)) = ids marked_id (trace s)
  ∧ ids claimed_id (trace s) `prefix_of` ids pulled_id (trace s)
  ∧ ids marked_id (trace s) `prefix_of` ids pushed_id (trace s).
Proof.
  intros Hr.
  destruct (reachable_pool_state idents s Hr) as [_ _ _ _ Ho1 Ho2 Ho3].
  split_and!; [done|by rewrite Ho3|done|..].
  - rewrite Ho1. by eexists.
  - rewrite Ho2. by eexists.
Qed.

Lemma tasks_in_order_witness :
  let s := state_after one_task_reported one_pending_task in
  ids pushed_id (trace s)
  = (task_id <$> processed (job_queue (monitor s)))
      ++ held_mark_ids (monitor_pc s)
      ++ (task_id <$> items (complete_queue (monitor s)))
  ∧ task_id <$> processed (job_queue (monitor s)) = [7].
Proof.
  destruct (tasks_are_claimed_and_reported_in_order example_idents
              (state_after one_task_reported one_pending_task))
    as (_ & H2 & _).
  - exists (example_settings 1), [example_task 7 "a.mkv"], [], one_task_reported.
    vm_compute. reflexivity.
  - split; [exact H2|]. vm_compute. reflexivity.
Defined.

(** ** Termination: the abort flag and the redundant flag *)

Lemma monitor_step_aborted idents raises self pc self' pc' evs :
  monitor_step idents raises self pc = Some (self', pc', evs) →
  abort_flag self = true →
  abort_flag self' = true
  ∧ S (statements_left pc') ≤ statements_left pc
  ∧ tally (is_mark every) evs + reports_left pc' ≤ reports_left pc
  ∧ tally (is_pull every) evs + pulls_left pc' ≤ pulls_left pc.
Proof.
  unfold monitor_step. intros Hstep Hab.
  destruct pc; simplify_eq;
    try (monitor_statement Hstep ltac:(fun Hi =>
      pose proof (pool_change_fields _ _ Hi) as (? & ? & ? & ? & ?)));
    try destruct raises; simpl; split_and!; try congruence; try lia.
Qed.

Lemma unit_events_of_monitor k evs :
  Forall (unit_event k) evs →
  tally (is_mark every) evs = 0 ∧ tally (is_pull every) evs = 0.
Proof.
  intros Hev. split; apply tally_zero; (eapply Forall_impl; [exact Hev|]);
    by intros [].
Qed.

(** Whatever state the pool is in, the monitor can run its next statement,
    unless [run] has returned or was left by an exception. *)
Lemma monitor_is_enabled idents s raises :
  well_formed s →
  monitor_pc s ≠ S_done → (∀ e, monitor_pc s ≠ S_crashed e) →
  ∃ s', step idents (L_monitor raises) s = Some s'.
Proof.
  intros Hwf Hdone Hcr. unfold step.
  assert (∃ r, monitor_step idents raises (monitor s) (monitor_pc s) = Some r)
    as [[[self' pc'] evs] ->]; [|simpl; eauto].
  unfold monitor_step.
  destruct (monitor_pc s) eqn:Hpc; try done; eauto.
  - destruct (abort_flag _); eauto.
  - destruct (initWorkerThreads _ _); eauto.
  - destruct (checkForIdleWorkers _); eauto.
  - destruct (abort_flag _); eauto.
  - destruct (empty _); eauto.
  - destruct (get_nowait _) as [[? ?]|]; eauto.
  - destruct raises as [[]|]; eauto.
  - destruct (abort_flag _); eauto.
  - destruct (incoming_is_empty _); eauto.
  - destruct (initWorkerThreads _ _); eauto.
  - destruct (full _); eauto.
  - destruct (get_next_incoming_item _) as [[?|] ?]; eauto.
  - unfold add_to_task_queue, put, full. simpl.
    rewrite (wf_task_queue_maxsize _ Hwf).
    rewrite (wf_task_queue_free _ Hwf) by eauto. simpl. eauto.
  - by destruct (Hcr e).
Qed.

Lemma aborted_step idents s0 n l s s' :
  well_formed s → aborted_since s0 n s → step idents l s = Some s' →
  aborted_since s0 (monitor_statements [l] + n) s'.
Proof.
  intros Hwf (Hab & Hn & Hm & Hp) Hstep. unfold aborted_since.
  unfold step in Hstep.
  destruct l as [k eng|k p|raises|N| |t]; simpl in Hstep.
  - destruct (worker_threads (monitor s) !! k) as [w|] eqn:Hk; [|done].
    simpl in Hstep.
    destruct (unit_step eng k w _ _) as [[[[w' tq] cq] evs]|] eqn:Hu; [|done].
    simpl in Hstep. injection Hstep as <-. simpl.
    destruct (unit_events_of_monitor k evs) as [H1 H2];
      [by eapply unit_step_events|].
    rewrite !tally_app, H1, H2. simpl. done.
  - destruct (worker_threads (monitor s) !! k) as [w|] eqn:Hk; [|done].
    simpl in Hstep. destruct (progress_step p w); [|done].
    simpl in Hstep. injection Hstep as <-. simpl. done.
  - destruct (monitor_step idents raises _ _) as [[[self' pc'] evs]|] eqn:Hm';
      [|done].
    simpl in Hstep. injection Hstep as <-. simpl.
    destruct (monitor_step_aborted _ _ _ _ _ _ _ Hm' Hab) as (? & ? & ? & ?).
    rewrite !tally_app. split_and!; [done|lia..].
  - injection Hstep as <-. simpl. done.
  - injection Hstep as <-. simpl. done.
  - injection Hstep as <-. simpl. done.
Qed.

Lemma monitor_statements_cons l ls :
  monitor_statements (l :: ls) = monitor_statements [l] + monitor_statements ls.
Proof. by destruct l. Qed.

Lemma aborted_exec idents s0 ls : ∀ n s s',
  reachable idents s → aborted_since s0 n s → exec idents ls s = Some s' →
  aborted_since s0 (monitor_statements ls + n) s'.
Proof.
  induction ls as [|l ls IH]; intros n s s' Hr Hab Hrun; simpl in Hrun.
  - by simplify_eq.
  - destruct (step idents l s) as [s1|] eqn:Hs; [|done]. simpl in Hrun.
    rewrite monitor_statements_cons.
    replace (monitor_statements [l] + monitor_statements ls + n)
      with (monitor_statements ls + (monitor_statements [l] + n)) by lia.
    eapply IH; [by eapply reachable_step| |exact Hrun].
    eapply aborted_step; [|done..].
    by apply (reachable_invariants idents every).
Qed.

(** X12. Once [abort_flag] is set, [Worker.run] ends after at most eight
    more statements, whatever the units, the engine and the configuration
    do in between: along every run the flag stays set, the statements the
    monitor has run and those it can still run are no more than it could
    run when the flag was seen set, and until [run] has returned (or was
    left by an exception) its next statement can run. On the way it makes
    at most one more call of [mark_item_as_processed] and pulls at most one
    more incoming item; what else is on the completion queue is not
    reported. *)
Theorem abort_ends_the_monitor idents s :
  reachable idents s →
  abort_flag (monitor s) = true →
  statements_left (monitor_pc s) ≤ 8
  ∧ ∀ ls s', exec idents ls s = Some s' →
      abort_flag (monitor s') = true
      ∧ monitor_statements ls + statements_left (monitor_pc s')
        ≤ statements_left (monitor_pc s)
      ∧ tally (is_mark every) (trace s') ≤ tally (is_mark every) (trace s) + 1
      ∧ tally (is_pull every) (trace s') ≤ tally (is_pull every) (trace s) + 1
      ∧ (statements_left (monitor_pc s') = 0
         ∨ ∀ raises, ∃ s'', step idents (L_monitor raises) s' = Some s'').
Proof.
  intros Hr Hab. split; [destruct (monitor_pc s); simpl; lia|].
  intros ls s' Hrun.
  destruct (aborted_exec idents s ls 0 s s' Hr) as (Hab' & Hn & Hm & Hp);
    [by split_and!|done|].
  split_and!; [done|lia| | |].
  - assert (reports_left (monitor_pc s) ≤ 1)
      by (destruct (monitor_pc s); simpl; lia).
    lia.
  - assert (pulls_left (monitor_pc s) ≤ 1)
      by (destruct (monitor_pc s); simpl; lia).
    lia.
  - assert (well_formed s') as Hwf
      by (by apply (reachable_invariants idents every),
                   (reachable_exec _ _ _ _ Hr Hrun)).
    destruct (monitor_pc s') eqn:Hpc; try (by left);
      right; intros raises; apply monitor_is_enabled;
      first [done | by rewrite Hpc | intros ?; by rewrite Hpc].
Qed.

Lemma abort_witness :
  let s := state_after aborted_after_claim one_pending_task in
  statements_left (monitor_pc s) ≤ 8
  ∧ ∀ ls s', exec example_idents ls s = Some s' →
      abort_flag (monitor s') = true
      ∧ monitor_statements ls + statements_left (monitor_pc s')
        ≤ statements_left (monitor_pc s)
      ∧ tally (is_mark every) (trace s') ≤ tally (is_mark every) (trace s) + 1
      ∧ tally (is_pull every) (trace s') ≤ tally (is_pull every) (trace s) + 1
      ∧ (statements_left (monitor_pc s') = 0
         ∨ ∀ raises, ∃ s'', step example_idents (L_monitor raises) s' = Some s'').
Proof.
  apply (abort_ends_the_monitor example_idents
           (state_after aborted_after_claim one_pending_task)).
  - exists (example_settings 1), [example_task 7 "a.mkv"], [],
      aborted_after_claim.
    vm_compute. reflexivity.
  - vm_compute. reflexivity.
Defined.

Lemma unit_step_flagged eng k w tq cq w' tq' cq' evs :
  unit_step eng k w tq cq = Some (w', tq', cq', evs) →
  redundant_flag w = true →
  redundant_flag w' = true
  ∧ S (unit_statements_left (pc w')) ≤ unit_statements_left (pc w)
  ∧ tally (is_claim_by k) evs + claims_left (pc w') ≤ claims_left (pc w).
Proof.
  unfold unit_step. intros Hstep Hflag.
  destruct (pc w) eqn:Hpc; simplify_eq;
    try (unit_statement Hstep ltac:(fun Hp =>
      apply process_item_fields in Hp;
      destruct Hp as (? & ? & ? & ? & ? & ? & ? & ?)));
    simpl; rewrite ?bool_decide_eq_true_2 by done;
    split_and!; try congruence; try lia.
  all: destruct (current_task _); simpl; lia.
Qed.

Lemma unit_statements_cons k l ls :
  unit_statements k (l :: ls) = unit_statements k [l] + unit_statements k ls.
Proof. destruct l; simpl; lia. Qed.

Lemma flagged_step idents s0 k n l s s' :
  well_formed s → flagged_since s0 k n s → step idents l s = Some s' →
  flagged_since s0 k (unit_statements k [l] + n) s'
  ∨ ∃ w1, worker_threads (monitor s) !! k = Some w1 ∧ pc w1 = W_stopped.
Proof.
  intros Hwf (w0 & w & Hk0 & Hk & Hflag & Hn & Hc) Hstep.
  destruct (decide (pc w = W_stopped)) as [Hst|Hst]; [right; eauto|]. left.
  unfold flagged_since, claims_by in *. unfold step in Hstep.
  exists w0.
  destruct l as [k' eng|k' p|raises|N| |t]; simpl in Hstep.
  - destruct (decide (k' = k)) as [->|Hne].
    + rewrite Hk in Hstep. simpl in Hstep.
      destruct (unit_step eng k w _ _) as [[[[w' tq] cq] evs]|] eqn:Hu; [|done].
      simpl in Hstep. injection Hstep as <-. simpl.
      destruct (unit_step_flagged _ _ _ _ _ _ _ _ _ Hu Hflag) as (? & ? & ?).
      exists w'. rewrite lookup_insert_eq, tally_app.
      rewrite bool_decide_eq_true_2 by done. split_and!; [done..|lia|lia].
    + destruct (worker_threads (monitor s) !! k') as [w2|] eqn:Hk'; [|done].
      simpl in Hstep.
      destruct (unit_step eng k' w2 _ _) as [[[[w' tq] cq] evs]|] eqn:Hu; [|done].
      simpl in Hstep. injection Hstep as <-. simpl. rewrite tally_app.
      rewrite (tally_claim_by_other k k' evs) by
        (done || by eapply unit_step_events).
      exists w. rewrite lookup_insert_ne by done.
      rewrite bool_decide_eq_false_2 by done. by split_and!.
  - destruct (decide (k' = k)) as [->|Hne].
    + rewrite Hk in Hstep. simpl in Hstep. unfold progress_step in Hstep.
      destruct (pc w) eqn:Hpc; try done.
      destruct (current_task w) eqn:Hct; try done.
      simpl in Hstep. injection Hstep as <-. simpl.
      exists (set_current_task (CT_task (set_ffmpeg p t)) w).
      rewrite lookup_insert_eq. simpl. rewrite Hpc. by split_and!.
    + destruct (worker_threads (monitor s) !! k') as [w2|] eqn:Hk'; [|done].
      simpl in Hstep. destruct (progress_step p w2); [|done].
      simpl in Hstep. injection Hstep as <-. simpl.
      exists w. rewrite lookup_insert_ne by done. by split_and!.
  - destruct (monitor_step idents raises _ _) as [[[self' pc'] evs]|] eqn:Hm;
      [|done].
    simpl in Hstep. injection Hstep as <-. simpl. rewrite tally_app.
    rewrite (tally_claim_by_monitor k evs) by (by eapply monitor_step_events).
    destruct (monitor_step_alive _ _ _ _ _ _ _ k w Hm Hk) as (w' & Hk' & Hw').
    { unfold isAlive. by rewrite bool_decide_eq_true_2. }
    exists w'. destruct Hw' as [->| ->]; by split_and!.
  - injection Hstep as <-. simpl. exists w. by split_and!.
  - injection Hstep as <-. simpl. exists w. by split_and!.
  - injection Hstep as <-. simpl. exists w. by split_and!.
Qed.

Lemma flagged_exec idents s0 k ls : ∀ n s s',
  reachable idents s → flagged_since s0 k n s →
  exec idents ls s = Some s' →
  flagged_since s0 k (unit_statements k ls + n) s'
  ∨ ∃ ls1 ls2 s1, ls = ls1 ++ ls2 ∧ exec idents ls1 s = Some s1
      ∧ flagged_since s0 k (unit_statements k ls1 + n) s1
      ∧ ∃ w1, worker_threads (monitor s1) !! k = Some w1 ∧ pc w1 = W_stopped.
Proof.
  induction ls as [|l ls IH]; intros n s s' Hr Hfl Hrun; simpl in Hrun.
  - injection Hrun as <-. by left.
  - destruct (step idents l s) as [s1|] eqn:Hs; [|done]. simpl in Hrun.
    destruct (flagged_step idents s0 k n l s s1) as [Hfl1|(w1 & Hk1 & Hpc1)];
      [by apply (reachable_invariants idents every)|done|done| |].
    + rewrite unit_statements_cons.
      destruct (IH _ s1 s' (reachable_step _ _ _ _ Hr Hs) Hfl1 Hrun)
        as [Hfl'|(ls1 & ls2 & s2 & -> & Hrun1 & Hfl2 & Hst)].
      * left. by rewrite (Nat.add_comm (unit_statements k [l])), <- Nat.add_assoc.
      * right. exists (l :: ls1), ls2, s2. rewrite (unit_statements_cons k l ls1).
        simpl exec. rewrite Hs. simpl.
        rewrite (Nat.add_comm (unit_statements k [l])), <- Nat.add_assoc.
        by split_and!.
    + right. exists [], (l :: ls), s. split_and!; try done. eauto.
Qed.

(** X13. A unit whose redundant flag is set stops after at most nine more
    statements of its own, whatever the monitor and the other units do in
    between, and claims at most one more task on the way (none once it is
    past the test of line 109). Along every run the flag stays set and the
    statements the unit has run and those it can still run are no more
    than it could run at the start; until it has stopped its next
    statement can run. Once it has stopped, the monitor may drop it. *)
Theorem signalled_unit_stops idents s k w :
  reachable idents s →
  worker_threads (monitor s) !! k = Some w →
  redundant_flag w = true →
  unit_statements_left (pc w) ≤ 9 ∧ claims_left (pc w) ≤ 1
  ∧ ∀ ls s', exec idents ls s = Some s' →
      (∃ w', worker_threads (monitor s') !! k = Some w'
         ∧ redundant_flag w' = true
         ∧ unit_statements k ls + unit_statements_left (pc w')
           ≤ unit_statements_left (pc w)
         ∧ claims_by s' k ≤ claims_by s k + claims_left (pc w)
         ∧ (pc w' = W_stopped
            ∨ ∀ eng, ∃ s'', step idents (L_unit k eng) s' = Some s''))
      ∨ (∃ ls1 ls2 s1 w1,
           ls = ls1 ++ ls2 ∧ exec idents ls1 s = Some s1
           ∧ worker_threads (monitor s1) !! k = Some w1 ∧ pc w1 = W_stopped
           ∧ unit_statements k ls1 ≤ unit_statements_left (pc w)
           ∧ claims_by s1 k ≤ claims_by s k + claims_left (pc w)).
Proof.
  intros Hr Hk Hflag.
  split; [destruct (pc w); simpl; lia|].
  split; [destruct (pc w); simpl; lia|].
  intros ls s' Hrun.
  destruct (flagged_exec idents s k ls 0 s s' Hr) as
    [(w0 & w' & Hk0 & Hk' & Hflag' & Hn & Hc)
    |(ls1 & ls2 & s1 & -> & Hrun1 & (w0 & w' & Hk0 & Hk' & _ & Hn & Hc)
      & w1 & Hk1 & Hpc1)];
    [exists w, w; by split_and!|done| |].
  - left. rewrite Hk in Hk0. injection Hk0 as <-.
    exists w'. split_and!; [done..|lia|lia|].
    destruct (decide (pc w' = W_stopped)) as [?|Hst]; [by left|].
    right. intros eng. eapply unit_is_enabled; [|done..].
    by apply (reachable_invariants idents every),
             (reachable_exec _ _ _ _ Hr Hrun).
  - right. rewrite Hk in Hk0. injection Hk0 as <-.
    exists ls1, ls2, s1, w1. split_and!; [done..|lia|lia].
Qed.

Lemma signalled_unit_witness :
  let s := state_after signalled_while_busy one_pending_task in
  ∃ w, worker_threads (monitor s) !! 0 = Some w
       ∧ redundant_flag w = true
       ∧ unit_statements_left (pc w) ≤ 9 ∧ claims_left (pc w) ≤ 1.
Proof.
  destruct (signalled_unit_stops example_idents
              (state_after signalled_while_busy one_pending_task) 0
              (default (WorkerThread_init 0 EmptyString)
                 (worker_threads
                    (monitor (state_after signalled_while_busy
                                one_pending_task)) !! 0)))
    as (H1 & H2 & _).
  - exists (example_settings 1), [example_task 7 "a.mkv"], [],
      signalled_while_busy.
    vm_compute. reflexivity.
  - vm_compute. reflexivity.
  - vm_compute. reflexivity.
  - eexists. split; [vm_compute; reflexivity|].
    split; [vm_compute; reflexivity|]. split; [exact H1|exact H2].
Defined.

(** ** The first round, a pool without workers, and the two exception handlers of the queues *)

Lemma initWorkerThreads_empty idents self :
  worker_threads self = ∅ →
  let N := NUMBER_OF_WORKERS (settings self) in
  ∃ self', initWorkerThreads idents self = Ok self'
    ∧ settings self' = settings self ∧ job_queue self' = job_queue self
    ∧ task_queue self' = task_queue self
    ∧ complete_queue self' = complete_queue self
    ∧ abort_flag self' = abort_flag self
    ∧ remove_list self' = remove_list self
    ∧ ∀ k, worker_threads self' !! k
           = if bool_decide (Z.of_nat k < N)%Z
             then Some (started_worker idents k) else None.
Proof.
  intros Hm N.
  assert (dense_keys (worker_threads self)) as Hd.
  { unfold dense_keys. rewrite Hm, dom_empty_L, map_size_empty. done. }
  unfold initWorkerThreads. rewrite (remove_dead_workers_dense _ Hd). simpl.
  assert (live_workers (worker_threads self) = ∅) as ->.
  { rewrite Hm. unfold live_workers. apply map_filter_empty. }
  set (self1 := set_worker_threads ∅ self).
  set (self2 := spawn_missing_workers idents self1).
  destruct (spawn_missing_workers_fields idents self1)
    as (Hset & Hjq & Htq & Hcq & Hab & Hrem & _).
  fold self2 in Hset, Hjq, Htq, Hcq, Hab, Hrem. simpl in *.
  assert (∀ k, worker_threads self2 !! k
               = if bool_decide (Z.of_nat k < N)%Z
                 then Some (started_worker idents k) else None) as Hlook.
  { intros k. subst self2. rewrite spawn_missing_workers_lookup. simpl.
    rewrite lookup_empty, map_size_empty. fold N.
    repeat case_bool_decide; try done; lia. }
  assert (dom (worker_threads self2) = set_seq 0 (Z.to_nat N)) as Hdom.
  { apply set_eq. intros k. rewrite elem_of_dom, Hlook, elem_of_set_seq.
    case_bool_decide; split; try done; try lia; try (by intros [? ?]).
    }
  assert (size (worker_threads self2) = Z.to_nat N) as Hsize
    by (by rewrite <- size_dom, Hdom, size_set_seq).
  unfold mark_redundant_workers. rewrite Hset, Hsize. fold N.
  destruct (Z.ltb_spec N (Z.of_nat (Z.to_nat N))) as [Hlt|Hge].
  - simpl. rewrite Hsize. replace (Z.to_nat N) with 0 by lia. simpl.
    eexists. split; [done|]. simpl. by split_and!.
  - eexists. split; [done|]. by split_and!.
Qed.

Lemma checkForIdleWorkers_empty self :
  worker_threads self = ∅ → checkForIdleWorkers self = false.
Proof.
  intros Hm. unfold checkForIdleWorkers. by rewrite Hm, map_to_list_empty.
Qed.

(** X14. The first round of [Worker.run]. Three statements after
    [start()] the monitor has started one worker for each key below the
    configured number [N], and no other; the status of worker [k] has the
    id [str(k)], the name "Worker-k", [idle] set and neither progress nor
    file. Nothing was pulled or recorded. The test of line 197 that follows
    finds an idle worker exactly when [N] is positive. *)
Theorem first_round_starts_the_pool idents settings pending history :
  let N := NUMBER_OF_WORKERS settings in
  ∃ s, exec idents (monitor_steps 3) (initial settings pending history) = Some s
    ∧ monitor_pc s = S_check_idle
    ∧ (∀ k, worker_threads (monitor s) !! k
            = if bool_decide (Z.of_nat k < N)%Z
              then Some (started_worker idents k) else None)
    ∧ (∀ k w, worker_threads (monitor s) !! k = Some w →
         get_status w
         = {| status_id := str k; status_name := "Worker-" +:+ str k;
              status_idle := true; status_pid := idents k;
              status_progress := ∅; status_current_file := EmptyString |}
         ∧ redundant_flag w = false ∧ pc w = W_start)
    ∧ size (worker_threads (monitor s)) = Z.to_nat N
    ∧ remove_list (monitor s) = []
    ∧ incoming (job_queue (monitor s)) = pending
    ∧ trace s = []
    ∧ (checkForIdleWorkers (monitor s) = true ↔ (0 < N)%Z).
Proof.
  intros N.
  destruct (initWorkerThreads_empty idents
              (Worker_log "Starting Worker Monitor loop..." EmptyString "info"
                 (Worker_init settings
                    {| incoming := pending; processed := [];
                       job_history := history |})))
    as (self' & Hrun & Hset & Hjq & Htq & Hcq & Hab & Hrem & Hlook); [done|].
  simpl in Hset, Hjq, Htq, Hcq, Hab, Hrem, Hlook. fold N in Hlook.
  eexists. split.
  { unfold monitor_steps. simpl. rewrite Hrun. simpl. reflexivity. }
  simpl. split_and!; try done.
  - intros k w. rewrite Hlook. case_bool_decide; [|done].
    by intros [= <-].
  - rewrite <- size_dom.
    assert (dom (worker_threads self') = set_seq 0 (Z.to_nat N)) as ->.
    { apply set_eq. intros k. rewrite elem_of_dom, Hlook, elem_of_set_seq.
      case_bool_decide; split; try done; try lia; try (by intros [? ?]). }
    apply size_set_seq.
  - by rewrite Hjq.
  - rewrite checkForIdleWorkers_true. split.
    + intros (k & w & Hk & _). rewrite Hlook in Hk.
      case_bool_decide; [lia|done].
    + intros HN. exists 0, (started_worker idents 0). rewrite Hlook.
      rewrite bool_decide_eq_true_2 by lia. done.
Qed.

Lemma no_workers_step idents pending l s s' :
  no_workers pending s →
  (∀ N, l = L_set_number_of_workers N → (N ≤ 0)%Z) →
  step idents l s = Some s' → no_workers pending s'.
Proof.
  intros [HN Hm Htr Hpc Hinc Hpr Htq] Hl Hstep. unfold step in Hstep.
  destruct l as [k eng|k p|raises|N| |t]; simpl in Hstep.
  - by rewrite Hm, lookup_empty in Hstep.
  - by rewrite Hm, lookup_empty in Hstep.
  - destruct (initWorkerThreads_empty idents (monitor s) Hm)
      as (self' & Hrun & Hset & Hjq & Htq' & _ & _ & _ & Hlook).
    assert (worker_threads self' = ∅) as Hm'.
    { apply map_eq. intros k. rewrite Hlook, lookup_empty.
      rewrite bool_decide_eq_false_2; [done|lia]. }
    unfold monitor_step in Hstep.
    destruct Hpc as [Hpc|[Hpc|[Hpc|[Hpc|[Hpc|Hpc]]]]]; rewrite Hpc in Hstep;
      simpl in Hstep.
    + injection Hstep as <-. split; simpl; try done. tauto.
    + destruct (abort_flag (monitor s)); injection Hstep as <-;
        split; simpl; try done; tauto.
    + rewrite Hrun in Hstep. injection Hstep as <-.
      split; simpl; try done; try congruence. tauto.
    + rewrite (checkForIdleWorkers_empty _ Hm) in Hstep.
      injection Hstep as <-. split; simpl; try done. tauto.
    + injection Hstep as <-. split; simpl; try done. tauto.
    + done.
  - injection Hstep as <-. split; simpl; try done. by apply Hl.
  - injection Hstep as <-. by split.
  - injection Hstep as <-. split; simpl; try done.
    by apply prefix_app_r.
Qed.

(** X15. While no positive number of workers is configured, the pool does
    nothing: no worker is started, no statement of a unit runs, no item is
    pulled from the job queue, and the test of line 197 sends the monitor
    back to the head of its loop; the pending items stay pending. *)
Theorem no_workers_no_dispatch idents settings pending history ls s :
  (NUMBER_OF_WORKERS settings ≤ 0)%Z →
  never_configured ls →
  exec idents ls (initial settings pending history) = Some s →
  worker_threads (monitor s) = ∅
  ∧ trace s = []
  ∧ pending `prefix_of` incoming (job_queue (monitor s))
  ∧ processed (job_queue (monitor s)) = []
  ∧ items (task_queue (monitor s)) = []
  ∧ (∀ k, unit_statements k ls = 0)
  ∧ checkForIdleWorkers (monitor s) = false.
Proof.
  intros HN Hls Hrun.
  assert (no_workers pending (initial settings pending history)) as Hinit.
  { split; simpl; try done. tauto. }
  revert Hinit Hls Hrun. generalize (initial settings pending history).
  induction ls as [|l ls IH]; intros s0 Hnw Hls Hrun; simpl in Hrun.
  - injection Hrun as <-. destruct Hnw as [? Hm ? ? ? ? ?].
    split_and!; try done. by apply checkForIdleWorkers_empty.
  - destruct (step idents l s0) as [s1|] eqn:Hs; [|done]. simpl in Hrun.
    assert (no_workers pending s1) as Hnw1.
    { eapply no_workers_step; [exact Hnw| |exact Hs].
      intros N ->. apply Hls. by left. }
    destruct (IH s1 Hnw1) as (? & ? & ? & ? & ? & Hu & ?); [|done|].
    { intros N HNin. apply Hls. by right. }
    split_and!; try done.
    intros k. rewrite unit_statements_cons, Hu.
    destruct l as [k' eng| | | | |]; simpl; try done.
    unfold step in Hs. simpl in Hs.
    by rewrite (nw_registry _ _ Hnw), lookup_empty in Hs.
Qed.

Lemma no_workers_witness :
  let s := state_after (monitor_steps 9) no_worker_configured in
  worker_threads (monitor s) = ∅
  ∧ trace s = []
  ∧ incoming (job_queue (monitor s)) = [example_task 7 "a.mkv"]
  ∧ monitor_pc s = S_check_idle.
Proof.
  destruct (no_workers_no_dispatch example_idents (example_settings 0)
              [example_task 7 "a.mkv"] [] (monitor_steps 9)
              (state_after (monitor_steps 9) no_worker_configured))
    as (H1 & H2 & _).
  - vm_compute. discriminate.
  - intros N HN. vm_compute in HN.
    repeat (apply elem_of_cons in HN as [HN|HN]; [discriminate|]).
    by apply elem_of_nil in HN.
  - vm_compute. reflexivity.
  - split; [exact H1|]. split; [exact H2|]. split; vm_compute; reflexivity.
Defined.

(** X16. [mark_item_as_processed] raises the exception [e] (line 206). In
    every case units and queues are as they were and the task is not put
    back: having been pulled once, it is on no queue afterwards and
    [mark_item_as_processed] is not called for it again.
    - If [e] is of class [Exception] and is not [queue.Empty], the handler
      of line 209 logs it at level "exception" with [str(e)].
    - If [e] is [queue.Empty], the handler of line 207 runs: nothing is
      logged.
    - In both cases the monitor goes on with the test of line 202, and can
      run on.
    - If [e] is not of class [Exception], no handler catches it:
      [Worker.run] is left by [e], and the monitor runs no further
      statement. *)
Theorem report_exception_is_caught idents s t e :
  reachable idents s →
  monitor_pc s = S_mark t →
  ∃ s',
    step idents (L_monitor (Some e)) s = Some s'
    ∧ worker_threads (monitor s') = worker_threads (monitor s)
    ∧ task_queue (monitor s') = task_queue (monitor s)
    ∧ complete_queue (monitor s') = complete_queue (monitor s)
    ∧ trace s' = Ev_mark (task_id t) :: trace s
    ∧ (∀ ls s'', exec idents ls s' = Some s'' →
         pulled s'' (task_id t) = 1 →
         marked s'' (task_id t) = 1
         ∧ held_to_mark (only (task_id t)) (monitor_pc s'') = 0
         ∧ in_list (only (task_id t)) (items (complete_queue (monitor s''))) = 0
         ∧ in_list (only (task_id t)) (items (task_queue (monitor s''))) = 0)
    ∧ (caught_and_logged e →
         worker_logger (monitor s')
         = worker_logger (monitor s)
             ++ [log_record
                   "Exception when fetching completed task report from worker"
                   (str_exn e) "exception"])
    ∧ (e = QueueEmpty → worker_logger (monitor s') = worker_logger (monitor s))
    ∧ ((∀ msg, e ≠ BaseException msg) →
         monitor_pc s' = S_drain
         ∧ ∀ raises, ∃ s'', step idents (L_monitor raises) s' = Some s'')
    ∧ (∀ msg, e = BaseException msg →
         monitor_pc s' = S_crashed e
         ∧ worker_logger (monitor s') = worker_logger (monitor s)
         ∧ ∀ raises, step idents (L_monitor raises) s' = None).
Proof.
  intros Hr Hpc.
  assert (∃ s', step idents (L_monitor (Some e)) s = Some s'
            ∧ monitor s'
              = (if bool_decide (caught_and_logged e)
                 then Worker_log
                        "Exception when fetching completed task report from worker"
                        (str_exn e) "exception"
                 else id)
                  (set_job_queue
                     (mark_item_as_processed t (job_queue (monitor s)))
                     (monitor s))
            ∧ monitor_pc s'
              = match e with
                | BaseException _ => S_crashed e
                | _ => S_drain
                end
            ∧ trace s' = Ev_mark (task_id t) :: trace s)
    as (s' & Hstep & Hmon & Hpc' & Htr).
  { unfold step. simpl. rewrite Hpc. destruct e; simpl; eauto. }
  assert (well_formed s') as Hwf'
    by (by apply (reachable_invariants idents every),
                 (reachable_step _ _ _ _ Hr Hstep)).
  exists s'. split; [exact Hstep|].
  split; [rewrite Hmon; by case_bool_decide|].
  split; [rewrite Hmon; by case_bool_decide|].
  split; [rewrite Hmon; by case_bool_decide|].
  split; [done|]. split.
  { intros ls s'' Hrun Hpull.
    destruct (exec_trace _ _ _ _ Hrun) as [evs Hevs].
    destruct (reachable_invariants idents (only (task_id t)) s'') as [_ Hc].
    { eapply reachable_exec; [|exact Hrun]. by eapply reachable_step. }
    destruct Hc as [H1 H2 H3 H4 H5 H6 H7].
    unfold pulled, marked in *.
    assert (1 ≤ tally (is_mark (only (task_id t))) (trace s'')).
    { rewrite Hevs, Htr, tally_app. simpl. unfold hit, only.
      rewrite bool_decide_eq_true_2 by done. lia. }
    split_and!; lia. }
  split.
  { intros Hc. rewrite Hmon. by rewrite bool_decide_eq_true_2. }
  split.
  { intros ->. by rewrite Hmon. }
  split.
  - intros Hnb.
    assert (monitor_pc s' = S_drain) as Hd.
    { rewrite Hpc'. destruct e; try done. by destruct (Hnb msg). }
    split; [done|].
    intros raises. apply monitor_is_enabled; [done|by rewrite Hd..].
  - intros msg ->. split; [done|]. split; [by rewrite Hmon|].
    intros raises. unfold step. simpl. by rewrite Hpc'.
Qed.

Lemma report_exception_witness :
  let s := state_after (one_task_claimed ++ unit_steps 0 9 ++ monitor_steps 8)
             one_pending_task in
  ∃ s',
    step example_idents (L_monitor (Some (Exception "database is locked"))) s
    = Some s'
    ∧ (caught_and_logged (Exception "database is locked") →
         worker_logger (monitor s')
         = worker_logger (monitor s)
             ++ [log_record
                   "Exception when fetching completed task report from worker"
                   "database is locked" "exception"])
    ∧ ((∀ msg, Exception "database is locked" ≠ BaseException msg) →
         monitor_pc s' = S_drain
         ∧ ∀ raises, ∃ s'', step example_idents (L_monitor raises) s' = Some s'').
Proof.
  destruct (report_exception_is_caught example_idents
              (state_after (one_task_claimed ++ unit_steps 0 9 ++ monitor_steps 8)
                 one_pending_task)
              (set_success true (example_task 7 "a.mkv"))
              (Exception "database is locked"))
    as (s' & H1 & _ & _ & _ & _ & _ & H7 & _ & H9 & _).
  - exists (example_settings 1), [example_task 7 "a.mkv"], [],
      (one_task_claimed ++ unit_steps 0 9 ++ monitor_steps 8).
    vm_compute. reflexivity.
  - vm_compute. reflexivity.
  - exists s'. split; [exact H1|]. split; [exact H7|exact H9].
Defined.

(** X17. Two units have both seen the hand-off queue not empty (line 109)
    and are both about to take the one task on it (line 112). The unit that
    runs first gets the task; for the other, [get_nowait] raises
    [queue.Empty], which line 125 swallows: that unit goes back to the test
    of line 109 with nothing but its position changed (no task, no log
    line, [idle] still [False]), and the task is claimed once. *)
Theorem one_task_is_claimed_by_one_unit idents s k1 k2 w1 w2 t eng1 eng2 :
  reachable idents s →
  k1 ≠ k2 →
  worker_threads (monitor s) !! k1 = Some w1 →
  worker_threads (monitor s) !! k2 = Some w2 →
  pc w1 = W_get → pc w2 = W_get →
  items (task_queue (monitor s)) = [t] →
  ∃ s' w1',
    exec idents [L_unit k1 eng1; L_unit k2 eng2] s = Some s'
    ∧ worker_threads (monitor s')
      = <[k2 := goto W_inner w2]> (<[k1 := w1']> (worker_threads (monitor s)))
    ∧ pc w1' = W_process ∧ current_task w1' = CT_task t
    ∧ idle (goto W_inner w2) = false
    ∧ items (task_queue (monitor s')) = []
    ∧ complete_queue (monitor s') = complete_queue (monitor s)
    ∧ trace s' = Ev_claim k1 (task_id t) :: trace s.
Proof.
  intros Hr Hne Hk1 Hk2 Hpc1 Hpc2 Hq.
  destruct (reachable_pool_state idents s Hr) as [Hus _ _ _ _ _ _].
  pose proof (us_busy _ _ _ (Hus _ _ Hk2)) as Hidle.
  erewrite exec_cons_Some.
  2: { unfold step. rewrite Hk1. simpl. unfold unit_step, get_nowait.
       rewrite Hpc1, Hq. simpl. reflexivity. }
  erewrite exec_cons_Some.
  2: { unfold step. simpl. rewrite lookup_insert_ne by done. rewrite Hk2.
       simpl. unfold unit_step, get_nowait. rewrite Hpc2. simpl.
       reflexivity. }
  simpl. eexists _, _. split; [reflexivity|]. simpl.
  split_and!; try done. apply Hidle. tauto.
Qed.

Lemma one_task_two_units_witness :
  let s := state_after two_units_see_one_task one_task_two_workers in
  ∃ s' w1',
    exec example_idents [L_unit 0 engine_converts; L_unit 1 engine_converts] s
    = Some s'
    ∧ pc w1' = W_process
    ∧ current_task w1' = CT_task (example_task 7 "a.mkv")
    ∧ items (task_queue (monitor s')) = []
    ∧ trace s' = Ev_claim 0 7 :: trace s.
Proof.
  destruct (one_task_is_claimed_by_one_unit example_idents
              (state_after two_units_see_one_task one_task_two_workers) 0 1
              (default (WorkerThread_init 0 EmptyString)
                 (worker_threads
                    (monitor (state_after two_units_see_one_task
                                one_task_two_workers)) !! 0))
              (default (WorkerThread_init 0 EmptyString)
                 (worker_threads
                    (monitor (state_after two_units_see_one_task
                                one_task_two_workers)) !! 1))
              (example_task 7 "a.mkv") engine_converts engine_converts)
    as (s' & w1' & H1 & _ & H3 & H4 & _ & H6 & _ & H8).
  - exists (example_settings 2), [example_task 7 "a.mkv"], [],
      two_units_see_one_task.
    vm_compute. reflexivity.
  - lia.
  - vm_compute. reflexivity.
  - vm_compute. reflexivity.
  - vm_compute. reflexivity.
  - vm_compute. reflexivity.
  - vm_compute. reflexivity.
  - exists s', w1'. split; [exact H1|]. split; [exact H3|].
    split; [exact H4|]. split; [exact H6|exact H8].
Defined.

(** X18. Neither thread ever blocks. In every state the pool can reach,
    the monitor can run its next statement unless [run] has returned or was
    left by an exception (the [put] of line 186 finds the hand-off queue
    empty), and every registered unit that has not stopped can run its next
    statement (the [put] of line 121 is on an unbounded queue, and a unit
    at lines 117-121 holds a task). *)
Theorem pool_never_blocks idents s :
  reachable idents s →
  (∀ raises,
     (∃ s', step idents (L_monitor raises) s = Some s')
     ∨ monitor_pc s = S_done ∨ ∃ e, monitor_pc s = S_crashed e)
  ∧ (∀ k w eng, worker_threads (monitor s) !! k = Some w →
       (∃ s', step idents (L_unit k eng) s = Some s') ∨ pc w = W_stopped).
Proof.
  intros Hr.
  assert (well_formed s) as Hwf by (by apply (reachable_invariants idents every)).
  split.
  - intros raises.
    destruct (monitor_pc s) eqn:Hpc; try (right; eauto; fail);
      left; apply monitor_is_enabled;
      first [done | by rewrite Hpc | intros ?; by rewrite Hpc].
  - intros k w eng Hk.
    destruct (decide (pc w = W_stopped)) as [?|Hst]; [by right|].
    left. by eapply unit_is_enabled.
Qed.

Lemma pool_never_blocks_witness :
  let s := state_after one_task_claimed one_pending_task in
  (∀ raises,
     (∃ s', step example_idents (L_monitor raises) s = Some s')
     ∨ monitor_pc s = S_done ∨ ∃ e, monitor_pc s = S_crashed e)
  ∧ (∀ k w eng, worker_threads (monitor s) !! k = Some w →
       (∃ s', step example_idents (L_unit k eng) s = Some s')
       ∨ pc w = W_stopped).
Proof.
  apply (pool_never_blocks example_idents
           (state_after one_task_claimed one_pending_task)).
  exists (example_settings 1), [example_task 7 "a.mkv"], [], one_task_claimed.
  vm_compute. reflexivity.
Defined.
